(** * The virtual file system of the desktop shell (src/App.tsx)

    A shallow embedding of the file collection, the permission gate, the
    mutation handlers and the undo/redo log of [App.tsx], followed by the
    properties of the specification that concern them.  The second part
    adds the paths, the desktop and the window handlers of [App.tsx] and
    the components that call the handlers (FinderWindow, FileIcon, Window,
    InfoWindow), with further properties read off the code.

    Conventions of the embedding.
    - React state is an explicit record [AppState]; a handler is a function
      from the state of the last render to the next state.  Every
      [setFiles(prev => ...)] updater is applied at once to the collection
      the handler read, which is what happens when one handler runs per
      render.  What an updater writes to a variable of its handler is
      there for the handler only if React runs the updater before
      [setFiles] returns: see [handleMoveFile] and its argument [eager].
    - A string is the sequence of bytes of the UTF-8 encoding of the
      JavaScript string.  The string operations of the handlers (equality,
      concatenation, [startsWith] of an ASCII prefix, [lastIndexOf('.')]
      and the [substring] cut there, [trim]) give the same string either
      way.
    - [null] and [undefined] are both [None]; JavaScript numbers that hold
      integers (orders, coordinates, timestamps) are [Z]; counters and
      lengths are [nat].
    - [Date.now()] is the argument [now] of a handler and [uuidv4()] is the
      argument [uuid]: [uuid k] is the value of the k-th call made by that
      handler.
    - A [while] loop or a recursion that the source does not bound takes a
      [fuel] argument and yields [None] when the fuel runs out.
    - Presentation state (context menu, rename box, progress dialog,
      theme) and the timers that hide a notification are left out. *)

From Stdlib Require Import ZArith Lia Ascii DecimalString DecimalNat Sorted.
From stdpp Require Import base decidable option list strings.

Local Open Scope Z_scope.

(** ** JavaScript string and array primitives used by the handlers *)

Module JS.

(** [`${n}`] for a natural number. *)
Definition ofNat (n : nat) : string := NilEmpty.string_of_uint (Nat.to_uint n).

(** [s.startsWith(p)] *)
Definition startsWith (p s : string) : bool := String.prefix p s.

Fixpoint lastIndexOfFrom (c : ascii) (s : string) (i acc : Z) : Z :=
  match s with
  | EmptyString => acc
  | String a r => lastIndexOfFrom c r (i + 1) (if Ascii.eqb a c then i else acc)
  end.

(** [s.lastIndexOf(c)], [-1] when [c] does not occur. *)
Definition lastIndexOf (c : ascii) (s : string) : Z := lastIndexOfFrom c s 0 (-1).

(** [s.substring(0, i)] and [s.substring(i)] for [0 <= i]. *)
Definition substringTo (i : Z) (s : string) : string :=
  String.substring 0 (Z.to_nat i) s.
Definition substringFrom (i : Z) (s : string) : string :=
  String.substring (Z.to_nat i) (String.length s - Z.to_nat i) s.

(** The code points [trim] strips, the white space and the line
    terminators of ECMAScript, each as the bytes of its UTF-8 encoding:
    U+0009 to U+000D, U+0020, U+00A0, U+1680, U+2000 to U+200A, U+2028,
    U+2029, U+202F, U+205F, U+3000 and U+FEFF. *)
Definition whiteSpace : list (list ascii) :=
  (λ bytes : list nat, ascii_of_nat <$> bytes)
    <$> [[9]; [10]; [11]; [12]; [13]; [32]; [194; 160]; [225; 154; 128];
         [226; 128; 128]; [226; 128; 129]; [226; 128; 130]; [226; 128; 131];
         [226; 128; 132]; [226; 128; 133]; [226; 128; 134]; [226; 128; 135];
         [226; 128; 136]; [226; 128; 137]; [226; 128; 138]; [226; 128; 168];
         [226; 128; 169]; [226; 128; 175]; [226; 129; 159]; [227; 128; 128];
         [239; 187; 191]]%nat.

(** [l] without the character of [ws] it starts with, if it starts with
    one. *)
Definition afterWhite (ws : list (list ascii)) (l : list ascii) : option (list ascii) :=
  (λ w, drop (length w) l) <$> List.find (λ w, bool_decide (w `prefix_of` l)) ws.

(** [l] without the characters of [ws] it starts with; [fuel] bounds their
    number. *)
Fixpoint dropWhite (fuel : nat) (ws : list (list ascii)) (l : list ascii) : list ascii :=
  match fuel with
  | O => l
  | S k =>
      match afterWhite ws l with
      | Some r => dropWhite k ws r
      | None => l
      end
  end.

(** [s.trim()]: the white space at the start is dropped, then the white
    space at the end, read backwards. *)
Definition trim (s : string) : string :=
  let l := String.list_ascii_of_string s in
  let d := dropWhite (length l) whiteSpace l in
  String.string_of_list_ascii
    (reverse (dropWhite (length d) (reverse <$> whiteSpace) (reverse d))).

(** [p || 'root'] for a string that may be null or undefined: the empty
    string is falsy as well. *)
Definition orRoot (p : option string) : string :=
  match p with
  | Some q => if decide (q = "") then "root" else q
  | None => "root"
  end.

(** [[...new Set(l)]]: the first occurrence of each element, in order. *)
Fixpoint uniq (seen l : list string) : list string :=
  match l with
  | [] => []
  | a :: r => if bool_decide (a ∈ seen) then uniq seen r else a :: uniq (a :: seen) r
  end.

(** [l.length > 0 ? Math.max(...l) : 0] *)
Definition maxOr0 (l : list Z) : Z :=
  match l with
  | [] => 0
  | a :: r => fold_left Z.max r a
  end.

End JS.

(** ** types.ts *)

Inductive FileType :=
  FOLDER | IMAGE | TEXT | VIDEO | AUDIO | PDF | CODE | ARCHIVE | SHEET | UNKNOWN.

Inductive UserRole := ADMIN | USER | JUNIOR.

#[global] Instance FileType_eq_dec : EqDecision FileType.
Proof. solve_decision. Defined.

#[global] Instance UserRole_eq_dec : EqDecision UserRole.
Proof. solve_decision. Defined.

(** Of a user only the identifier and the role reach the file system. *)
Record User := { userId : string; role : UserRole }.

Record Position := { x : Z; y : Z }.

Record TrashData := { originalParentId : option string; dateTrashed : Z }.

Record FileSystemItem := {
  id : string;
  parentId : option string;
  name : string;
  type : FileType;
  size : option Z;
  content : option string;
  dateModified : Z;
  dateCreated : option Z;
  colorTag : option string;
  tags : list string;
  order : Z;
  position : option Position;
  visibleTo : list UserRole;
  ownerId : option string;
  trashData : option TrashData
}.

#[global] Instance Position_eq_dec : EqDecision Position.
Proof. solve_decision. Defined.

#[global] Instance TrashData_eq_dec : EqDecision TrashData.
Proof. solve_decision. Defined.

#[global] Instance FileSystemItem_eq_dec : EqDecision FileSystemItem.
Proof. solve_decision. Defined.

(** Object spread with one overridden field, [{ ...f, field: v }]. *)
Definition withParentId (v : option string) (f : FileSystemItem) : FileSystemItem :=
  {| id := id f; parentId := v; name := name f; type := type f; size := size f;
     content := content f; dateModified := dateModified f;
     dateCreated := dateCreated f; colorTag := colorTag f; tags := tags f;
     order := order f; position := position f; visibleTo := visibleTo f;
     ownerId := ownerId f; trashData := trashData f |}.

Definition withId (v : string) (f : FileSystemItem) : FileSystemItem :=
  {| id := v; parentId := parentId f; name := name f; type := type f; size := size f;
     content := content f; dateModified := dateModified f;
     dateCreated := dateCreated f; colorTag := colorTag f; tags := tags f;
     order := order f; position := position f; visibleTo := visibleTo f;
     ownerId := ownerId f; trashData := trashData f |}.

Definition withName (v : string) (f : FileSystemItem) : FileSystemItem :=
  {| id := id f; parentId := parentId f; name := v; type := type f; size := size f;
     content := content f; dateModified := dateModified f;
     dateCreated := dateCreated f; colorTag := colorTag f; tags := tags f;
     order := order f; position := position f; visibleTo := visibleTo f;
     ownerId := ownerId f; trashData := trashData f |}.

Definition withDateModified (v : Z) (f : FileSystemItem) : FileSystemItem :=
  {| id := id f; parentId := parentId f; name := name f; type := type f; size := size f;
     content := content f; dateModified := v;
     dateCreated := dateCreated f; colorTag := colorTag f; tags := tags f;
     order := order f; position := position f; visibleTo := visibleTo f;
     ownerId := ownerId f; trashData := trashData f |}.

Definition withDateCreated (v : option Z) (f : FileSystemItem) : FileSystemItem :=
  {| id := id f; parentId := parentId f; name := name f; type := type f; size := size f;
     content := content f; dateModified := dateModified f;
     dateCreated := v; colorTag := colorTag f; tags := tags f;
     order := order f; position := position f; visibleTo := visibleTo f;
     ownerId := ownerId f; trashData := trashData f |}.

Definition withTags (v : list string) (f : FileSystemItem) : FileSystemItem :=
  {| id := id f; parentId := parentId f; name := name f; type := type f; size := size f;
     content := content f; dateModified := dateModified f;
     dateCreated := dateCreated f; colorTag := colorTag f; tags := v;
     order := order f; position := position f; visibleTo := visibleTo f;
     ownerId := ownerId f; trashData := trashData f |}.

Definition withOrder (v : Z) (f : FileSystemItem) : FileSystemItem :=
  {| id := id f; parentId := parentId f; name := name f; type := type f; size := size f;
     content := content f; dateModified := dateModified f;
     dateCreated := dateCreated f; colorTag := colorTag f; tags := tags f;
     order := v; position := position f; visibleTo := visibleTo f;
     ownerId := ownerId f; trashData := trashData f |}.

Definition withPosition (v : option Position) (f : FileSystemItem) : FileSystemItem :=
  {| id := id f; parentId := parentId f; name := name f; type := type f; size := size f;
     content := content f; dateModified := dateModified f;
     dateCreated := dateCreated f; colorTag := colorTag f; tags := tags f;
     order := order f; position := v; visibleTo := visibleTo f;
     ownerId := ownerId f; trashData := trashData f |}.

Definition withVisibleTo (v : list UserRole) (f : FileSystemItem) : FileSystemItem :=
  {| id := id f; parentId := parentId f; name := name f; type := type f; size := size f;
     content := content f; dateModified := dateModified f;
     dateCreated := dateCreated f; colorTag := colorTag f; tags := tags f;
     order := order f; position := position f; visibleTo := v;
     ownerId := ownerId f; trashData := trashData f |}.

Definition withTrashData (v : option TrashData) (f : FileSystemItem) : FileSystemItem :=
  {| id := id f; parentId := parentId f; name := name f; type := type f; size := size f;
     content := content f; dateModified := dateModified f;
     dateCreated := dateCreated f; colorTag := colorTag f; tags := tags f;
     order := order f; position := position f; visibleTo := visibleTo f;
     ownerId := ownerId f; trashData := v |}.

(** The windows matter only through the folder an open Finder shows. *)
Inductive WindowType := FINDER | PREVIEW | SETTINGS | AI_CHAT | INFO.

#[global] Instance WindowType_eq_dec : EqDecision WindowType.
Proof. solve_decision. Defined.

Record WindowState := {
  winType : WindowType;
  isOpen : bool;
  isMinimized : bool;
  zIndex : Z;
  currentFolderId : string
}.

(** One entry of the payload of a MOVE action. *)
Record MovedItem := {
  movedId : string;
  oldParentId : option string;
  oldOrder : Z;
  oldPosition : option Position;
  newParentId : string;
  newOrder : Z;
  newPosition : option Position
}.

(** [HistoryAction.type] together with the payload the handlers build for
    it.  The source declares a tenth type, 'TAG', that no handler uses. *)
Inductive ActionPayload :=
| RENAME (target : string) (oldName newName : string)
| MOVE (items : list MovedItem)
| TRASH (ids : list string)
| RESTORE (ids : list string)
| REPOSITION (target : string) (oldPos newPos : option Position)
| SWAP (sourceId targetId : string)
       (sourceOldOrder targetOldOrder sourceNewOrder targetNewOrder : Z)
| DELETE (removed : list FileSystemItem)
| CREATE (created : string) (item : FileSystemItem)
| PASTE (newItems : list FileSystemItem).

Record HistoryAction := {
  payload : ActionPayload;
  description : string;
  timestamp : Z
}.

Record Notification := { msg : string; visible : bool; isError : bool }.

(** The state of the [App] component that the file system reads or writes. *)
Record AppState := {
  files : list FileSystemItem;
  currentUser : option User;
  windows : list WindowState;
  selectedFileIds : list string;
  clipboard : option (list string);
  undoStack : list HistoryAction;
  redoStack : list HistoryAction;
  notification : option Notification
}.

Definition setFiles (v : list FileSystemItem) (s : AppState) : AppState :=
  {| files := v; currentUser := currentUser s; windows := windows s;
     selectedFileIds := selectedFileIds s; clipboard := clipboard s;
     undoStack := undoStack s; redoStack := redoStack s;
     notification := notification s |}.

Definition setSelectedFileIds (v : list string) (s : AppState) : AppState :=
  {| files := files s; currentUser := currentUser s; windows := windows s;
     selectedFileIds := v; clipboard := clipboard s;
     undoStack := undoStack s; redoStack := redoStack s;
     notification := notification s |}.

Definition setClipboard (v : option (list string)) (s : AppState) : AppState :=
  {| files := files s; currentUser := currentUser s; windows := windows s;
     selectedFileIds := selectedFileIds s; clipboard := v;
     undoStack := undoStack s; redoStack := redoStack s;
     notification := notification s |}.

Definition setUndoStack (v : list HistoryAction) (s : AppState) : AppState :=
  {| files := files s; currentUser := currentUser s; windows := windows s;
     selectedFileIds := selectedFileIds s; clipboard := clipboard s;
     undoStack := v; redoStack := redoStack s;
     notification := notification s |}.

Definition setRedoStack (v : list HistoryAction) (s : AppState) : AppState :=
  {| files := files s; currentUser := currentUser s; windows := windows s;
     selectedFileIds := selectedFileIds s; clipboard := clipboard s;
     undoStack := undoStack s; redoStack := v;
     notification := notification s |}.

Definition setNotification (v : option Notification) (s : AppState) : AppState :=
  {| files := files s; currentUser := currentUser s; windows := windows s;
     selectedFileIds := selectedFileIds s; clipboard := clipboard s;
     undoStack := undoStack s; redoStack := redoStack s;
     notification := v |}.

Definition TRASH_ID : string := "trash".

(** [files.find(f => f.id === i)] *)
Definition findById (i : string) (fs : list FileSystemItem) : option FileSystemItem :=
  List.find (fun f => bool_decide (id f = i)) fs.

(** [files.filter(f => f.parentId === p)] *)
Definition childrenOf (p : string) (fs : list FileSystemItem) : list FileSystemItem :=
  filter (fun f => parentId f = Some p) fs.

(** ** Permission logic *)

Definition isFileVisible (user : option User) (item : FileSystemItem) : bool :=
  match user with
  | None => false
  | Some u =>
      if decide (role u = ADMIN) then true
      else bool_decide (role u ∈ visibleTo item)
  end.

Definition hasPermission (user : option User) (item : FileSystemItem) : bool :=
  isFileVisible user item.

(** [currentUser?.role !== UserRole.ADMIN] *)
Definition notAdmin (user : option User) : bool :=
  match user with
  | Some u => negb (bool_decide (role u = ADMIN))
  | None => true
  end.

Definition showNotification (m : string) (err : bool) (s : AppState) : AppState :=
  setNotification (Some {| msg := m; visible := true; isError := err |}) s.

Definition showPermissionError (s : AppState) : AppState :=
  showNotification "Permission Denied: Access Restricted" true s.

Definition updateVisibility (itemId : string) (updatedVisibleTo : list UserRole)
    (s : AppState) : AppState :=
  if notAdmin (currentUser s) then showPermissionError s
  else setFiles
         ((fun f => if decide (id f = itemId) then withVisibleTo updatedVisibleTo f else f)
            <$> files s) s.

Definition updateTags (itemId : string) (newTags : list string) (s : AppState) : AppState :=
  setFiles ((fun f => if decide (id f = itemId) then withTags newTags f else f) <$> files s) s.

Definition toggleRole (roleToToggle : UserRole) (f : FileSystemItem) : FileSystemItem :=
  if bool_decide (roleToToggle ∈ visibleTo f)
  then withVisibleTo (filter (fun r => r ≠ roleToToggle) (visibleTo f)) f
  else withVisibleTo (visibleTo f ++ [roleToToggle]) f.

Definition handleVisibilityToggle (targetId : string) (roleToToggle : UserRole)
    (s : AppState) : AppState :=
  if notAdmin (currentUser s) then showPermissionError s
  else
    let idsToUpdate :=
      if bool_decide (targetId ∈ selectedFileIds s) then selectedFileIds s else [targetId] in
    showNotification
      ("Updated visibility for " +:+ JS.ofNat (length idsToUpdate) +:+ " item(s)") false
      (setFiles
         ((fun f => if bool_decide (id f ∈ idsToUpdate) then toggleRole roleToToggle f else f)
            <$> files s) s).

(** ** History management *)

Definition commitAction (action : HistoryAction) (s : AppState) : AppState :=
  setRedoStack [] (setUndoStack (undoStack s ++ [action]) s).

(** [newFiles[i] = { ...newFiles[i], order: v }] when [i > -1]. *)
Definition setOrderAt (i : option nat) (v : Z) (l : list FileSystemItem) : list FileSystemItem :=
  match i with
  | Some k => alter (withOrder v) k l
  | None => l
  end.

(** [l.findIndex(f => f.id === i)], [None] for [-1]. *)
Definition findIndexById (i : string) (l : list FileSystemItem) : option nat :=
  fst <$> list_find (fun f => id f = i) l.

Definition findMoved (i : string) (items : list MovedItem) : option MovedItem :=
  List.find (fun m => bool_decide (movedId m = i)) items.

(** The [setFiles] updater of each case of the switch in [performUndo]. *)
Definition undoFiles (now : Z) (a : ActionPayload) (prev : list FileSystemItem)
    : list FileSystemItem :=
  match a with
  | RENAME i oldName _ =>
      (fun f => if decide (id f = i) then withName oldName f else f) <$> prev
  | MOVE items =>
      (fun f => match findMoved (id f) items with
                | Some m => withPosition (oldPosition m)
                              (withOrder (oldOrder m) (withParentId (oldParentId m) f))
                | None => f
                end) <$> prev
  | TRASH ids =>
      (fun f => if bool_decide (id f ∈ ids)
                then withTrashData None
                       (withParentId (Some (JS.orRoot (trashData f ≫= originalParentId))) f)
                else f) <$> prev
  | RESTORE ids =>
      (* the payload of a RESTORE action has no originalParentId field *)
      (fun f => if bool_decide (id f ∈ ids)
                then withTrashData (Some {| originalParentId := None; dateTrashed := now |})
                       (withParentId (Some TRASH_ID) f)
                else f) <$> prev
  | REPOSITION i oldPos _ =>
      (fun f => if decide (id f = i) then withPosition oldPos f else f) <$> prev
  | SWAP sourceId targetId sourceOldOrder targetOldOrder _ _ =>
      let sIdx := findIndexById sourceId prev in
      let tIdx := findIndexById targetId prev in
      setOrderAt tIdx targetOldOrder (setOrderAt sIdx sourceOldOrder prev)
  | DELETE removed => prev ++ removed
  | CREATE i _ => filter (fun f => id f ≠ i) prev
  | PASTE newItems =>
      let pastedIds := id <$> newItems in
      filter (fun f => id f ∉ pastedIds) prev
  end.

Definition performUndo (now : Z) (s : AppState) : AppState :=
  match last (undoStack s) with
  | None => s
  | Some action =>
      let newUndoStack := removelast (undoStack s) in
      showNotification ("Undid " +:+ description action) false
        (setUndoStack newUndoStack
           (setRedoStack (redoStack s ++ [action])
              (setFiles (undoFiles now (payload action) (files s)) s)))
  end.

(** The [setFiles] updater of each case of the switch in [performRedo]. *)
Definition redoFiles (now : Z) (a : ActionPayload) (prev : list FileSystemItem)
    : list FileSystemItem :=
  match a with
  | RENAME i _ newName =>
      (fun f => if decide (id f = i) then withName newName f else f) <$> prev
  | MOVE items =>
      (fun f => match findMoved (id f) items with
                | Some m => withPosition (newPosition m)
                              (withOrder (newOrder m) (withParentId (Some (newParentId m)) f))
                | None => f
                end) <$> prev
  | TRASH ids =>
      (fun f => if bool_decide (id f ∈ ids)
                then withTrashData
                       (Some {| originalParentId := parentId f; dateTrashed := now |})
                       (withParentId (Some TRASH_ID) f)
                else f) <$> prev
  | RESTORE ids =>
      (fun f => if bool_decide (id f ∈ ids)
                then withTrashData None
                       (withParentId (Some (JS.orRoot (trashData f ≫= originalParentId))) f)
                else f) <$> prev
  | REPOSITION i _ newPos =>
      (fun f => if decide (id f = i) then withPosition newPos f else f) <$> prev
  | SWAP sourceId targetId _ _ sourceNewOrder targetNewOrder =>
      let sIdx := findIndexById sourceId prev in
      let tIdx := findIndexById targetId prev in
      setOrderAt tIdx targetNewOrder (setOrderAt sIdx sourceNewOrder prev)
  | DELETE removed =>
      let idsToDelete := id <$> removed in
      filter (fun f => id f ∉ idsToDelete) prev
  | CREATE _ item => prev ++ [item]
  | PASTE newItems => prev ++ newItems
  end.

Definition performRedo (now : Z) (s : AppState) : AppState :=
  match last (redoStack s) with
  | None => s
  | Some action =>
      let newRedoStack := removelast (redoStack s) in
      showNotification ("Redid " +:+ description action) false
        (setRedoStack newRedoStack
           (setUndoStack (undoStack s ++ [action])
              (setFiles (redoFiles now (payload action) (files s)) s)))
  end.

(** ** Copy and paste *)

Definition handleCopy (ids : list string) (s : AppState) : AppState :=
  match ids with
  | [] => s
  | _ => showNotification ("Copied " +:+ JS.ofNat (length ids) +:+ " item(s)") false
           (setClipboard (Some ids) s)
  end.

(** [siblings.some(f => f.name === candidate)] *)
Definition nameTaken (siblings : list FileSystemItem) (candidate : string) : bool :=
  existsb (fun f => bool_decide (name f = candidate)) siblings.

(** The loop [while (taken(candidate)) { candidate = next(counter); counter++ }],
    shared by paste and new folder. *)
Fixpoint probeName (fuel : nat) (taken : string -> bool) (next : nat -> string)
    (candidate : string) (counter : nat) : option string :=
  match fuel with
  | O => None
  | S k => if taken candidate then probeName k taken next (next counter) (S counter)
           else Some candidate
  end.

(** [` copy${counter > 1 ? ` ${counter}` : ''}`] *)
Definition copySuffix (counter : nat) : string :=
  " copy" +:+ (if (1 <? counter)%nat then " " +:+ JS.ofNat counter else "").

(** The body of the collision loop of [copyItemRecursively]. *)
Definition copyName (itemName : string) (counter : nat) : string :=
  let dotIndex := JS.lastIndexOf "."%char itemName in
  if 0 <? dotIndex then
    JS.substringTo dotIndex itemName +:+ copySuffix counter +:+ JS.substringFrom dotIndex itemName
  else itemName +:+ copySuffix counter.

(** [children.forEach(child => created = [...created, ...copy(child.id)])],
    where [copy] draws its identifiers from the counter it is given. *)
Fixpoint copyEach (copy : string -> nat -> option (list FileSystemItem * nat))
    (children : list string) (created : list FileSystemItem) (n : nat)
    : option (list FileSystemItem * nat) :=
  match children with
  | [] => Some (created, n)
  | c :: rest =>
      match copy c n with
      | None => None
      | Some (items, n') => copyEach copy rest (created ++ items) n'
      end
  end.

(** [position] of a clone: offset on the desktop, dropped elsewhere. *)
Definition clonePosition (newParent : string) (item : FileSystemItem) : option Position :=
  match position item with
  | Some p => if decide (newParent = "root")
              then Some {| x := x p + 20; y := y p + 20 |} else None
  | None => None
  end.

(** The object literal [newItem] of [copyItemRecursively]. *)
Definition cloneItem (item : FileSystemItem) (newId newParent newName : string) (now : Z)
    : FileSystemItem :=
  withTrashData None
    (withVisibleTo (visibleTo item)
       (withPosition (clonePosition newParent item)
          (withDateCreated (Some now)
             (withDateModified now
                (withName newName
                   (withParentId (Some newParent) (withId newId item))))))).

(** [n] counts the identifiers drawn so far. *)
Fixpoint copyItemRecursively (fuel : nat) (fs : list FileSystemItem)
    (uuid : nat -> string) (now : Z)
    (itemId newParent : string) (isRootOfCopy : bool) (n : nat)
    : option (list FileSystemItem * nat) :=
  match fuel with
  | O => None
  | S k =>
      match findById itemId fs with
      | None => Some ([], n)
      | Some item =>
          let newId := uuid n in
          let newName :=
            if isRootOfCopy then
              let siblings := childrenOf newParent fs in
              probeName fuel (nameTaken siblings) (copyName (name item)) (name item) 1
            else Some (name item) in
          match newName with
          | None => None
          | Some newName =>
              let newItem := cloneItem item newId newParent newName now in
              if decide (type item = FOLDER) then
                copyEach (fun c m => copyItemRecursively k fs uuid now c newId false m)
                  (id <$> childrenOf itemId fs) [newItem] (S n)
              else Some ([newItem], S n)
          end
      end
  end.

(** [ws.sort((a, b) => b.zIndex - a.zIndex)[0]]: the sort is stable, so the
    head is the first window of greatest [zIndex]. *)
Fixpoint topByZIndex (ws : list WindowState) : option WindowState :=
  match ws with
  | [] => None
  | w :: rest =>
      match topByZIndex rest with
      | Some v => if zIndex w <? zIndex v then Some v else Some w
      | None => Some w
      end
  end.

Definition activeFinder (ws : list WindowState) : option WindowState :=
  topByZIndex
    (filter (fun w => winType w = FINDER ∧ isOpen w = true ∧ isMinimized w = false) ws).

(** The folder that paste and new folder act on. *)
Definition activeFolderId (ws : list WindowState) : string :=
  match activeFinder ws with
  | Some w => currentFolderId w
  | None => "root"
  end.

(** [item && !hasPermission(item)] for [item = files.find(f => f.id === i)]. *)
Definition itemDenied (s : AppState) (i : string) : bool :=
  match findById i (files s) with
  | Some item => negb (hasPermission (currentUser s) item)
  | None => false
  end.

(** The write check on a target folder, skipped for 'root'. *)
Definition targetDenied (s : AppState) (target : string) : bool :=
  if decide (target = "root") then false else itemDenied s target.

Definition handlePaste (fuel : nat) (uuid : nat -> string) (now : Z) (s : AppState)
    : option AppState :=
  match clipboard s with
  | None => Some s
  | Some [] => Some s
  | Some ids =>
      let targetFolderId := activeFolderId (windows s) in
      if decide (targetFolderId = TRASH_ID)
      then Some (showNotification "Cannot paste into Trash" true s)
      else if JS.startsWith "tag:" targetFolderId
      then Some (showNotification "Cannot paste into Tags view" true s)
      else if targetDenied s targetFolderId then Some (showPermissionError s)
      else
        match copyEach (fun i m => copyItemRecursively fuel (files s) uuid now i
                                     targetFolderId true m) ids [] O with
        | None => None
        | Some (allNewItems, _) =>
            match allNewItems with
            | [] => Some s
            | _ =>
                Some (showNotification
                        ("Pasted " +:+ JS.ofNat (length ids) +:+ " item(s)") false
                        (commitAction
                           {| payload := PASTE allNewItems;
                              description := "Paste " +:+ JS.ofNat (length ids) +:+ " item(s)";
                              timestamp := now |}
                           (setFiles (files s ++ allNewItems) s)))
            end
        end
  end.

(** ** File system logic *)

Definition handleRenameConfirm (i : string) (newName : string) (now : Z) (s : AppState)
    : AppState :=
  match findById i (files s) with
  | None => s
  | Some file =>
      if decide (parentId file = Some TRASH_ID) then s
      else if negb (hasPermission (currentUser s) file) then showPermissionError s
      else
        let cleanName := JS.trim newName in
        if negb (bool_decide (cleanName = "")) && negb (bool_decide (name file = cleanName))
        then
          commitAction
            {| payload := RENAME i (name file) cleanName;
               description := "Rename"; timestamp := now |}
            (setFiles
               ((fun f => if decide (id f = i)
                          then withDateModified now (withName cleanName f) else f)
                  <$> files s) s)
        else s
  end.

(** An entry of the browser's [FileList]. *)
Record UploadedFile := { fileName : string; mimeType : string; fileSize : Z }.

Definition uploadedType (mime : string) : FileType :=
  if JS.startsWith "image" mime then IMAGE
  else if JS.startsWith "video" mime then VIDEO
  else if JS.startsWith "text" mime then TEXT
  else UNKNOWN.

(** [Array.from(fileList).map((f, idx) => ...)], [idx] counted from [k]. *)
Fixpoint uploadedItems (uuid : nat -> string) (now : Z) (target : string)
    (maxOrder : Z) (owner : string) (k : nat) (fl : list UploadedFile)
    : list FileSystemItem :=
  match fl with
  | [] => []
  | f :: rest =>
      {| id := uuid k; parentId := Some target; name := fileName f;
         type := uploadedType (mimeType f); size := Some (fileSize f);
         content := None; dateModified := now; dateCreated := Some now;
         colorTag := None; tags := [];
         order := maxOrder + 1 + Z.of_nat k; position := None;
         visibleTo := [USER; JUNIOR]; ownerId := Some owner; trashData := None |}
      :: uploadedItems uuid now target maxOrder owner (S k) rest
  end.

(** [newFiles.forEach(f => commitAction({ type: 'CREATE', ... }))] *)
Definition commitUploads (now : Z) (newFiles : list FileSystemItem) (s : AppState)
    : AppState :=
  fold_left
    (fun st f => commitAction {| payload := CREATE (id f) f;
                                 description := "Upload"; timestamp := now |} st)
    newFiles s.

(** An upload from its start to the tick on which the simulated progress
    reaches 100, with no other handler in between.  The progress is
    [loaded / totalSize]: with an empty list the first tick throws on
    [fileList[0]], and with a total size of 0 the progress is NaN and never
    reaches 100, so in both cases the collection is never written.  It is
    not written either when nobody is logged in ([currentUser!.id]). *)
Definition handleUpload (fl : list UploadedFile) (target : string)
    (uuid : nat -> string) (now : Z) (s : AppState) : AppState :=
  if decide (target = TRASH_ID)
  then showNotification "Cannot upload directly to Trash" true s
  else if targetDenied s target then showPermissionError s
  else
    let totalSize := fold_left (fun acc f => acc + fileSize f) fl 0 in
    let maxOrder := JS.maxOr0 (order <$> childrenOf target (files s)) in
    match fl, currentUser s with
    | [], _ => s
    | _, None => s
    | _, Some u =>
        if totalSize =? 0 then s
        else
          let newFiles := uploadedItems uuid now target maxOrder (userId u) O fl in
          commitUploads now newFiles (setFiles (files s ++ newFiles) s)
    end.

(** The loop of [handleMoveFile] that walks from the target folder upwards:
    [Some true] when it meets the source (the handler returns),
    [Some false] when it leaves the loop. *)
Fixpoint reachesSource (fuel : nat) (fs : list FileSystemItem) (sourceId : string)
    (current : option FileSystemItem) : option bool :=
  match fuel with
  | O => None
  | S k =>
      match current with
      | None => Some false
      | Some c =>
          if decide (id c = sourceId) then Some true
          else
            match parentId c with
            | None => Some false
            | Some p =>
                (* [!current.parentId] also holds of the empty string *)
                if decide (p = "") then Some false
                else reachesSource k fs sourceId (findById p fs)
            end
      end
  end.

(** The [prev.map] of [handleMoveFile] with its two side effects, the
    running [maxOrder] and the payload under construction. *)
Fixpoint moveItems (idsToMove : list string) (target : string)
    (newPos : option Position) (now : Z) (maxOrder : Z) (prev : list FileSystemItem)
    : list FileSystemItem * list MovedItem :=
  match prev with
  | [] => ([], [])
  | f :: rest =>
      if bool_decide (id f ∈ idsToMove) then
        if bool_decide (parentId f = Some target) && negb (bool_decide (is_Some newPos))
        then
          let '(fs, ps) := moveItems idsToMove target newPos now maxOrder rest in
          (f :: fs, ps)
        else
          let maxOrder' := maxOrder + 1 in
          let '(fs, ps) := moveItems idsToMove target newPos now maxOrder' rest in
          (withPosition newPos
             (withOrder maxOrder'
                (withDateModified now (withParentId (Some target) f))) :: fs,
           {| movedId := id f; oldParentId := parentId f; oldOrder := order f;
              oldPosition := position f; newParentId := target;
              newOrder := maxOrder'; newPosition := newPos |} :: ps)
      else
        let '(fs, ps) := moveItems idsToMove target newPos now maxOrder rest in
        (f :: fs, ps)
  end.

Definition trashItem (now : Z) (f : FileSystemItem) : FileSystemItem :=
  withTrashData (Some {| originalParentId := parentId f; dateTrashed := now |})
    (withPosition None (withParentId (Some TRASH_ID) f)).

Definition handleMoveToTrash (itemIds : list string) (now : Z) (s : AppState) : AppState :=
  let itemsToTrash := filter (fun f => id f ∈ itemIds) (files s) in
  if existsb (fun f => negb (hasPermission (currentUser s) f)) itemsToTrash
  then showPermissionError s
  else
    showNotification (JS.ofNat (length itemIds) +:+ " item(s) moved to Trash") false
      (setSelectedFileIds []
         (commitAction
            {| payload := TRASH itemIds;
               description := "Move " +:+ JS.ofNat (length itemIds) +:+ " item(s) to Trash";
               timestamp := now |}
            (setFiles
               ((fun f => if bool_decide (id f ∈ itemIds) then trashItem now f else f)
                  <$> files s) s))).

(** [handleMoveFile] fills [movedItemsPayload] inside the function it
    hands to [setFiles] and tests the payload right after the call.  React
    runs such a function before [setFiles] returns only when no update of
    the component is pending (its eager path, as after a render that
    changed nothing); otherwise it runs it at the next render, after the
    handler has found the payload empty.  [eager] says which of the two
    happens: when it is false the items move and no action is committed. *)
Definition handleMoveFile (eager : bool) (fuel : nat)
    (sourceId targetFolderId : string) (newPos : option Position) (now : Z)
    (s : AppState) : option AppState :=
  if decide (sourceId = targetFolderId) then Some s
  else if itemDenied s sourceId then Some (showPermissionError s)
  else if decide (targetFolderId = TRASH_ID)
  then Some (handleMoveToTrash [sourceId] now s)
  else if targetDenied s targetFolderId then Some (showPermissionError s)
  else
       match reachesSource fuel (files s) sourceId (findById targetFolderId (files s)) with
       | None => None
       | Some true => Some s
       | Some false =>
           let idsToMove :=
             if bool_decide (sourceId ∈ selectedFileIds s)
             then JS.uniq [] (selectedFileIds s ++ [sourceId])
             else [sourceId] in
           let maxOrder := JS.maxOr0 (order <$> childrenOf targetFolderId (files s)) in
           let '(newFiles, movedItemsPayload) :=
             moveItems idsToMove targetFolderId newPos now maxOrder (files s) in
           match movedItemsPayload with
           | [] => Some (setFiles newFiles s)
           | _ =>
               if eager then
                 let count := length movedItemsPayload in
                 Some (commitAction
                         {| payload := MOVE movedItemsPayload;
                            description :=
                              "Move " +:+ JS.ofNat count +:+ " item"
                                +:+ (if (1 <? count)%nat then "s" else "");
                            timestamp := now |}
                         (setFiles newFiles s))
               else Some (setFiles newFiles s)
           end
       end.

Definition handleReposition (i : string) (newPos : Position) (now : Z) (s : AppState)
    : AppState :=
  match findById i (files s) with
  | None => s
  | Some file =>
      if negb (hasPermission (currentUser s) file) then s
      else
        commitAction
          {| payload := REPOSITION i (position file) (Some newPos);
             description := "Reposition"; timestamp := now |}
          (setFiles
             ((fun f => if decide (id f = i) then withPosition (Some newPos) f else f)
                <$> files s) s)
  end.

Definition handleSwapFile (sourceId targetId : string) (now : Z) (s : AppState)
    : AppState :=
  match findById sourceId (files s), findById targetId (files s) with
  | Some sourceFile, Some targetFile =>
      if negb (hasPermission (currentUser s) sourceFile)
         || negb (hasPermission (currentUser s) targetFile)
      then showPermissionError s
      else
        let sourceOrder := order sourceFile in
        let targetOrder := order targetFile in
        setFiles
          ((fun f => if decide (id f = sourceId) then withOrder targetOrder f
                     else if decide (id f = targetId) then withOrder sourceOrder f
                     else f) <$> files s)
          (commitAction
             {| payload := SWAP sourceId targetId sourceOrder targetOrder
                             targetOrder sourceOrder;
                description := "Reorder"; timestamp := now |} s)
  | _, _ => s
  end.

Definition restoreItem (f : FileSystemItem) : FileSystemItem :=
  withTrashData None
    (withParentId (Some (JS.orRoot (trashData f ≫= originalParentId))) f).

Definition handleRestoreFile (itemIds : list string) (now : Z) (s : AppState) : AppState :=
  showNotification (JS.ofNat (length itemIds) +:+ " item(s) restored") false
    (setSelectedFileIds []
       (commitAction
          {| payload := RESTORE itemIds;
             description := "Restore " +:+ JS.ofNat (length itemIds) +:+ " item(s)";
             timestamp := now |}
          (setFiles
             ((fun f => if bool_decide (id f ∈ itemIds) then restoreItem f else f)
                <$> files s) s))).

Definition handlePermanentDelete (itemIds : list string) (now : Z) (s : AppState)
    : AppState :=
  let filesToDelete := filter (fun f => id f ∈ itemIds) (files s) in
  showNotification "Files permanently deleted" false
    (setSelectedFileIds []
       (setFiles (filter (fun f => id f ∉ itemIds) (files s))
          (commitAction
             {| payload := DELETE filesToDelete;
                description :=
                  "Permanently delete " +:+ JS.ofNat (length filesToDelete) +:+ " item(s)";
                timestamp := now |} s))).

Definition handleEmptyTrash (now : Z) (s : AppState) : AppState :=
  let trashFiles := childrenOf TRASH_ID (files s) in
  match trashFiles with
  | [] => s
  | _ => showNotification "Trash emptied" false
           (handlePermanentDelete (id <$> trashFiles) now s)
  end.

(** [`${baseName} ${counter}`] *)
Definition numberedName (baseName : string) (counter : nat) : string :=
  baseName +:+ " " +:+ JS.ofNat counter.

Definition handleNewFolderAction (fuel : nat) (uuid : nat -> string) (now : Z)
    (s : AppState) : option AppState :=
  let targetParentId := activeFolderId (windows s) in
  if decide (targetParentId = TRASH_ID)
  then Some (showNotification "Cannot create folders in Trash" true s)
  else if JS.startsWith "tag:" targetParentId
  then Some (showNotification "Cannot create folders in Tag view" true s)
  else if targetDenied s targetParentId then Some (showPermissionError s)
  else
    let parentName :=
      match activeFinder (windows s) with Some _ => "Finder" | None => "Desktop" end in
    let baseName := "Untitled Folder" in
    let siblings := childrenOf targetParentId (files s) in
    match probeName fuel (nameTaken siblings) (numberedName baseName) baseName 2 with
    | None => None
    | Some finalName =>
        match currentUser s with
        | None => Some s  (* [currentUser!.id] throws before any state is set *)
        | Some u =>
            let newFolder :=
              {| id := uuid O; parentId := Some targetParentId; name := finalName;
                 type := FOLDER; size := None; content := None;
                 dateModified := now; dateCreated := Some now;
                 colorTag := None; tags := []; order := 1000;
                 position := if decide (targetParentId = "root")
                             then Some {| x := 200; y := 200 |} else None;
                 visibleTo := [USER; JUNIOR]; ownerId := Some (userId u);
                 trashData := None |} in
            Some (showNotification ("Created folder in " +:+ parentName) false
                    (commitAction
                       {| payload := CREATE (id newFolder) newFolder;
                          description := "New Folder"; timestamp := now |}
                       (setFiles (files s ++ [newFolder]) s)))
        end
    end.

(** ** Commands

    One user action: the handler it reaches and the arguments the
    interface passes to it. *)
Inductive Command :=
| Rename (i newName : string)
| Move (sourceId targetFolderId : string) (newPos : option Position)
| Reposition (i : string) (newPos : Position)
| Swap (sourceId targetId : string)
| MoveToTrash (itemIds : list string)
| Restore (itemIds : list string)
| PermanentDelete (itemIds : list string)
| EmptyTrash
| NewFolder
| Upload (fl : list UploadedFile) (target : string)
| Copy (ids : list string)
| Paste
| ToggleVisibility (targetId : string) (r : UserRole)
| UpdateVisibility (itemId : string) (roles : list UserRole)
| UpdateTags (itemId : string) (newTags : list string)
| Undo
| Redo.

(** What the environment supplies to one command: the loop bound of the
    embedding, the identifiers [uuidv4()] returns, the clock, and whether
    React runs the function given to [setFiles] at once. *)
Record Env := { fuel : nat; uuid : nat -> string; now : Z; eager : bool }.

Definition run (e : Env) (c : Command) (s : AppState) : option AppState :=
  match c with
  | Rename i newName => Some (handleRenameConfirm i newName (now e) s)
  | Move src tgt p => handleMoveFile (eager e) (fuel e) src tgt p (now e) s
  | Reposition i p => Some (handleReposition i p (now e) s)
  | Swap a b => Some (handleSwapFile a b (now e) s)
  | MoveToTrash l => Some (handleMoveToTrash l (now e) s)
  | Restore l => Some (handleRestoreFile l (now e) s)
  | PermanentDelete l => Some (handlePermanentDelete l (now e) s)
  | EmptyTrash => Some (handleEmptyTrash (now e) s)
  | NewFolder => handleNewFolderAction (fuel e) (uuid e) (now e) s
  | Upload fl tgt => Some (handleUpload fl tgt (uuid e) (now e) s)
  | Copy l => Some (handleCopy l s)
  | Paste => handlePaste (fuel e) (uuid e) (now e) s
  | ToggleVisibility i r => Some (handleVisibilityToggle i r s)
  | UpdateVisibility i rs => Some (updateVisibility i rs s)
  | UpdateTags i ts => Some (updateTags i ts s)
  | Undo => Some (performUndo (now e) s)
  | Redo => Some (performRedo (now e) s)
  end.

(** A sequence of commands, each with its environment. *)
Fixpoint runAll (cs : list (Env * Command)) (s : AppState) : option AppState :=
  match cs with
  | [] => Some s
  | (e, c) :: rest =>
      match run e c s with
      | Some s' => runAll rest s'
      | None => None
      end
  end.

(** [n] calls of undo, and of redo, at the clock readings [ts]. *)
Fixpoint undoAll (ts : list Z) (s : AppState) : AppState :=
  match ts with
  | [] => s
  | t :: rest => undoAll rest (performUndo t s)
  end.

Fixpoint redoAll (ts : list Z) (s : AppState) : AppState :=
  match ts with
  | [] => s
  | t :: rest => redoAll rest (performRedo t s)
  end.

(** ** Notions used to state the properties *)

(** [reaches fs a cur]: the walk from [cur] along [parentId], each parent
    looked up by identifier as the handlers do, meets the item [a]; that is,
    [cur] is [a] or lies below [a]. *)
Inductive reaches (fs : list FileSystemItem) (a : string)
    : option FileSystemItem -> Prop :=
| reaches_here c : id c = a -> reaches fs a (Some c)
| reaches_up c p :
    id c ≠ a -> parentId c = Some p -> p ≠ "" ->
    reaches fs a (findById p fs) -> reaches fs a (Some c).

(** The names a collision loop tries, in order: the desired name, then
    [next start], [next (start + 1)], ... *)
Definition candidate (next : nat -> string) (desired : string) (start j : nat) : string :=
  match j with
  | O => desired
  | S i => next (start + i)%nat
  end.

(** [firstFree taken c j]: [c j] is free and every earlier candidate is taken. *)
Definition firstFree (taken : string -> bool) (c : nat -> string) (j : nat) : Prop :=
  taken (c j) = false ∧ ∀ i, (i < j)%nat -> taken (c i) = true.


(** What a handler may do to the history: leave both stacks as they are,
    or push at least one action and clear the redo stack. *)
Definition historyUntouched (s s' : AppState) : Prop :=
  undoStack s' = undoStack s ∧ redoStack s' = redoStack s.

Definition historyCommitted (s s' : AppState) : Prop :=
  ∃ acts, acts ≠ [] ∧ undoStack s' = undoStack s ++ acts ∧ redoStack s' = [].



(** The candidates of the two collision loops. *)
Definition copyCandidate (desired : string) : nat -> string :=
  candidate (copyName desired) desired 1.

Definition folderCandidate : nat -> string :=
  candidate (numberedName "Untitled Folder") "Untitled Folder" 2.



(** An item with its modification date blanked, and a collection of such:
    what undo can be expected to restore, since no action records the dates
    it overwrites. *)
Definition strip (f : FileSystemItem) : FileSystemItem := withDateModified 0 f.

Definition snapshot (fs : list FileSystemItem) : list FileSystemItem := strip <$> fs.

(** [unstamp f]: [f] without the date of its move to the trash. *)
Definition unstamp (f : FileSystemItem) : FileSystemItem :=
  withTrashData
    ((λ td, {| originalParentId := originalParentId td; dateTrashed := 0 |})
       <$> trashData f) f.

(** What two items are compared on: every field but [dateModified], and
    when [dated] is false every field but [dateModified] and the
    [dateTrashed] of [trashData]. *)
Definition stripTo (dated : bool) (f : FileSystemItem) : FileSystemItem :=
  if dated then strip f else unstamp (strip f).

Definition snapshotTo (dated : bool) (fs : list FileSystemItem) : list FileSystemItem :=
  stripTo dated <$> fs.

(** Two collections alike up to modification dates (and up to trash dates
    unless [dated]): item by item in the same order when [exact], as
    multisets of items otherwise. *)
Definition alike (exact dated : bool) (G G' : list FileSystemItem) : Prop :=
  if exact then snapshotTo dated G = snapshotTo dated G'
  else snapshotTo dated G ≡ₚ snapshotTo dated G'.

(** [trashable ids s]: the items a move of [ids] to the trash rewrites are
    where undo puts them back: out of the trash, below a parent, and
    without a position of their own. *)
Definition trashable (itemIds : list string) (s : AppState) : Prop :=
  ∀ f, f ∈ files s -> id f ∈ itemIds ->
    position f = None ∧ trashData f = None ∧ ∃ p, parentId f = Some p ∧ p ≠ "".

(** The commands whose effect the history can revert, in the state and the
    environment they run in.  A move into a folder is one when React runs
    its update at once, so that the action is committed.  A move to the
    trash is one when its items are [trashable] and trash dates are not
    compared, redo stamping a new one.  A permanent delete is one when the
    order of the items in the collection is not compared.  Restores,
    visibility and tag changes and undo and redo themselves are not among
    them. *)
Definition reversible (exact dated : bool) (e : Env) (c : Command) (s : AppState) : Prop :=
  match c with
  | Rename _ _ | Reposition _ _ | Swap _ _ | NewFolder | Upload _ _ | Copy _ | Paste => True
  | Move src tgt _ =>
      if decide (tgt = TRASH_ID) then dated = false ∧ trashable [src] s
      else eager e = true
  | MoveToTrash ids => dated = false ∧ trashable ids s
  | PermanentDelete _ | EmptyTrash => exact = false
  | _ => False
  end.

(** Every command of a run is reversible in the state it starts from. *)
Fixpoint reversibleRun (exact dated : bool) (cs : list (Env * Command)) (s : AppState)
    : Prop :=
  match cs with
  | [] => True
  | (e, c) :: rest =>
      reversible exact dated e c s
      ∧ match run e c s with
        | Some s' => reversibleRun exact dated rest s'
        | None => True
        end
  end.

(** The identifiers drawn by each command of a run are pairwise distinct
    and new to the collection the command starts from. *)
Fixpoint freshRun (cs : list (Env * Command)) (s : AppState) : Prop :=
  match cs with
  | [] => True
  | (e, c) :: rest =>
      (∀ j k, uuid e j = uuid e k -> j = k)
      ∧ (∀ k, uuid e k ∉ id <$> files s)
      ∧ match run e c s with
        | Some s' => freshRun rest s'
        | None => True
        end
  end.

(** [inverts exact dated a F F1]: on any collection alike to [F1] undoing
    [a] gives one alike to [F], trash dates included; and on any collection
    alike to [F] redoing [a] gives one alike to [F1]. *)
Definition inverts (exact dated : bool) (a : ActionPayload)
    (F F1 : list FileSystemItem) : Prop :=
  (∀ t G, alike exact true G F1 -> alike exact true (undoFiles t a G) F)
  ∧ (∀ t G, alike exact dated G F -> alike exact dated (redoFiles t a G) F1).

(** A list of actions that leads from [F] to [F1], each step invertible. *)
Inductive replays (exact dated : bool)
    : list HistoryAction -> list FileSystemItem -> list FileSystemItem -> Prop :=
| replays_nil F : replays exact dated [] F F
| replays_cons a acts F Fm F1 :
    inverts exact dated (payload a) F Fm -> replays exact dated acts Fm F1 ->
    replays exact dated (a :: acts) F F1.

(** An update of one item that looks at nothing but what [stripTo] keeps. *)
Definition respectful (u : FileSystemItem -> FileSystemItem) : Prop :=
  ∀ d f g, stripTo d f = stripTo d g -> stripTo d (u f) = stripTo d (u g).

(** [drawn uuid items n n']: the items carry the identifiers drawn from
    call [n] up to call [n']. *)
Definition drawn (uuid : nat -> string) (items : list FileSystemItem) (n n' : nat) : Prop :=
  (n ≤ n')%nat ∧ id <$> items = uuid <$> seq n (n' - n).

(** [traced exact dated s s1]: the actions pushed between [s] and [s1] lead
    from the collection of [s] to that of [s1], and identifiers stay
    distinct. *)
Definition traced (exact dated : bool) (s s1 : AppState) : Prop :=
  ∃ acts, undoStack s1 = undoStack s ++ acts
          ∧ replays exact dated acts (files s) (files s1)
          ∧ NoDup (id <$> files s1).

(** [sameAccess g f]: [g] is the item [f] as far as identifier,
    visibility set and tags go. *)
Definition sameAccess (g f : FileSystemItem) : Prop :=
  id g = id f ∧ visibleTo g = visibleTo f ∧ tags g = tags f.

(** The items an action carries in its payload. *)
Definition carried (a : ActionPayload) : list FileSystemItem :=
  match a with
  | DELETE removed => removed
  | CREATE _ item => [item]
  | PASTE newItems => newItems
  | _ => []
  end.

(** ** Sample collections *)

Definition sampleItem (i : string) (p : option string) (n : string) (t : FileType)
    (o : Z) : FileSystemItem :=
  {| id := i; parentId := p; name := n; type := t; size := None; content := None;
     dateModified := 0; dateCreated := None; colorTag := None; tags := [];
     order := o; position := None; visibleTo := [USER; JUNIOR]; ownerId := None;
     trashData := None |}.

(** A logged-in standard user, no window open, empty history. *)
Definition sampleState (fs : list FileSystemItem) : AppState :=
  {| files := fs; currentUser := Some {| userId := "u_user"; role := USER |};
     windows := []; selectedFileIds := []; clipboard := None;
     undoStack := []; redoStack := []; notification := None |}.

Definition sampleUuid (n : nat) : string := "uuid-" +:+ JS.ofNat n.

Definition sampleEnv (t : Z) : Env :=
  {| fuel := 8; uuid := sampleUuid; now := t; eager := true |}.

(** One text file on the desktop. *)
Definition oneFile : AppState :=
  sampleState [sampleItem "a" (Some "root") "a.txt" TEXT 1].

(** The same after a rename at time 5. *)
Definition oneFileRenamed : AppState := handleRenameConfirm "a" "b.txt" 5 oneFile.

(** An administrator looking at the same desktop. *)
Definition oneFileAdmin : AppState :=
  {| files := files oneFile; currentUser := Some {| userId := "u_admin"; role := ADMIN |};
     windows := []; selectedFileIds := []; clipboard := None;
     undoStack := undoStack oneFileRenamed; redoStack := []; notification := None |}.

(** Folder A holding folder D, and a file B beside A; A and B selected. *)
Definition nestedSelection : AppState :=
  setSelectedFileIds ["A"; "B"]
    (sampleState [sampleItem "A" (Some "root") "A" FOLDER 1;
                  sampleItem "D" (Some "A") "D" FOLDER 0;
                  sampleItem "B" (Some "root") "b.txt" TEXT 2]).

(** One file copied to the clipboard while a Finder window shows [folder]. *)
Definition finderOn (folder : string) : AppState :=
  {| files := files oneFile; currentUser := currentUser oneFile;
     windows := [{| winType := FINDER; isOpen := true; isMinimized := false;
                    zIndex := 11; currentFolderId := folder |}];
     selectedFileIds := []; clipboard := Some ["a"];
     undoStack := []; redoStack := []; notification := None |}.

Definition pictureUpload : list UploadedFile :=
  [{| fileName := "fish.png"; mimeType := "image/png"; fileSize := 2048 |}].

(** The first entry of INITIAL_FILES (constants.ts): the item that stands
    for the desktop itself, whose parent is null. *)
Definition systemRoot : FileSystemItem := sampleItem "root" None "UR System" FOLDER 0.


(** report.txt on the desktop and report copy.txt in Documents, both on
    the clipboard. *)
Definition twoReports : AppState :=
  setClipboard (Some ["r"; "q"])
    (sampleState [sampleItem "r" (Some "root") "report.txt" TEXT 1;
                  sampleItem "q" (Some "docs") "report copy.txt" TEXT 1]).

(** A desktop that already holds an untitled folder. *)
Definition untitledDesk : AppState :=
  sampleState [sampleItem "x" (Some "root") "Untitled Folder" FOLDER 1].

(** The same desktop, with a folder named Untitled Folder 2 inside the
    first one. *)
Definition untitledTwice : AppState :=
  sampleState [sampleItem "x" (Some "root") "Untitled Folder" FOLDER 1;
               sampleItem "y" (Some "x") "Untitled Folder 2" FOLDER 1].

(** A generator of identifiers that starts at [base]. *)
Definition sampleUuidFrom (base n : nat) : string := "uuid-" +:+ JS.ofNat (base + n).

(** A text file placed by hand on the desktop. *)
Definition placedFile : FileSystemItem :=
  withPosition (Some {| x := 40; y := 40 |}) (sampleItem "a" (Some "root") "a.txt" TEXT 1).

(** Rename it at time 5, then move it to the trash at time 6. *)
Definition renameThenTrash : list (Env * Command) :=
  [(sampleEnv 5, Rename "a" "b.txt"); (sampleEnv 6, MoveToTrash ["a"])].

(** Rename it, make a new folder, drag the file into the folder. *)
Definition renameCreateMove : list (Env * Command) :=
  [({| fuel := 8; uuid := sampleUuidFrom 0; now := 5; eager := true |},
    Rename "a" "b.txt");
   ({| fuel := 8; uuid := sampleUuidFrom 0; now := 6; eager := true |}, NewFolder);
   ({| fuel := 8; uuid := sampleUuidFrom 1; now := 7; eager := true |},
    Move "a" "uuid-0" None)].

Definition afterRenameCreateMove : AppState :=
  default (sampleState []) (runAll renameCreateMove (sampleState [placedFile])).

(** The same, and then the file is moved to the trash. *)
Definition renameMoveTrash : list (Env * Command) :=
  renameCreateMove
  ++ [({| fuel := 8; uuid := sampleUuidFrom 1; now := 8; eager := true |},
       MoveToTrash ["a"])].

Definition afterRenameMoveTrash : AppState :=
  default (sampleState []) (runAll renameMoveTrash (sampleState [placedFile])).

(** A file that was moved to the trash from the Documents folder. *)
Definition trashedNote : FileSystemItem :=
  withTrashData (Some {| originalParentId := Some "docs"; dateTrashed := 3 |})
    (sampleItem "n" (Some "trash") "note.txt" TEXT 1).

(** ** The rest of App.tsx: paths, the desktop, drops *)

(** The entry that [getPath] makes up for the trash. *)
Definition trashEntry (now : Z) : FileSystemItem :=
  {| id := TRASH_ID; parentId := None; name := "Trash"; type := FOLDER; size := None;
     content := None; dateModified := now; dateCreated := None; colorTag := None;
     tags := []; order := 0; position := None; visibleTo := []; ownerId := None;
     trashData := None |}.

(** The loop of [getPath]: [path.unshift(current)], then up to the parent
    unless the parent is null, empty or the trash. *)
Fixpoint climbPath (fuel : nat) (fs : list FileSystemItem)
    (current : option FileSystemItem) (path : list FileSystemItem)
    : option (list FileSystemItem) :=
  match fuel with
  | O => None
  | S k =>
      match current with
      | None => Some path
      | Some c =>
          match parentId c with
          | None => Some (c :: path)
          | Some p =>
              if decide (p = "") then Some (c :: path)
              else if decide (p = TRASH_ID) then Some (c :: path)
              else climbPath k fs (findById p fs) (c :: path)
          end
      end
  end.

Definition getPath (fuel : nat) (now : Z) (fs : list FileSystemItem) (folderId : string)
    : option (list FileSystemItem) :=
  if JS.startsWith "tag:" folderId then Some []
  else if decide (folderId = TRASH_ID) then Some [trashEntry now]
  else climbPath fuel fs (findById folderId fs) [].

(** [l.sort(cmp)]: the sort of an array is stable, so it is the insertion
    of each element before the first later one that does not come before
    it. *)
Fixpoint insertBy {A : Type} (cmp : A -> A -> Z) (a : A) (l : list A) : list A :=
  match l with
  | [] => [a]
  | b :: r => if cmp a b <=? 0 then a :: b :: r else b :: insertBy cmp a r
  end.

Definition sortBy {A : Type} (cmp : A -> A -> Z) (l : list A) : list A :=
  foldr (insertBy cmp) [] l.

(** [(a, b) => a.order - b.order] *)
Definition byOrder (a b : FileSystemItem) : Z := order a - order b.

Definition visibleFiles (s : AppState) : list FileSystemItem :=
  filter (λ f, isFileVisible (currentUser s) f = true) (files s).

Definition desktopIcons (s : AppState) : list FileSystemItem :=
  sortBy byOrder
    (filter (λ f, parentId f = Some "root" ∧ id f ≠ "root") (visibleFiles s)).

(** [screenW] is [windowSize.w]. *)
Definition getIconPosition (screenW : Z) (item : FileSystemItem) (index : nat) : Position :=
  match position item with
  | Some p => p
  | None =>
      if screenW <? 768 then
        let col := (index mod 4)%nat in
        let row := (index / 4)%nat in
        {| x := 20 + Z.of_nat col * 80; y := 60 + Z.of_nat row * 90 |}
      else
        let col := (index / 6)%nat in
        let row := (index mod 6)%nat in
        let startX := screenW - 120 in
        let startY := 40 in
        {| x := startX - Z.of_nat col * 110; y := startY + Z.of_nat row * 110 |}
  end.



(** [rooted fs cur n]: the walk of [getPath] from [cur] stops after [n]
    items. *)
Inductive rooted (fs : list FileSystemItem) : option FileSystemItem -> nat -> Prop :=
| rooted_none : rooted fs None 0
| rooted_top c :
    parentId c = None ∨ parentId c = Some "" ∨ parentId c = Some TRASH_ID ->
    rooted fs (Some c) 1
| rooted_up c p n :
    parentId c = Some p -> p ≠ "" -> p ≠ TRASH_ID ->
    rooted fs (findById p fs) n -> rooted fs (Some c) (S n).

(** [linked fs path]: each item of the path is the parent of the next, as
    the collection resolves it. *)
Fixpoint linked (fs : list FileSystemItem) (path : list FileSystemItem) : Prop :=
  match path with
  | a :: (b :: _) as rest =>
      parentId b = Some (id a) ∧ findById (id a) fs = Some a ∧ linked fs rest
  | _ => True
  end.

(** The state after A and B were dragged into A (see claim C2). *)
Definition folderInsideItself : AppState :=
  default nestedSelection (handleMoveFile false 8 "B" "A" None 5 nestedSelection).

(** The top of the initial collection: the root entry, Documents, a
    project folder in it and a source file in the project. *)
Definition sampleTree : list FileSystemItem :=
  [systemRoot;
   sampleItem "docs" (Some "root") "Documents" FOLDER 1;
   sampleItem "proj" (Some "docs") "Project Alpha" FOLDER 0;
   sampleItem "script1" (Some "proj") "main.tsx" CODE 0].

(** Ascending [order], the relation the desktop and the folders sort by. *)
Definition orderLe (a b : FileSystemItem) : Prop := order a <= order b.

(** ** Notions for the further properties *)

(** [idsToMove] of [handleMoveFile]: the selection when the dragged item
    belongs to it, the dragged item alone otherwise. *)
Definition dragSet (sourceId : string) (s : AppState) : list string :=
  if bool_decide (sourceId ∈ selectedFileIds s)
  then JS.uniq [] (selectedFileIds s ++ [sourceId])
  else [sourceId].

(** [shifted ids tgt pos f]: the [prev.map] of a move rewrites [f], that
    is, [f] is one of the dragged items and is not already a child of the
    target dropped without a position. *)
Definition shifted (ids : list string) (tgt : string) (pos : option Position)
    (f : FileSystemItem) : bool :=
  bool_decide (id f ∈ ids)
  && negb (bool_decide (parentId f = Some tgt) && negb (bool_decide (is_Some pos))).

(** [{ ...f, parentId: tgt, dateModified: now, order: o, position: pos }] *)
Definition placed (tgt : string) (pos : option Position) (now o : Z)
    (f : FileSystemItem) : FileSystemItem :=
  withPosition pos (withOrder o (withDateModified now (withParentId (Some tgt) f))).

(** [aims s i c]: the command [c] names the item [i] as the item it
    renames, drags, repositions, swaps or trashes, or as the folder it
    moves, uploads, pastes or creates into. *)
Inductive aims (s : AppState) (i : string) : Command -> Prop :=
| aims_rename n : aims s i (Rename i n)
| aims_move tgt p : aims s i (Move i tgt p)
| aims_move_into src p : i ≠ "root" -> i ≠ TRASH_ID -> aims s i (Move src i p)
| aims_reposition p : aims s i (Reposition i p)
| aims_swap_source j : aims s i (Swap i j)
| aims_swap_target j : aims s i (Swap j i)
| aims_trash l : i ∈ l -> aims s i (MoveToTrash l)
| aims_upload fl : i ≠ "root" -> aims s i (Upload fl i)
| aims_paste : activeFolderId (windows s) = i -> i ≠ "root" -> aims s i Paste
| aims_new_folder : activeFolderId (windows s) = i -> i ≠ "root" -> aims s i NewFolder.

(** A desktop with a file, a file that only administrators see and a
    folder, in front of a standard user who has selected the two files. *)
Definition guardedSelection : AppState :=
  setSelectedFileIds ["v"; "h"]
    (sampleState [sampleItem "v" (Some "root") "a.txt" TEXT 1;
                  withVisibleTo [] (sampleItem "h" (Some "root") "secret.txt" TEXT 2);
                  sampleItem "d" (Some "root") "Docs" FOLDER 3]).

(** A file in Documents and two trashed ones, the second visible to
    administrators only. *)
Definition fullTrash : AppState :=
  sampleState [sampleItem "k" (Some "docs") "keep.txt" TEXT 1;
               trashedNote;
               withVisibleTo [] (withId "m" trashedNote)].

(** A desktop with two files. *)
Definition twoFiles : AppState :=
  sampleState [sampleItem "a" (Some "root") "a.txt" TEXT 1;
               sampleItem "b" (Some "root") "b.txt" TEXT 2].

(** ** Window management (App.tsx)

    The window handlers read [windows] and [topZIndex] from the render in
    which the handler was created and write with [setWindows(value)], which
    replaces the list, and [setTopZIndex(prev => prev + 1)], which updates
    the pending value.  Each handler therefore takes the state [seen] by
    the render and the pending state it updates; for a single call the two
    are the same. *)

Record Size := { width : Z; height : Z }.

(** [WindowState.data] is [any]; what is stored there is
    [{ currentFolderId }], an item, or an item with a [mode]. *)
Record WinData := {
  folderShown : option string;
  itemShown : option FileSystemItem;
  mode : option string
}.

(** [WindowState] of types.ts with all its fields: [id], [title], [type],
    [isOpen], [isMinimized], [isMaximized], [zIndex], [position], [size]
    and [data]. *)
Record Win := {
  winId : string;
  title : string;
  kind : WindowType;
  opened : bool;
  minimized : bool;
  isMaximized : bool;
  layer : Z;
  corner : Position;
  extent : Size;
  data : WinData
}.

Definition withLayer (z : Z) (w : Win) : Win :=
  {| winId := winId w; title := title w; kind := kind w; opened := opened w;
     minimized := minimized w; isMaximized := isMaximized w; layer := z;
     corner := corner w; extent := extent w; data := data w |}.

Definition withMinimized (b : bool) (w : Win) : Win :=
  {| winId := winId w; title := title w; kind := kind w; opened := opened w;
     minimized := b; isMaximized := isMaximized w; layer := layer w;
     corner := corner w; extent := extent w; data := data w |}.

Definition withMaximized (b : bool) (w : Win) : Win :=
  {| winId := winId w; title := title w; kind := kind w; opened := opened w;
     minimized := minimized w; isMaximized := b; layer := layer w;
     corner := corner w; extent := extent w; data := data w |}.

Definition withFrame (newSize : Size) (newPosition : Position) (w : Win) : Win :=
  {| winId := winId w; title := title w; kind := kind w; opened := opened w;
     minimized := minimized w; isMaximized := isMaximized w; layer := layer w;
     corner := newPosition; extent := newSize; data := data w |}.

(** [{ ...w, data: { ...w.data, currentFolderId: fid }, title: ... }] *)
Definition withFolder (fid : string) (w : Win) : Win :=
  {| winId := winId w;
     title := if decide (fid = TRASH_ID) then "Trash"
              else if decide (kind w = FINDER) then "Finder" else title w;
     kind := kind w; opened := opened w;
     minimized := minimized w; isMaximized := isMaximized w; layer := layer w;
     corner := corner w; extent := extent w;
     data := {| folderShown := Some fid; itemShown := itemShown (data w);
                mode := mode (data w) |} |}.

Record Desk := { wins : list Win; topZIndex : Z }.

(** The part of a window that paste and new folder look at. *)
Definition viewOf (w : Win) : WindowState :=
  {| winType := kind w; isOpen := opened w; isMinimized := minimized w;
     zIndex := layer w; currentFolderId := default "" (folderShown (data w)) |}.

(** The state of the component: the file system part and the windows. *)
Record Shell := { app : AppState; desk : Desk }.

Definition focusWindow (seen : Desk) (i : string) (d : Desk) : Desk :=
  {| wins := (λ w, if decide (winId w = i) then withLayer (topZIndex seen + 1) w else w)
               <$> wins seen;
     topZIndex := topZIndex d + 1 |}.

(** [text || fallback] *)
Definition orText (text : option string) (fallback : string) : string :=
  match text with
  | Some n => if decide (n = "") then fallback else n
  | None => fallback
  end.

Definition windowTitle (k : WindowType) (given : option WinData) : string :=
  match k with
  | FINDER => if decide (given ≫= folderShown = Some TRASH_ID) then "Trash" else "Finder"
  | SETTINGS => "System Settings"
  | INFO => orText (name <$> (given ≫= itemShown)) "File" +:+ " Info"
  | _ => orText (name <$> (given ≫= itemShown)) "Info"
  end.

(** [innerWidth] is [window.innerWidth]. *)
Definition windowSize (k : WindowType) (innerWidth : Z) : Size :=
  let isMobile := innerWidth <? 768 in
  match k with
  | AI_CHAT => {| width := 400; height := 500 |}
  | SETTINGS => {| width := if isMobile then innerWidth else 700; height := 500 |}
  | INFO => {| width := 300; height := 500 |}
  | _ => {| width := if isMobile then innerWidth else 800; height := 500 |}
  end.

(** [newId] is the identifier [uuidv4()] returns when it is called. *)
Definition openWindow (seen : Desk) (innerWidth : Z) (newId : string) (k : WindowType)
    (given : option WinData) (d : Desk) : Desk :=
  let existingSettings :=
    if decide (k = SETTINGS)
    then List.find (λ w, bool_decide (kind w = SETTINGS)) (wins seen) else None in
  match existingSettings with
  | Some existing => focusWindow seen (winId existing) d
  | None =>
      let isMobile := innerWidth <? 768 in
      let offset := if isMobile then 0 else 100 + Z.of_nat (length (wins seen)) * 30 in
      let newWindow :=
        {| winId := newId; title := windowTitle k given; kind := k;
           opened := true; minimized := false; isMaximized := false;
           layer := topZIndex seen + 1;
           corner := {| x := offset; y := offset |};
           extent := windowSize k innerWidth;
           data := default {| folderShown := Some "root"; itemShown := None; mode := None |}
                     given |} in
      {| wins := wins seen ++ [newWindow]; topZIndex := topZIndex d + 1 |}
  end.

Definition closeWindow (seen : Desk) (i : string) (d : Desk) : Desk :=
  {| wins := filter (λ w, winId w ≠ i) (wins seen); topZIndex := topZIndex d |}.

(** Every call passes [{ currentFolderId: fid }] as [data]. *)
Definition updateWindowData (seen : Desk) (i fid : string) (d : Desk) : Desk :=
  {| wins := (λ w, if decide (winId w = i) then withFolder fid w else w) <$> wins seen;
     topZIndex := topZIndex d |}.

Definition handleWindowResize (i : string) (newSize : Size) (newPosition : Position)
    (d : Desk) : Desk :=
  {| wins := (λ w, if decide (winId w = i) then withFrame newSize newPosition w else w)
               <$> wins d;
     topZIndex := topZIndex d |}.

(** The [onMinimize] and [onMaximize] callbacks of a window. *)
Definition onMinimize (seen : Desk) (i : string) (d : Desk) : Desk :=
  {| wins := (λ w, if decide (winId w = i) then withMinimized true w else w) <$> wins seen;
     topZIndex := topZIndex d |}.

Definition onMaximize (seen : Desk) (i : string) (d : Desk) : Desk :=
  {| wins := (λ w, if decide (winId w = i) then withMaximized (negb (isMaximized w)) w else w)
               <$> wins seen;
     topZIndex := topZIndex d |}.

Definition folderData (fid : string) : WinData :=
  {| folderShown := Some fid; itemShown := None; mode := None |}.

Definition itemData (item : FileSystemItem) : WinData :=
  {| folderShown := None; itemShown := Some item; mode := None |}.

Definition notify (m : string) (err : bool) (cur : Shell) : Shell :=
  {| app := showNotification m err (app cur); desk := desk cur |}.

Definition onDesk (f : Desk -> Desk) (cur : Shell) : Shell :=
  {| app := app cur; desk := f (desk cur) |}.

Definition handleOpenFile (seen : Shell) (innerWidth : Z) (newId : string)
    (item : FileSystemItem) (cur : Shell) : Shell :=
  if negb (hasPermission (currentUser (app seen)) item)
  then notify "Permission Denied: Access Restricted" true cur
  else if bool_decide (parentId item = Some TRASH_ID) && negb (bool_decide (type item = FOLDER))
  then notify "Restore file to open it." true cur
  else if decide (type item = FOLDER) then
    match List.find (λ w, bool_decide (layer w = topZIndex (desk seen))
                         && bool_decide (kind w = FINDER)) (wins (desk seen)) with
    | Some activeWindow =>
        onDesk (updateWindowData (desk seen) (winId activeWindow) (id item)) cur
    | None =>
        onDesk (openWindow (desk seen) innerWidth newId FINDER (Some (folderData (id item)))) cur
    end
  else onDesk (openWindow (desk seen) innerWidth newId PREVIEW (Some (itemData item))) cur.

(** [n] counts the identifiers drawn so far. *)
Definition handleGetInfo (seen : Shell) (innerWidth : Z) (uuid : nat -> string)
    (itemId : string) (cur : Shell) (n : nat) : Shell * nat :=
  match findById itemId (files (app seen)) with
  | Some item =>
      if negb (hasPermission (currentUser (app seen)) item)
      then (notify "Permission Denied: Access Restricted" true cur, n)
      else (onDesk (openWindow (desk seen) innerWidth (uuid n) INFO (Some (itemData item))) cur,
            S n)
  | None => (cur, n)
  end.

(** [ids.forEach(id => handleGetInfo(id))] *)
Fixpoint getInfoEach (seen : Shell) (innerWidth : Z) (uuid : nat -> string)
    (ids : list string) (cur : Shell) (n : nat) : Shell * nat :=
  match ids with
  | [] => (cur, n)
  | i :: rest =>
      let '(next, n') := handleGetInfo seen innerWidth uuid i cur n in
      getInfoEach seen innerWidth uuid rest next n'
  end.

Definition handleMenuGetInfo (seen : Shell) (innerWidth : Z) (uuid : nat -> string)
    (cur : Shell) : Shell :=
  match selectedFileIds (app seen) with
  | [] =>
      match activeFinder (viewOf <$> wins (desk seen)) with
      | Some w => (handleGetInfo seen innerWidth uuid (currentFolderId w) cur O).1
      | None => (handleGetInfo seen innerWidth uuid "root" cur O).1
      end
  | ids => (getInfoEach seen innerWidth uuid ids cur O).1
  end.

(** The [onNavigate] callback of a Finder window. *)
Definition onNavigate (seen : Shell) (i fid : string) (cur : Shell) : Shell :=
  if bool_decide (fid = "root") || bool_decide (fid = TRASH_ID) || JS.startsWith "tag:" fid
     || match findById fid (files (app seen)) with
        | Some folder => hasPermission (currentUser (app seen)) folder
        | None => false
        end
  then onDesk (updateWindowData (desk seen) i fid) cur
  else notify "Permission Denied: Access Restricted" true cur.

(** The [onGoBack] callback of the Finder window [win] showing [shown]. *)
Definition onGoBack (seen : Shell) (i shown : string) (cur : Shell) : Shell :=
  if JS.startsWith "tag:" shown || bool_decide (shown = TRASH_ID)
  then onDesk (updateWindowData (desk seen) i "root") cur
  else
    match findById shown (files (app seen)) ≫= parentId with
    | Some p => if decide (p = "") then cur
                else onDesk (updateWindowData (desk seen) i p) cur
    | None => cur
    end.

(** No window lies above [topZIndex]. *)
Definition tidy (d : Desk) : Prop := ∀ w, w ∈ wins d -> layer w <= topZIndex d.

(** The desk when the application starts. *)
Definition initialDesk : Desk := {| wins := []; topZIndex := 10 |}.

(** A Finder window on Documents and, above it, one on the project
    folder; the top layer is that of the second. *)
Definition twoFinders : Desk :=
  openWindow (openWindow initialDesk 1280 "w1" FINDER (Some (folderData "docs")) initialDesk)
    1280 "w2" FINDER (Some (folderData "proj"))
    (openWindow initialDesk 1280 "w1" FINDER (Some (folderData "docs")) initialDesk).

(** The INFO window that [openWindow('INFO', item)] builds. *)
Definition infoWindow (seen : Desk) (innerWidth : Z) (newId : string)
    (item : FileSystemItem) : Win :=
  let offset := if innerWidth <? 768 then 0
                else 100 + Z.of_nat (length (wins seen)) * 30 in
  {| winId := newId; title := orText (Some (name item)) "File" +:+ " Info"; kind := INFO;
     opened := true; minimized := false; isMaximized := false;
     layer := topZIndex seen + 1; corner := {| x := offset; y := offset |};
     extent := {| width := 300; height := 500 |}; data := itemData item |}.

(** Two files selected on an empty desk. *)
Definition twoSelected : Shell :=
  {| app := setSelectedFileIds ["a"; "b"] twoFiles; desk := initialDesk |}.

(** The sample tree in front of a Finder window on the project folder. *)
Definition projectFinder : Shell :=
  {| app := sampleState sampleTree;
     desk := openWindow initialDesk 1280 "w1" FINDER (Some (folderData "proj")) initialDesk |}.

(** The same, the window minimised: it still lies on the top layer. *)
Definition minimisedFinder : Shell :=
  {| app := sampleState sampleTree;
     desk := {| wins := withMinimized true <$> wins (desk projectFinder);
                topZIndex := topZIndex (desk projectFinder) |} |}.

(** ** FinderWindow.tsx and FileIcon.tsx *)

Inductive SortOption := SortName | SortDate | SortSize | SortKind | SortNone.

(** The string value of a member of the enum [FileType]. *)
Definition typeName (t : FileType) : string :=
  match t with
  | FOLDER => "FOLDER" | IMAGE => "IMAGE" | TEXT => "TEXT" | VIDEO => "VIDEO"
  | AUDIO => "AUDIO" | PDF => "PDF" | CODE => "CODE" | ARCHIVE => "ARCHIVE"
  | SHEET => "SHEET" | UNKNOWN => "UNKNOWN"
  end.

(** [hay.includes(needle)] *)
Fixpoint includes (needle hay : string) : bool :=
  String.prefix needle hay
  || match hay with
     | String _ rest => includes needle rest
     | EmptyString => false
     end.

Section Listing.

(** [a.localeCompare(b)] and [s.toLowerCase()] depend on the locale of the
    browser; the listing is modelled for any such pair of functions. *)
Variable localeCompare : string -> string -> Z.
Variable toLowerCase : string -> string.

(** The comparator of [filtered.sort] for each sort option. *)
Definition compareBy (sortOption : SortOption) (a b : FileSystemItem) : Z :=
  match sortOption with
  | SortName => localeCompare (name a) (name b)
  | SortDate => dateModified b - dateModified a
  | SortSize => default 0 (size b) - default 0 (size a)
  | SortKind => localeCompare (typeName (type a)) (typeName (type b))
  | SortNone => order a - order b
  end.

(** [items] is what the window is given, the visible files. *)
Definition currentFolderItems (items : list FileSystemItem) (currentFolderId : string)
    (searchQuery : string) (sortOption : SortOption) : list FileSystemItem :=
  let isTagView := JS.startsWith "tag:" currentFolderId in
  let currentTagId := JS.substringFrom 4 currentFolderId in
  let filtered :=
    if isTagView then filter (λ item, currentTagId ∈ tags item) items
    else filter (λ item, parentId item = Some currentFolderId) items in
  let searched :=
    if decide (searchQuery = "") then filtered
    else filter (λ item, includes (toLowerCase searchQuery) (toLowerCase (name item)) = true)
           filtered in
  sortBy (compareBy sortOption) searched.

End Listing.

(** [clientWidth] is [contentRef.current?.clientWidth]. *)
Definition getItemPosition (clientWidth : option Z) (index : nat) : Position :=
  let shownWidth := match clientWidth with
                    | Some w => if decide (w = 0) then 800 else w
                    | None => 800
                    end in
  let cols := Z.max 2 (shownWidth / 110) in
  let row := Z.of_nat index / cols in
  let col := Z.of_nat index mod cols in
  {| x := 20 + col * 110; y := 20 + row * 120 |}.

(** What a drop handler of the Finder reads from the event: the identifier
    of the dragged icon (empty for a drag from outside) and the files the
    drag carries. *)
Record FinderDrag := { source : string; osFiles : list UploadedFile }.

(** [handleDrop] of the content area of a Finder window on [folder]. *)
Definition finderHandleDrop (eager : bool) (fuel : nat) (folder : string) (e : FinderDrag)
    (uuid : nat -> string) (now : Z) (s : AppState) : option AppState :=
  let isTagView := JS.startsWith "tag:" folder in
  let isTrashView := bool_decide (folder = "trash") in
  if decide (source e = "") then
    match osFiles e with
    | [] => Some s
    | _ => if negb isTagView && negb isTrashView
           then Some (handleUpload (osFiles e) folder uuid now s)
           else Some s
    end
  else
    let staysHere :=
      negb isTagView
      && match findById (source e) (visibleFiles s) with
         | Some item => bool_decide (parentId item = Some folder)
         | None => false
         end in
    if staysHere then Some s
    else if negb isTagView && negb isTrashView
    then handleMoveFile eager fuel (source e) folder None now s
    else Some s.

(** [handleDrop] of the icon of [item] in the grid of a Finder window on
    [folder]; the event does not reach the content area. *)
Definition iconHandleDrop (eager : bool) (fuel : nat) (folder : string)
    (item : FileSystemItem) (e : FinderDrag) (now : Z) (s : AppState)
    : option AppState :=
  let isTrashView := bool_decide (folder = "trash") in
  if decide (source e = "") then Some s
  else if decide (source e = id item) then Some s
  else if decide (type item = FOLDER)
  then (if isTrashView then Some s
        else handleMoveFile eager fuel (source e) (id item) None now s)
  else Some (handleSwapFile (source e) (id item) now s).

(** [handleDrop] of the row of [item] in the list of a Finder window on
    [folder]; a drop the row does not take goes on to the content area. *)
Definition listItemHandleDrop (eager : bool) (fuel : nat) (folder : string)
    (item : FileSystemItem) (e : FinderDrag) (uuid : nat -> string) (now : Z)
    (s : AppState) : option AppState :=
  let isTrashView := bool_decide (folder = "trash") in
  if negb (bool_decide (source e = "")) && negb (bool_decide (source e = id item))
     && negb isTrashView
  then
    if decide (type item = FOLDER)
    then handleMoveFile eager fuel (source e) (id item) None now s
    else Some (handleSwapFile (source e) (id item) now s)
  else finderHandleDrop eager fuel folder e uuid now s.

(** [onChange] of the upload input in the toolbar of a Finder window on
    [folder].  The toolbar of the trash view has no such input and in a
    tag view the input is disabled; no change event fires there. *)
Definition uploadInputChange (folder : string) (fl : list UploadedFile)
    (uuid : nat -> string) (now : Z) (s : AppState) : AppState :=
  let isTagView := JS.startsWith "tag:" folder in
  let isTrashView := bool_decide (folder = "trash") in
  if isTrashView then s
  else if isTagView then s
  else handleUpload fl folder uuid now s.

(** [handleDrop] of an entry of the sidebar of a Finder window that stands
    for the folder [targetId] ('root', 'docs', 'imgs' or 'trash'; the
    entries without a folder take no drop).  The sidebar is the same in
    every view.  A drop that carries no identifier is left to the desktop,
    which ignores it. *)
Definition sidebarHandleDrop (eager : bool) (fuel : nat) (targetId : string)
    (e : FinderDrag) (now : Z) (s : AppState) : option AppState :=
  if decide (targetId = "") then Some s
  else if decide (source e = "") then Some s
  else handleMoveFile eager fuel (source e) targetId None now s.

(** [reordered F F']: [F'] is [F] with some [order] fields changed. *)
Definition reordered (F F' : list FileSystemItem) : Prop :=
  Forall2 (λ f f', f' = withOrder (order f') f) F F'.

(** [inFolder folder f]: [f] belongs to what a window on [folder] shows,
    the children of a folder or, in a tag view, the carriers of the tag. *)
Definition inFolder (folder : string) (f : FileSystemItem) : Prop :=
  if JS.startsWith "tag:" folder then JS.substringFrom 4 folder ∈ tags f
  else parentId f = Some folder.

#[global] Instance inFolder_dec (folder : string) (f : FileSystemItem) :
  Decision (inFolder folder f).
Proof. unfold inFolder. destruct (JS.startsWith "tag:" folder); apply _. Defined.

(** ** Window.tsx: resizing by an edge or a corner *)

(** What [handleMouseDown] stores in [resizeRef]. *)
Record ResizeStart := {
  startX : Z; startY : Z;
  startWidth : Z; startHeight : Z;
  startLeft : Z; startTop : Z;
  direction : string
}.

Definition MIN_WIDTH : Z := 250.
Definition MIN_HEIGHT : Z := 150.

(** The arguments [handleMouseMove] passes to [onResize] when the pointer
    is at [(pointerX, pointerY)]. *)
Definition handleMouseMove (r : ResizeStart) (pointerX pointerY : Z) : Size * Position :=
  let deltaX := pointerX - startX r in
  let deltaY := pointerY - startY r in
  let newWidth := startWidth r in
  let newHeight := startHeight r in
  let newX := startLeft r in
  let newY := startTop r in
  let newWidth :=
    if includes "e" (direction r) then Z.max MIN_WIDTH (startWidth r + deltaX) else newWidth in
  let newHeight :=
    if includes "s" (direction r) then Z.max MIN_HEIGHT (startHeight r + deltaY)
    else newHeight in
  let '(newWidth, newX) :=
    if includes "w" (direction r) then
      let proposedWidth := startWidth r - deltaX in
      if MIN_WIDTH <=? proposedWidth then (proposedWidth, startLeft r + deltaX)
      else (MIN_WIDTH, startLeft r + (startWidth r - MIN_WIDTH))
    else (newWidth, newX) in
  let '(newHeight, newY) :=
    if includes "n" (direction r) then
      let proposedHeight := startHeight r - deltaY in
      if MIN_HEIGHT <=? proposedHeight then (proposedHeight, startTop r + deltaY)
      else (MIN_HEIGHT, startTop r + (startHeight r - MIN_HEIGHT))
    else (newHeight, newY) in
  ({| width := newWidth; height := newHeight |}, {| x := newX; y := newY |}).

(** ** InfoWindow.tsx *)

(** The local state of an Info window: the name being edited and its own
    copies of the audience and of the tags of the item. *)
Record InfoState := {
  editedName : string;
  shownVisibleTo : list UserRole;
  shownTags : list string
}.

(** [useState(item.name)], [useState(item.visibleTo || [])],
    [useState(item.tags || [])] *)
Definition infoOpened (item : FileSystemItem) : InfoState :=
  {| editedName := name item; shownVisibleTo := visibleTo item; shownTags := tags item |}.

(** [toggleTag]; [item] is the item the window was opened with and
    [onUpdateTags] is [updateTags(item.id, _)]. *)
Definition toggleTag (item : FileSystemItem) (tagId : string)
    (st : InfoState) (s : AppState) : InfoState * AppState :=
  let newTags :=
    if bool_decide (tagId ∈ shownTags st)
    then filter (λ t, t ≠ tagId) (shownTags st)
    else shownTags st ++ [tagId] in
  ({| editedName := editedName st; shownVisibleTo := shownVisibleTo st;
      shownTags := newTags |},
   updateTags (id item) newTags s).

(** [toggleGroup]; [isAdmin] is [currentUserRole === UserRole.ADMIN]. *)
Definition toggleGroup (item : FileSystemItem) (r : UserRole)
    (st : InfoState) (s : AppState) : InfoState * AppState :=
  if notAdmin (currentUser s) then (st, s)
  else
    let newVisible :=
      if bool_decide (r ∈ shownVisibleTo st)
      then filter (λ r', r' ≠ r) (shownVisibleTo st)
      else shownVisibleTo st ++ [r] in
    ({| editedName := editedName st; shownVisibleTo := newVisible;
        shownTags := shownTags st |},
     updateVisibility (id item) newVisible s).


(** A run of clicks on tags and roles in one Info window. *)
Inductive InfoClick := ClickTag (tagId : string) | ClickRole (r : UserRole).

Fixpoint infoClicks (item : FileSystemItem) (clicks : list InfoClick)
    (st : InfoState) (s : AppState) : InfoState * AppState :=
  match clicks with
  | [] => (st, s)
  | ClickTag t :: rest =>
      let '(st', s') := toggleTag item t st s in infoClicks item rest st' s'
  | ClickRole r :: rest =>
      let '(st', s') := toggleGroup item r st s in infoClicks item rest st' s'
  end.

(** [synced item st s]: the items of the collection that carry the
    identifier of [item] have the tags and the audience the Info window
    shows. *)
Definition synced (item : FileSystemItem) (st : InfoState) (s : AppState) : Prop :=
  ∀ f, f ∈ files s -> id f = id item ->
       tags f = shownTags st ∧ visibleTo f = shownVisibleTo st.


(** A name with a no-break space (U+00A0) before it and an ideographic
    space (U+3000) after it. *)
Definition paddedName : string :=
  String.string_of_list_ascii (ascii_of_nat <$> [194; 160]%nat)
  +:+ "notes.txt "
  +:+ String.string_of_list_ascii (ascii_of_nat <$> [227; 128; 128]%nat).

(** A desktop whose clipboard names an item that is gone and one that is
    still there. *)
Definition staleClipboard : AppState :=
  setClipboard (Some ["gone"; "a"]) oneFile.

(** * Properties *)

(** ** Permission gate *)

(** C9. The elevated role sees every item whatever its [visibleTo]; any
    other logged-in user sees an item exactly when the user's role is a
    member of [visibleTo]. *)
Theorem isFileVisible_spec (u : User) (i : FileSystemItem) :
  (role u = ADMIN -> isFileVisible (Some u) i = true) ∧
  (role u ≠ ADMIN -> (isFileVisible (Some u) i = true ↔ role u ∈ visibleTo i)).
Proof.
  unfold isFileVisible. split; intros Hr.
  - by rewrite decide_True.
  - rewrite decide_False by done. apply bool_decide_eq_true.
Qed.

Lemma isFileVisible_spec_witness :
  isFileVisible (Some {| userId := "u_admin"; role := ADMIN |})
    (sampleItem "pdf1" (Some "docs") "Confidential.pdf" PDF 2) = true
  ∧ (isFileVisible (Some {| userId := "u_junior"; role := JUNIOR |})
       (sampleItem "note1" (Some "docs") "Meeting Notes.txt" TEXT 1) = true
     ↔ JUNIOR ∈ [USER; JUNIOR]).
Proof.
  split.
  - apply (proj1 (isFileVisible_spec {| userId := "u_admin"; role := ADMIN |} _)).
    reflexivity.
  - apply (proj2 (isFileVisible_spec {| userId := "u_junior"; role := JUNIOR |}
                    (sampleItem "note1" (Some "docs") "Meeting Notes.txt" TEXT 1))).
    simpl. discriminate.
Defined.

(** Nobody is logged in: nothing is visible. *)
Lemma isFileVisible_logged_out (i : FileSystemItem) : isFileVisible None i = false.
Proof. reflexivity. Qed.

Lemma hasPermission_isFileVisible (u : option User) (i : FileSystemItem) :
  hasPermission u i = isFileVisible u i.
Proof. reflexivity. Qed.

(** ** The history log *)

Lemma commitAction_stacks (a : HistoryAction) (s : AppState) :
  undoStack (commitAction a s) = undoStack s ++ [a] ∧ redoStack (commitAction a s) = [].
Proof. done. Qed.

Lemma commitAction_committed (a : HistoryAction) (s : AppState) :
  historyCommitted s (commitAction a s).
Proof. exists [a]. by repeat split. Qed.

Lemma commitUploads_stacks (t : Z) (l : list FileSystemItem) (s : AppState) :
  files (commitUploads t l s) = files s
  ∧ undoStack (commitUploads t l s)
    = undoStack s
      ++ ((λ f, {| payload := CREATE (id f) f; description := "Upload"; timestamp := t |})
            <$> l)
  ∧ (l ≠ [] -> redoStack (commitUploads t l s) = []).
Proof.
  unfold commitUploads. revert s. induction l as [|f l IH]; intros s; simpl.
  - by rewrite app_nil_r.
  - destruct (IH (commitAction
                    {| payload := CREATE (id f) f; description := "Upload"; timestamp := t |} s))
      as (Hf & Hu & Hr).
    rewrite Hf, Hu. simpl. rewrite <- app_assoc. repeat split; try done.
    intros _. destruct l as [|g l]; [done|]. by apply Hr.
Qed.

(** Every handler other than undo and redo either leaves the history
    alone or commits. *)
Lemma handleRenameConfirm_history i n t s :
  historyUntouched s (handleRenameConfirm i n t s)
  ∨ historyCommitted s (handleRenameConfirm i n t s).
Proof.
  unfold handleRenameConfirm. repeat case_match; try (by left).
  right. apply (commitAction_committed _ (setFiles _ s)).
Qed.

Lemma handleMoveToTrash_history l t s :
  historyUntouched s (handleMoveToTrash l t s)
  ∨ historyCommitted s (handleMoveToTrash l t s).
Proof.
  unfold handleMoveToTrash. case_match; [by left|].
  right. eexists [_]. by repeat split.
Qed.

Lemma handleMoveFile_history eg f a b p t s s' :
  handleMoveFile eg f a b p t s = Some s' ->
  historyUntouched s s' ∨ historyCommitted s s'.
Proof.
  unfold handleMoveFile. intros H.
  repeat (case_match; simplify_eq; try (by left));
    try apply handleMoveToTrash_history.
  all: right; eexists [_]; by repeat split.
Qed.

Lemma handleReposition_history i p t s :
  historyUntouched s (handleReposition i p t s)
  ∨ historyCommitted s (handleReposition i p t s).
Proof.
  unfold handleReposition. repeat case_match; try (by left).
  right. eexists [_]. by repeat split.
Qed.

Lemma handleSwapFile_history a b t s :
  historyUntouched s (handleSwapFile a b t s)
  ∨ historyCommitted s (handleSwapFile a b t s).
Proof.
  unfold handleSwapFile. repeat case_match; try (by left).
  right. eexists [_]. by repeat split.
Qed.

Lemma handlePermanentDelete_history l t s :
  historyCommitted s (handlePermanentDelete l t s).
Proof. eexists [_]. by repeat split. Qed.

Lemma handleNewFolderAction_history f u t s s' :
  handleNewFolderAction f u t s = Some s' ->
  historyUntouched s s' ∨ historyCommitted s s'.
Proof.
  unfold handleNewFolderAction. intros H.
  repeat (case_match; simplify_eq; try (by left)).
  all: right; eexists [_]; by repeat split.
Qed.

Lemma handleUpload_history fl tgt u t s :
  historyUntouched s (handleUpload fl tgt u t s)
  ∨ historyCommitted s (handleUpload fl tgt u t s).
Proof.
  unfold handleUpload. repeat (case_match; try (by left)).
  right. subst.
  match goal with |- historyCommitted _ (commitUploads ?t ?l ?s0) =>
    destruct (commitUploads_stacks t l s0) as (_ & Hu & Hr) end.
  eexists. split; [|split; [exact Hu|by apply Hr]].
  all: done.
Qed.

Lemma handlePaste_history f u t s s' :
  handlePaste f u t s = Some s' ->
  historyUntouched s s' ∨ historyCommitted s s'.
Proof.
  unfold handlePaste. intros H.
  repeat (case_match; simplify_eq; try (by left)).
  all: right; eexists [_]; by repeat split.
Qed.

Lemma run_history (e : Env) (c : Command) (s s' : AppState) :
  c ≠ Undo -> c ≠ Redo -> run e c s = Some s' ->
  historyUntouched s s' ∨ historyCommitted s s'.
Proof.
  intros Hu Hr H. destruct c; simpl in H; simplify_eq.
  - apply handleRenameConfirm_history.
  - by eapply handleMoveFile_history.
  - apply handleReposition_history.
  - apply handleSwapFile_history.
  - apply handleMoveToTrash_history.
  - right. eexists [_]. by repeat split.
  - right. apply handlePermanentDelete_history.
  - unfold handleEmptyTrash. case_match; [by left|].
    right. eexists [_]. by repeat split.
  - by eapply handleNewFolderAction_history.
  - apply handleUpload_history.
  - left. unfold handleCopy. by case_match.
  - by eapply handlePaste_history.
  - left. unfold handleVisibilityToggle. by case_match.
  - left. unfold updateVisibility. by case_match.
  - by left.
Qed.

Lemma performRedo_empty (t : Z) (s : AppState) : redoStack s = [] -> performRedo t s = s.
Proof. unfold performRedo. by intros ->. Qed.

Lemma performUndo_empty (t : Z) (s : AppState) : undoStack s = [] -> performUndo t s = s.
Proof. unfold performUndo. by intros ->. Qed.

(** C7. [commitAction] pushes the action and empties the redo stack; hence
    after an undo followed by any command that commits, redo changes
    nothing at all (collection, stacks, notification). *)
Theorem redo_after_commit_is_noop :
  (∀ a s, undoStack (commitAction a s) = undoStack s ++ [a]
          ∧ redoStack (commitAction a s) = [])
  ∧ (∀ (s : AppState) (t0 t : Z) (e : Env) (c : Command) (s2 : AppState),
       c ≠ Undo -> c ≠ Redo ->
       run e c (performUndo t0 s) = Some s2 ->
       undoStack s2 ≠ undoStack (performUndo t0 s) ->
       redoStack s2 = [] ∧ performRedo t s2 = s2).
Proof.
  split; [apply commitAction_stacks|].
  intros s t0 t e c s2 Hu Hr Hrun Hch.
  destruct (run_history e c _ _ Hu Hr Hrun) as [[Hsame _]|(acts & _ & _ & Hred)].
  - by destruct Hch.
  - split; [done|]. by apply performRedo_empty.
Qed.

Lemma redo_after_commit_is_noop_witness :
  let s2 := handleRenameConfirm "a" "c.txt" 7 (performUndo 6 oneFileRenamed) in
  redoStack s2 = [] ∧ performRedo 9 s2 = s2.
Proof.
  apply (proj2 redo_after_commit_is_noop oneFileRenamed 6 9 (sampleEnv 7)
           (Rename "a" "c.txt")).
  - discriminate.
  - discriminate.
  - reflexivity.
  - vm_compute. discriminate.
Defined.

(** The redo stack really held something before the new command. *)
Example redo_pending_after_undo :
  length (redoStack (performUndo 6 oneFileRenamed)) = 1%nat.
Proof. reflexivity. Qed.

Lemma elem_of_setOrderAt (i : option nat) (v : Z) (l : list FileSystemItem)
    (g : FileSystemItem) :
  g ∈ setOrderAt i v l -> ∃ f, f ∈ l ∧ (g = f ∨ g = withOrder v f).
Proof.
  destruct i as [k|]; simpl; [|by eauto].
  intros (j & Hj)%list_elem_of_lookup. destruct (decide (j = k)) as [->|Hjk].
  - rewrite list_lookup_alter_eq in Hj. destruct (l !! k) as [f|] eqn:Hf; simplify_eq/=.
    exists f. split; [by eapply list_elem_of_lookup_2|by right].
  - rewrite list_lookup_alter_ne in Hj by done.
    exists g. split; [by eapply list_elem_of_lookup_2|by left].
Qed.

(** No step of undo or redo rewrites a visibility set or the tags: what is
    in the collection afterwards is an item carried by the action or an
    item from before with the same [visibleTo] and [tags]. *)
Lemma undoFiles_keeps_access (t : Z) (a : ActionPayload) (F : list FileSystemItem)
    (g : FileSystemItem) :
  g ∈ undoFiles t a F -> (∃ f, f ∈ F ∧ sameAccess g f) ∨ g ∈ carried a.
Proof.
  destruct a; simpl.
  1-5: intros (f & -> & Hf)%list_elem_of_fmap; left; exists f; split; [done|];
       by repeat case_match.
  - intros (f & Hf & [->| ->])%elem_of_setOrderAt.
    + apply elem_of_setOrderAt in Hf as (f0 & Hf0 & [->| ->]); left; by exists f0.
    + apply elem_of_setOrderAt in Hf as (f0 & Hf0 & [->| ->]); left; by exists f0.
  - intros [Hg|Hg]%elem_of_app; [left; by exists g|by right].
  - intros [_ Hg]%list_elem_of_filter. left. by exists g.
  - intros [_ Hg]%list_elem_of_filter. left. by exists g.
Qed.

Lemma redoFiles_keeps_access (t : Z) (a : ActionPayload) (F : list FileSystemItem)
    (g : FileSystemItem) :
  g ∈ redoFiles t a F -> (∃ f, f ∈ F ∧ sameAccess g f) ∨ g ∈ carried a.
Proof.
  destruct a; simpl.
  1-5: intros (f & -> & Hf)%list_elem_of_fmap; left; exists f; split; [done|];
       by repeat case_match.
  - intros (f & Hf & [->| ->])%elem_of_setOrderAt.
    + apply elem_of_setOrderAt in Hf as (f0 & Hf0 & [->| ->]); left; by exists f0.
    + apply elem_of_setOrderAt in Hf as (f0 & Hf0 & [->| ->]); left; by exists f0.
  - intros [_ Hg]%list_elem_of_filter. left. by exists g.
  - intros [Hg|Hg]%elem_of_app; [left; by exists g|by right].
  - intros [Hg|Hg]%elem_of_app; [left; by exists g|by right].
Qed.

(** The claim C10 as written fails in its last part: a picture is
    uploaded, tagged and hidden from the juniors; neither change is pushed
    on the history, yet an undo followed by a redo of the upload brings the
    picture back with the tags and the visibility it had when uploaded. *)
Lemma access_change_lost_by_undo_redo :
  let s1 := handleUpload pictureUpload "root" sampleUuid 5 oneFileAdmin in
  let s2 := handleVisibilityToggle "uuid-0" JUNIOR (updateTags "uuid-0" ["red"] s1) in
  (λ f, (id f, tags f, visibleTo f)) <$> files s1
  = [("a", [], [USER; JUNIOR]); ("uuid-0", [], [USER; JUNIOR])]
  ∧ (λ f, (id f, tags f, visibleTo f)) <$> files s2
    = [("a", [], [USER; JUNIOR]); ("uuid-0", ["red"], [USER])]
  ∧ undoStack s2 = undoStack s1 ∧ redoStack s2 = redoStack s1
  ∧ (λ f, (id f, tags f, visibleTo f)) <$> files (performRedo 7 (performUndo 6 s2))
    = [("a", [], [USER; JUNIOR]); ("uuid-0", [], [USER; JUNIOR])].
Proof. by repeat split. Qed.

(** C10, amended.  Toggling visibility, replacing the visibility set and
    replacing the tags push no action: the undo and the redo stack are the
    ones before the call.  Replacing the tags gives the item named the new
    tags and leaves its other fields and the other items alone; replacing
    the visibility set does the same for [visibleTo]; a toggle adds the
    role to, or removes it from, the [visibleTo] of the item named, or of
    every selected item when the item named is selected.  No step of undo
    or redo rewrites these fields of an item of the collection; but an
    item that a step puts into the collection from the payload of its
    action comes with the [visibleTo] and [tags] recorded there. *)
Theorem visibility_and_tags_bypass_history (s : AppState) :
  (∀ i r, historyUntouched s (handleVisibilityToggle i r s))
  ∧ (∀ i rs, historyUntouched s (updateVisibility i rs s))
  ∧ (∀ i ts, historyUntouched s (updateTags i ts s))
  ∧ (∀ i ts k f, files s !! k = Some f ->
       ∃ f', files (updateTags i ts s) !! k = Some f'
         ∧ (id f = i -> tags f' = ts ∧ withTags (tags f) f' = f)
         ∧ (id f ≠ i -> f' = f))
  ∧ (∀ i rs k f, notAdmin (currentUser s) = false -> files s !! k = Some f ->
       ∃ f', files (updateVisibility i rs s) !! k = Some f'
         ∧ (id f = i -> visibleTo f' = rs ∧ withVisibleTo (visibleTo f) f' = f)
         ∧ (id f ≠ i -> f' = f))
  ∧ (∀ i r k f, notAdmin (currentUser s) = false -> files s !! k = Some f ->
       let touched := id f = i ∨ (i ∈ selectedFileIds s ∧ id f ∈ selectedFileIds s) in
       ∃ f', files (handleVisibilityToggle i r s) !! k = Some f'
         ∧ (touched ->
            (r ∈ visibleTo f -> visibleTo f' = filter (λ q, q ≠ r) (visibleTo f))
            ∧ (r ∉ visibleTo f -> visibleTo f' = visibleTo f ++ [r])
            ∧ withVisibleTo (visibleTo f) f' = f)
         ∧ (¬ touched -> f' = f))
  ∧ (∀ t a g, last (undoStack s) = Some a -> g ∈ files (performUndo t s) ->
       (∃ f, f ∈ files s ∧ sameAccess g f) ∨ g ∈ carried (payload a))
  ∧ (∀ t a g, last (redoStack s) = Some a -> g ∈ files (performRedo t s) ->
       (∃ f, f ∈ files s ∧ sameAccess g f) ∨ g ∈ carried (payload a))
  ∧ (∀ t a g, last (redoStack s) = Some a -> g ∈ carried (payload a) ->
       (∀ removed, payload a ≠ DELETE removed) -> g ∈ files (performRedo t s))
  ∧ (∀ t a g removed, last (undoStack s) = Some a -> payload a = DELETE removed ->
       g ∈ removed -> g ∈ files (performUndo t s)).
Proof.
  split; [|split; [|split; [|split; [|split; [|split; [|split; [|split; [|split]]]]]]]].
  - intros i r. unfold handleVisibilityToggle. by case_match.
  - intros i rs. unfold updateVisibility. by case_match.
  - done.
  - intros i ts k f Hk. simpl. rewrite list_lookup_fmap, Hk. simpl.
    eexists. split; [done|]. case_decide; split; try done.
    intros _. by destruct f.
  - intros i rs k f Ha Hk. unfold updateVisibility. rewrite Ha. simpl.
    rewrite list_lookup_fmap, Hk. simpl.
    eexists. split; [done|]. case_decide; split; try done.
    intros _. by destruct f.
  - intros i r k f Ha Hk touched. unfold handleVisibilityToggle. rewrite Ha. simpl.
    rewrite list_lookup_fmap, Hk. simpl. eexists. split; [done|].
    set (ids := if bool_decide (i ∈ selectedFileIds s) then selectedFileIds s else [i]).
    assert (Hin : id f ∈ ids ↔ touched).
    { unfold touched, ids. case_bool_decide as Hsel.
      - split; [by right|]. intros [->|[_ ?]]; done.
      - rewrite list_elem_of_singleton. split; [by left|]. intros [?|[? _]]; done. }
    destruct (bool_decide (id f ∈ ids)) eqn:Hd.
    + apply bool_decide_eq_true_1 in Hd.
      split; [|intros Hn; exfalso; by apply Hn, Hin].
      intros _. unfold toggleRole.
      destruct (bool_decide (r ∈ visibleTo f)) eqn:Hr.
      * apply bool_decide_eq_true_1 in Hr. split; [done|]. split; [done|by destruct f].
      * apply bool_decide_eq_false_1 in Hr. split; [done|]. split; [done|by destruct f].
    + split; [|done]. intros Ht. apply bool_decide_eq_false_1 in Hd.
      exfalso. by apply Hd, Hin.
  - intros t a g Ha. unfold performUndo. rewrite Ha. simpl.
    apply undoFiles_keeps_access.
  - intros t a g Ha. unfold performRedo. rewrite Ha. simpl.
    apply redoFiles_keeps_access.
  - intros t a g Ha Hg Hnd. unfold performRedo. rewrite Ha. simpl.
    destruct (payload a); simpl in *; try (by apply elem_of_nil in Hg).
    + by destruct (Hnd removed).
    + apply elem_of_app. by right.
    + apply elem_of_app. by right.
  - intros t a g removed Ha Hp Hg. unfold performUndo. rewrite Ha, Hp. simpl.
    apply elem_of_app. by right.
Qed.

Lemma visibility_and_tags_bypass_history_witness :
  (∃ f', files (handleVisibilityToggle "a" JUNIOR oneFileAdmin) !! 0%nat = Some f'
         ∧ visibleTo f' = [USER])
  ∧ undoStack (handleVisibilityToggle "a" JUNIOR oneFileAdmin) = undoStack oneFileAdmin
  ∧ length (undoStack oneFileAdmin) = 1%nat.
Proof.
  split; [|split].
  - destruct (proj1 (proj2 (proj2 (proj2 (proj2 (proj2
                (visibility_and_tags_bypass_history oneFileAdmin))))))
                "a" JUNIOR 0%nat (sampleItem "a" (Some "root") "a.txt" TEXT 1)
                eq_refl eq_refl) as (f' & Hf & Ht & _).
    exists f'. split; [exact Hf|].
    destruct (Ht (or_introl eq_refl)) as (Hrm & _ & _).
    rewrite Hrm; [reflexivity|]. apply (bool_decide_unpack _). by vm_compute.
  - apply (proj1 (visibility_and_tags_bypass_history oneFileAdmin) "a" JUNIOR).
  - reflexivity.
Defined.

(** Undo after a visibility toggle pops the action that was on top before
    the toggle: the toggle itself is not on the stack. *)
Lemma undo_skips_visibility_toggle (i : string) (r : UserRole) (s : AppState) :
  last (undoStack (handleVisibilityToggle i r s)) = last (undoStack s).
Proof. unfold handleVisibilityToggle. by case_match. Qed.

(** ** Commands that affect no item *)

Lemma fmap_unmatched (g : FileSystemItem -> FileSystemItem) (ids : list string)
    (fs : list FileSystemItem) :
  (∀ f, f ∈ fs -> id f ∉ ids) ->
  (λ f, if bool_decide (id f ∈ ids) then g f else f) <$> fs = fs.
Proof.
  intros H. induction fs as [|f fs IH]; [done|]. simpl.
  rewrite bool_decide_eq_false_2 by (apply H; left).
  f_equal. apply IH. intros g' Hg. apply H. by right.
Qed.

Lemma filter_unmatched (ids : list string) (fs : list FileSystemItem) :
  (∀ f, f ∈ fs -> id f ∉ ids) ->
  filter (λ f, id f ∈ ids) fs = [] ∧ filter (λ f, id f ∉ ids) fs = fs.
Proof.
  intros H. induction fs as [|f fs IH]; [done|].
  destruct IH as [IH1 IH2]; [intros g Hg; apply H; by right|].
  rewrite !filter_cons.
  rewrite decide_False by (intros Hin; by apply (H f); [left|]).
  rewrite decide_True by (apply H; left).
  by rewrite IH1, IH2.
Qed.

(** Trash, restore and permanent delete commit whatever they are given:
    with identifiers that match no item the collection stays as it is and
    one action is pushed all the same. *)
Lemma unmatched_ids_commit (ids : list string) (t : Z) (s : AppState) :
  (∀ f, f ∈ files s -> id f ∉ ids) ->
  (files (handleMoveToTrash ids t s) = files s
   ∧ historyCommitted s (handleMoveToTrash ids t s))
  ∧ (files (handleRestoreFile ids t s) = files s
     ∧ historyCommitted s (handleRestoreFile ids t s))
  ∧ (files (handlePermanentDelete ids t s) = files s
     ∧ historyCommitted s (handlePermanentDelete ids t s)).
Proof.
  intros H. destruct (filter_unmatched ids (files s) H) as [Hin Hout].
  split; [|split].
  - unfold handleMoveToTrash. rewrite Hin. simpl.
    split; [by apply fmap_unmatched|]. eexists [_]. by repeat split.
  - simpl. split; [by apply fmap_unmatched|]. eexists [_]. by repeat split.
  - simpl. split; [done|]. eexists [_]. by repeat split.
Qed.

(** C3, the code at the failing inputs: a trash and a restore of an
    identifier that matches nothing and a permanent delete of the empty
    selection leave the collection as it is and push an action; so do a
    swap of an item with itself and a reposition to the place the item is
    at. *)
Theorem no_item_affected_yet_committed :
  (files (handleMoveToTrash ["ghost"] 5 oneFile) = files oneFile
   ∧ payload <$> undoStack (handleMoveToTrash ["ghost"] 5 oneFile) = [TRASH ["ghost"]])
  ∧ (files (handleRestoreFile ["ghost"] 5 oneFile) = files oneFile
     ∧ payload <$> undoStack (handleRestoreFile ["ghost"] 5 oneFile) = [RESTORE ["ghost"]])
  ∧ (files (handlePermanentDelete [] 5 oneFile) = files oneFile
     ∧ payload <$> undoStack (handlePermanentDelete [] 5 oneFile) = [DELETE []])
  ∧ (files (handleSwapFile "a" "a" 5 oneFile) = files oneFile
     ∧ payload <$> undoStack (handleSwapFile "a" "a" 5 oneFile) = [SWAP "a" "a" 1 1 1 1])
  ∧ (files (handleReposition "a" {| x := 40; y := 40 |} 5 (sampleState [placedFile]))
     = [placedFile]
     ∧ length (undoStack
                 (handleReposition "a" {| x := 40; y := 40 |} 5 (sampleState [placedFile])))
       = 1%nat)
  ∧ undoStack oneFile = [].
Proof. repeat split. Qed.

(** The guarded siblings: rename, move and paste do check. *)
Lemma rename_to_same_name_ignored (i n : string) (t : Z) (s : AppState) (f : FileSystemItem) :
  findById i (files s) = Some f -> JS.trim n = name f ->
  handleRenameConfirm i n t s = s ∨ handleRenameConfirm i n t s = showPermissionError s.
Proof.
  intros Hf Hn. unfold handleRenameConfirm. rewrite Hf, Hn.
  repeat case_match; auto.
  rewrite (bool_decide_eq_true_2 (name f = name f)) in * by done.
  by rewrite andb_false_r in *.
Qed.

Lemma moveItems_within_parent (ids : list string) (tgt : string) (t m : Z)
    (prev : list FileSystemItem) :
  (∀ f, f ∈ prev -> id f ∈ ids -> parentId f = Some tgt) ->
  moveItems ids tgt None t m prev = (prev, []).
Proof.
  intros H. induction prev as [|f prev IH]; [done|]. simpl.
  rewrite IH by (intros g Hg; apply H; by right).
  case_bool_decide as Hin; [|done].
  rewrite bool_decide_eq_true_2 by (apply H; [left|done]).
  done.
Qed.

Lemma setFiles_same (s : AppState) : setFiles (files s) s = s.
Proof. by destruct s. Qed.

Lemma move_within_parent_ignored (eg : bool) (fuel : nat) (src tgt : string) (t : Z)
    (s s' : AppState) :
  selectedFileIds s = [] -> tgt ≠ TRASH_ID ->
  (∀ f, f ∈ files s -> id f = src -> parentId f = Some tgt) ->
  handleMoveFile eg fuel src tgt None t s = Some s' ->
  s' = s ∨ s' = showPermissionError s.
Proof.
  intros Hsel Htr Hp. unfold handleMoveFile. rewrite Hsel. simpl.
  rewrite moveItems_within_parent.
  - repeat (case_match; simplify_eq); intros; simplify_eq; auto using setFiles_same.
  - intros f Hf Hin. apply Hp; [done|]. by apply list_elem_of_singleton in Hin.
Qed.

(** ** The cycle guard of move *)

Lemma reachesSource_of_reaches (fs : list FileSystemItem) (a : string)
    (cur : option FileSystemItem) :
  reaches fs a cur ->
  ∃ n, ∀ fuel, (n ≤ fuel)%nat -> reachesSource fuel fs a cur = Some true.
Proof.
  induction 1 as [c Hc|c p Hne Hp Hp0 _ [n IH]].
  - exists 1%nat. intros [|k] Hk; [lia|]. simpl. by rewrite decide_True.
  - exists (S n). intros [|k] Hk; [lia|]. simpl.
    rewrite decide_False by done. rewrite Hp, decide_False by done.
    apply IH. lia.
Qed.

(** The walk is monotone in the fuel. *)
Lemma reachesSource_more_fuel (fs : list FileSystemItem) (a : string) (k k' : nat)
    (cur : option FileSystemItem) (b : bool) :
  reachesSource k fs a cur = Some b -> (k ≤ k')%nat -> reachesSource k' fs a cur = Some b.
Proof.
  revert k' cur. induction k as [|k IH]; intros [|k'] cur H Hle; try done; [lia|].
  simpl in *. repeat case_match; simplify_eq; try done. apply IH; [done|lia].
Qed.

(** A folder dragged onto itself or into its own subtree stays where it
    is: the handler returns before it writes anything. *)
Lemma dragged_into_own_subtree_rejected (s : AppState) (A D : string)
    (p : option Position) (t : Z) :
  (A = D -> ∀ eg fuel, handleMoveFile eg fuel A D p t s = Some s)
  ∧ (reaches (files s) A (findById D (files s)) -> D ≠ TRASH_ID ->
     ∃ n, ∀ eg fuel, (n ≤ fuel)%nat ->
       handleMoveFile eg fuel A D p t s = Some s
       ∨ handleMoveFile eg fuel A D p t s = Some (showPermissionError s)).
Proof.
  split.
  - intros -> eg fuel. unfold handleMoveFile. by rewrite decide_True.
  - intros Hr Htr. destruct (reachesSource_of_reaches _ _ _ Hr) as [n Hn].
    exists n. intros eg fuel Hf. unfold handleMoveFile.
    rewrite (decide_False (P := D = TRASH_ID)) by done.
    rewrite (Hn fuel Hf). repeat case_match; auto.
Qed.

(** C2, the code at the failing input.  A and B are selected and B is
    dragged into D, a folder inside A: the guard walks from D looking for
    B only, so A is moved into its own subtree and the two folders end up
    as each other's parent.  Dropping B on A itself makes A its own
    parent.  Both happen whether or not React runs the function given to
    [setFiles] at once. *)
Theorem co_selected_folder_enters_own_subtree :
  reaches (files nestedSelection) "A" (findById "D" (files nestedSelection))
  ∧ (∀ eg, ∃ s', handleMoveFile eg 8 "B" "D" None 5 nestedSelection = Some s'
           ∧ (λ f, (id f, parentId f)) <$> files s'
             = [("A", Some "D"); ("D", Some "A"); ("B", Some "D")])
  ∧ (∀ eg, ∃ s', handleMoveFile eg 8 "B" "A" None 5 nestedSelection = Some s'
           ∧ (λ f, (id f, parentId f)) <$> files s'
             = [("A", Some "A"); ("D", Some "A"); ("B", Some "A")]).
Proof.
  split; [|split].
  - eapply reaches_up; [done|reflexivity|done|]. by apply reaches_here.
  - intros []; eexists; split; reflexivity.
  - intros []; eexists; split; reflexivity.
Qed.

(** ** Invalid destinations *)

(** The claim C8 as written fails: a folder dragged into its own subfolder
    is turned away without any notification, whether or not the updates
    run at once, and so are files dropped on a Finder window that shows a
    tag view. *)
Lemma silent_refusal_of_move_and_tag_drop :
  (reaches (files nestedSelection) "A" (findById "D" (files nestedSelection))
   ∧ handleMoveFile true 8 "A" "D" None 5 nestedSelection = Some nestedSelection
   ∧ handleMoveFile false 8 "A" "D" None 5 nestedSelection = Some nestedSelection
   ∧ notification nestedSelection = None)
  ∧ (JS.startsWith "tag:" "tag:red" = true
     ∧ finderHandleDrop true 8 "tag:red" {| source := ""; osFiles := pictureUpload |}
         sampleUuid 5 oneFile = Some oneFile
     ∧ notification oneFile = None).
Proof.
  split; [split; [|by repeat split]|by repeat split].
  eapply reaches_up; [done|reflexivity|done|]. by apply reaches_here.
Qed.

(** C8, amended.  Paste and new folder aimed at the trash or at a tag view,
    and an upload that reaches [handleUpload] aimed at the trash, only
    raise an error notification.  A Finder window that shows the trash or
    a tag view hands no upload on: files dropped on it, and its upload
    input, leave the state as it was, without a notification.  A move of
    the dragged item onto itself or into its own subtree returns the state
    as it was, without a notification. *)
Theorem invalid_destination_recovered (s : AppState) :
  (∀ m, files (showNotification m true s) = files s
        ∧ historyUntouched s (showNotification m true s)
        ∧ notification (showNotification m true s)
          = Some {| msg := m; visible := true; isError := true |})
  ∧ (∀ fuel uuid t,
       activeFolderId (windows s) = TRASH_ID
       ∨ JS.startsWith "tag:" (activeFolderId (windows s)) = true ->
       (∀ ids, clipboard s = Some ids -> ids ≠ [] ->
          ∃ m, handlePaste fuel uuid t s = Some (showNotification m true s))
       ∧ ∃ m, handleNewFolderAction fuel uuid t s = Some (showNotification m true s))
  ∧ (∀ fl uuid t, ∃ m, handleUpload fl TRASH_ID uuid t s = showNotification m true s)
  ∧ (∀ folder fl eg fuel uuid t,
       folder = TRASH_ID ∨ JS.startsWith "tag:" folder = true ->
       finderHandleDrop eg fuel folder {| source := ""; osFiles := fl |} uuid t s = Some s
       ∧ uploadInputChange folder fl uuid t s = s)
  ∧ (∀ A p t eg fuel, handleMoveFile eg fuel A A p t s = Some s)
  ∧ (∀ A D p t,
       reaches (files s) A (findById D (files s)) -> D ≠ TRASH_ID ->
       itemDenied s A = false -> targetDenied s D = false ->
       ∃ n, ∀ eg fuel, (n ≤ fuel)%nat -> handleMoveFile eg fuel A D p t s = Some s).
Proof.
  split; [done|]. split; [|split; [|split; [|split]]].
  - intros fuel uuid t Htgt. split.
    + intros ids Hc Hne. unfold handlePaste. rewrite Hc.
      destruct ids as [|i ids]; [done|].
      destruct Htgt as [->| Htag].
      * rewrite decide_True by done. eauto.
      * rewrite Htag. case_match; eauto.
    + unfold handleNewFolderAction. destruct Htgt as [->| Htag].
      * rewrite decide_True by done. eauto.
      * rewrite Htag. case_match; eauto.
  - intros fl uuid t. unfold handleUpload. rewrite decide_True by done. eauto.
  - intros folder fl eg fuel uuid t Hview.
    unfold finderHandleDrop, uploadInputChange. cbn [source osFiles].
    rewrite decide_True by done.
    destruct Hview as [->|Htag].
    + rewrite (bool_decide_eq_true_2 (TRASH_ID = "trash")) by done.
      rewrite andb_false_r. by destruct fl.
    + rewrite Htag. cbn [negb andb]. by destruct fl, (bool_decide _).
  - intros A p t eg fuel. unfold handleMoveFile. by rewrite decide_True.
  - intros A D p t Hr Htr HdA HdD.
    destruct (reachesSource_of_reaches _ _ _ Hr) as [n Hn].
    exists n. intros eg fuel Hf. unfold handleMoveFile.
    rewrite HdA, HdD, (Hn fuel Hf). by repeat case_match.
Qed.

Lemma invalid_destination_recovered_witness :
  (∃ m, handlePaste 8 sampleUuid 5 (finderOn "trash")
        = Some (showNotification m true (finderOn "trash")))
  ∧ (∃ m, handleNewFolderAction 8 sampleUuid 5 (finderOn "tag:red")
          = Some (showNotification m true (finderOn "tag:red")))
  ∧ (finderHandleDrop true 8 "tag:red" {| source := ""; osFiles := pictureUpload |}
       sampleUuid 5 oneFile = Some oneFile
     ∧ uploadInputChange "tag:red" pictureUpload sampleUuid 5 oneFile = oneFile)
  ∧ (∃ n, ∀ eg fuel, (n ≤ fuel)%nat ->
       handleMoveFile eg fuel "A" "D" None 5 nestedSelection = Some nestedSelection).
Proof.
  split; [|split; [|split]].
  - apply (proj1 (proj1 (proj2 (invalid_destination_recovered (finderOn "trash")))
                    8%nat sampleUuid 5 (or_introl eq_refl)) ["a"]);
      [reflexivity|discriminate].
  - apply (proj2 (proj1 (proj2 (invalid_destination_recovered (finderOn "tag:red")))
                    8%nat sampleUuid 5 (or_intror eq_refl))).
  - apply (proj1 (proj2 (proj2 (proj2 (invalid_destination_recovered oneFile))))
             "tag:red" pictureUpload true 8%nat sampleUuid 5 (or_intror eq_refl)).
  - apply (proj2 (proj2 (proj2 (proj2 (proj2 (invalid_destination_recovered nestedSelection)))))
             "A" "D" None 5).
    + eapply reaches_up; [done|reflexivity|done|]. by apply reaches_here.
    + discriminate.
    + reflexivity.
    + reflexivity.
Defined.

(** ** Trash and restore *)

Lemma trash_accepted (ids : list string) (t : Z) (s : AppState) :
  (∀ f, f ∈ files s -> id f ∈ ids -> hasPermission (currentUser s) f = true) ->
  files (handleMoveToTrash ids t s)
  = (λ f, if bool_decide (id f ∈ ids) then trashItem t f else f) <$> files s
  ∧ payload <$> last (undoStack (handleMoveToTrash ids t s)) = Some (TRASH ids).
Proof.
  intros Hperm. unfold handleMoveToTrash.
  destruct (existsb _ _) eqn:He.
  - apply existsb_exists in He as (f & Hin & Hneg).
    apply list_elem_of_In, list_elem_of_filter in Hin as [Hid Hf].
    by rewrite (Hperm f Hf Hid) in Hneg.
  - simpl. by rewrite last_snoc.
Qed.

(** Undo of a move to the trash puts the item back under its parent and
    drops the [trashData]; the position that the trash cleared stays
    cleared. *)
Lemma undo_of_trash (s : AppState) (ids : list string) (t1 t2 : Z) (k : nat)
    (X : FileSystemItem) (p : string) :
  files s !! k = Some X -> id X ∈ ids ->
  (∀ f, f ∈ files s -> id f ∈ ids -> hasPermission (currentUser s) f = true) ->
  parentId X = Some p -> p ≠ "" ->
  files (performUndo t2 (handleMoveToTrash ids t1 s)) !! k
  = Some (withTrashData None (withPosition None X)).
Proof.
  intros Hk Hid Hperm Hp Hp0.
  destruct (trash_accepted ids t1 s Hperm) as [Hfiles Hlast].
  unfold performUndo.
  destruct (last (undoStack (handleMoveToTrash ids t1 s))) as [a|]; [|done].
  simpl in Hlast. injection Hlast as Hpay. simpl. rewrite Hfiles, Hpay. simpl.
  rewrite !list_lookup_fmap, Hk. simpl.
  rewrite (bool_decide_eq_true_2 (id X ∈ ids)) by done. simpl.
  rewrite (bool_decide_eq_true_2 (id X ∈ ids)) by done. rewrite Hp. simpl.
  rewrite decide_False by done. destruct X. simpl in *. by rewrite Hp.
Qed.

(** The claim C4 as written fails on an item whose parent is null, such as
    the root entry of the initial collection: it comes back from the trash
    with the string 'root' as parent, that is, as its own child. *)
Lemma restore_of_parentless_item :
  parentId systemRoot = None
  ∧ files (handleRestoreFile ["root"] 6
             (handleMoveToTrash ["root"] 5 (sampleState [systemRoot])))
    = [withParentId (Some "root") systemRoot].
Proof. by split. Qed.

(** C4, amended.  Let X be an item whose parent is a non-empty identifier
    and let the trash command be accepted (every targeted item is visible
    to the user).  After move-to-trash X sits in the trash with the same
    [id] and with its former parent recorded; after restore it has the same
    [id] and its former [parentId] again and no [trashData].  All its other
    fields are those of X, except [position], which the trash cleared. *)
Theorem trash_restore_round_trip (s : AppState) (ids1 ids2 : list string) (t1 t2 : Z)
    (k : nat) (X : FileSystemItem) (p : string) :
  files s !! k = Some X ->
  id X ∈ ids1 -> id X ∈ ids2 ->
  (∀ f, f ∈ files s -> id f ∈ ids1 -> hasPermission (currentUser s) f = true) ->
  parentId X = Some p -> p ≠ "" ->
  let s1 := handleMoveToTrash ids1 t1 s in
  let s2 := handleRestoreFile ids2 t2 s1 in
  (∃ T, files s1 !! k = Some T ∧ id T = id X ∧ parentId T = Some TRASH_ID
        ∧ trashData T = Some {| originalParentId := Some p; dateTrashed := t1 |})
  ∧ (∃ R, files s2 !! k = Some R ∧ id R = id X ∧ parentId R = Some p
          ∧ trashData R = None
          ∧ R = withTrashData None (withPosition None X)).
Proof.
  intros Hk H1 H2 Hperm Hp Hp0 s1 s2.
  assert (Hs1 : files s1 !! k = Some (trashItem t1 X)).
  { unfold s1. rewrite (proj1 (trash_accepted ids1 t1 s Hperm)).
    rewrite list_lookup_fmap, Hk. simpl. by rewrite bool_decide_eq_true_2. }
  split.
  - exists (trashItem t1 X). repeat split; [done|]. simpl. by rewrite Hp.
  - exists (restoreItem (trashItem t1 X)). split.
    + unfold s2. simpl. rewrite list_lookup_fmap, Hs1. simpl.
      by rewrite bool_decide_eq_true_2.
    + unfold restoreItem. simpl. rewrite Hp. simpl.
      rewrite decide_False by done. repeat split.
      destruct X. simpl in *. by rewrite Hp.
Qed.

Lemma trash_restore_round_trip_witness :
  ∃ R, files (handleRestoreFile ["a"] 6 (handleMoveToTrash ["a"] 5 oneFile)) !! 0%nat = Some R
       ∧ id R = "a" ∧ parentId R = Some "root" ∧ trashData R = None
       ∧ R = withTrashData None
               (withPosition None (sampleItem "a" (Some "root") "a.txt" TEXT 1)).
Proof.
  apply (proj2 (trash_restore_round_trip oneFile ["a"] ["a"] 5 6 0
                  (sampleItem "a" (Some "root") "a.txt" TEXT 1) "root"
                  eq_refl ltac:(by left) ltac:(by left)
                  ltac:(by intros f ->%list_elem_of_singleton _)
                  eq_refl ltac:(discriminate))).
Defined.

(** ** Strings *)

Section Strings.

Lemma app_cons_string (a : ascii) (s t : string) :
  String a s +:+ t = String a (s +:+ t).
Proof. reflexivity. Qed.

Lemma app_empty_r (s : string) : s +:+ "" = s.
Proof. induction s; rewrite ?app_cons_string; by f_equal. Qed.





Lemma app_self_r (e a : string) : e = e +:+ a -> a = "".
Proof.
  intros H. rewrite <- (app_empty_r e) in H at 1. by apply String.app_inj in H.
Qed.

Lemma ofNat_inj (n m : nat) : JS.ofNat n = JS.ofNat m -> n = m.
Proof.
  unfold JS.ofNat. intros H. apply Unsigned.to_uint_inj.
  apply (f_equal NilEmpty.uint_of_string) in H.
  rewrite !NilEmpty.usu in H. by simplify_eq.
Qed.











(** So are those of the new-folder loop. *)
Lemma folderCandidate_inj (i j : nat) : folderCandidate i = folderCandidate j -> i = j.
Proof.
  unfold folderCandidate, candidate, numberedName.
  destruct i as [|i], j as [|j]; [done|..].
  - by intros H%app_self_r.
  - by intros H%eq_sym%app_self_r.
  - intros H%String.app_inj%String.app_inj%ofNat_inj. lia.
Qed.

End Strings.

(** ** The collision loop *)

Section Probe.

Variable taken : string -> bool.
Variable next : nat -> string.

Lemma candidate_shift (c : string) (ctr j : nat) :
  candidate next (next ctr) (S ctr) j = candidate next c ctr (S j).
Proof.
  destruct j as [|j]; simpl.
  - by rewrite Nat.add_0_r.
  - f_equal. lia.
Qed.

(** What the loop returns is the first free candidate. *)
Lemma probeName_sound (fuel : nat) (c : string) (ctr : nat) (r : string) :
  probeName fuel taken next c ctr = Some r ->
  ∃ j, (j < fuel)%nat ∧ r = candidate next c ctr j
       ∧ firstFree taken (candidate next c ctr) j.
Proof.
  revert c ctr. induction fuel as [|fuel IH]; intros c ctr; simpl; [done|].
  destruct (taken c) eqn:Hc.
  - intros (j & Hj & -> & Hfree & Hbefore)%IH.
    exists (S j). split; [lia|]. split; [apply candidate_shift|].
    split; [by rewrite <- (candidate_shift c)|].
    intros [|i] Hi; [done|]. rewrite <- (candidate_shift c). apply Hbefore. lia.
  - intros [= <-]. exists O. split; [lia|]. repeat split; [done|]. intros i Hi. lia.
Qed.

(** With fuel beyond the first free candidate the loop returns it. *)
Lemma probeName_complete (fuel : nat) (c : string) (ctr j : nat) :
  firstFree taken (candidate next c ctr) j -> (j < fuel)%nat ->
  probeName fuel taken next c ctr = Some (candidate next c ctr j).
Proof.
  revert c ctr j. induction fuel as [|fuel IH]; intros c ctr j [Hfree Hbefore] Hj; [lia|].
  simpl. destruct j as [|j].
  - simpl in Hfree. by rewrite Hfree.
  - assert (H0 : taken c = true) by (apply (Hbefore O); lia).
    rewrite H0, <- (candidate_shift c). apply IH; [|lia].
    split; [by rewrite (candidate_shift c)|].
    intros i Hi. rewrite (candidate_shift c). apply Hbefore. lia.
Qed.

Lemma firstFree_or_all_taken (c : nat -> string) (n : nat) :
  (∀ j, (j ≤ n)%nat -> taken (c j) = true) ∨ (∃ j, (j ≤ n)%nat ∧ firstFree taken c j).
Proof.
  induction n as [|n [Hall|(j & Hj & Hfree)]].
  - destruct (taken (c O)) eqn:E.
    + left. intros j Hj. by replace j with O by lia.
    + right. exists O. split; [done|]. split; [done|]. intros i Hi. lia.
  - destruct (taken (c (S n))) eqn:E.
    + left. intros j Hj. destruct (decide (j = S n)) as [->|]; [done|]. apply Hall. lia.
    + right. exists (S n). split; [done|]. split; [done|]. intros i Hi. apply Hall. lia.
  - right. exists j. split; [lia|done].
Qed.

(** Pairwise distinct candidates cannot all be among finitely many names. *)
Lemma firstFree_exists (c : nat -> string) (names : list string) :
  (∀ i j, c i = c j -> i = j) ->
  (∀ n, taken n = true -> n ∈ names) ->
  ∃ j, (j ≤ length names)%nat ∧ firstFree taken c j.
Proof.
  intros Hinj Hnames.
  destruct (firstFree_or_all_taken c (length names)) as [Hall|?]; [|done].
  exfalso.
  assert (Hsub : c <$> seq 0 (S (length names)) ⊆+ names).
  { apply NoDup_submseteq.
    - apply NoDup_fmap_2_strong; [|apply NoDup_seq]. intros i j _ _. apply Hinj.
    - intros n (j & -> & Hj%elem_of_seq)%list_elem_of_fmap. apply Hnames, Hall. lia. }
  apply submseteq_length in Hsub. rewrite length_fmap, length_seq in Hsub. lia.
Qed.

End Probe.

Lemma nameTaken_elem (siblings : list FileSystemItem) (n : string) :
  nameTaken siblings n = true ↔ n ∈ name <$> siblings.
Proof.
  unfold nameTaken. rewrite existsb_exists, list_elem_of_fmap. split.
  - intros (f & Hf%list_elem_of_In & <-%bool_decide_eq_true). eauto.
  - intros (f & -> & Hf). exists f. split; [by apply list_elem_of_In|].
    by apply bool_decide_eq_true.
Qed.


Lemma probe_folder_name (siblings : list FileSystemItem) (fuel : nat) :
  (length siblings < fuel)%nat ->
  ∃ j, probeName fuel (nameTaken siblings) (numberedName "Untitled Folder")
         "Untitled Folder" 2
       = Some (folderCandidate j)
       ∧ firstFree (nameTaken siblings) folderCandidate j.
Proof.
  intros Hfuel.
  destruct (firstFree_exists (nameTaken siblings) folderCandidate (name <$> siblings))
    as (j & Hj & Hfree).
  - apply folderCandidate_inj.
  - intros n. apply nameTaken_elem.
  - rewrite length_fmap in Hj. exists j. split; [|done].
    apply probeName_complete; [done|lia].
Qed.

(** What the two loops probe: the names of the items of the collection
    whose parent is the target folder. *)
Lemma firstFree_among_children (tgt : string) (fs : list FileSystemItem)
    (c : nat -> string) (j : nat) :
  firstFree (nameTaken (childrenOf tgt fs)) c j ->
  (∀ f, f ∈ fs -> parentId f = Some tgt -> name f ≠ c j)
  ∧ (∀ i, (i < j)%nat -> ∃ f, f ∈ fs ∧ parentId f = Some tgt ∧ name f = c i).
Proof.
  intros [Hfree Hbefore]. split.
  - intros f Hf Hp Hn.
    assert (Htaken : nameTaken (childrenOf tgt fs) (c j) = true).
    { apply nameTaken_elem, list_elem_of_fmap. exists f. split; [done|].
      by apply list_elem_of_filter. }
    by rewrite Htaken in Hfree.
  - intros i Hi. specialize (Hbefore i Hi).
    apply nameTaken_elem, list_elem_of_fmap in Hbefore as (f & Hn & Hf).
    apply list_elem_of_filter in Hf as [Hp Hf]. by exists f.
Qed.

(** ** New folder *)

(** The claim C6 as written fails: beside a folder named Untitled Folder
    the new folder is called Untitled Folder 2, where the scheme of paste
    would give Untitled Folder copy. *)
Lemma new_folder_is_numbered_not_copy :
  (λ s, name <$> files s) <$> handleNewFolderAction 8 sampleUuid 5 untitledDesk
  = Some ["Untitled Folder"; "Untitled Folder 2"]
  ∧ copyCandidate "Untitled Folder" 1 = "Untitled Folder copy".
Proof. by split. Qed.

(** C6, amended.  New folder probes Untitled Folder, Untitled Folder 2,
    Untitled Folder 3, ... against the items of the collection whose parent
    is the target folder, and against no other item; the loop ends within
    one round more than there are such items, and the folder appended to
    the collection bears the first name of that sequence that none of
    them has. *)
Theorem new_folder_name_first_free (fuel : nat) (uuid : nat -> string) (t : Z)
    (s : AppState) (u : User) :
  let tgt := activeFolderId (windows s) in
  tgt ≠ TRASH_ID -> JS.startsWith "tag:" tgt = false -> targetDenied s tgt = false ->
  currentUser s = Some u ->
  (length (filter (λ f, parentId f = Some tgt) (files s)) < fuel)%nat ->
  (folderCandidate 0 = "Untitled Folder"
   ∧ ∀ i, folderCandidate (S i) = "Untitled Folder " +:+ JS.ofNat (i + 2))
  ∧ ∃ j s' folder,
      handleNewFolderAction fuel uuid t s = Some s'
      ∧ files s' = files s ++ [folder]
      ∧ name folder = folderCandidate j
      ∧ (∀ f, f ∈ files s -> parentId f = Some tgt -> name f ≠ folderCandidate j)
      ∧ (∀ i, (i < j)%nat ->
           ∃ f, f ∈ files s ∧ parentId f = Some tgt ∧ name f = folderCandidate i)
      ∧ id folder = uuid O ∧ parentId folder = Some tgt ∧ type folder = FOLDER.
Proof.
  intros tgt Htr Htag Hden Hu Hfuel. split.
  - split; [done|]. intros i. unfold folderCandidate, candidate, numberedName.
    by rewrite (Nat.add_comm 2 i).
  - destruct (probe_folder_name (childrenOf tgt (files s)) fuel Hfuel)
      as (j & Hprobe & Hfree).
    destruct (firstFree_among_children _ _ _ _ Hfree) as [Hnew Hold].
    exists j. unfold handleNewFolderAction. fold tgt.
    rewrite (decide_False (P := tgt = TRASH_ID)) by done.
    rewrite Htag, Hden, Hprobe, Hu.
    eexists _, _. split; [reflexivity|]. simpl.
    split; [reflexivity|]. split; [reflexivity|]. by repeat split.
Qed.

Lemma new_folder_name_first_free_witness :
  ∃ j s' folder,
    handleNewFolderAction 8 sampleUuid 5 untitledTwice = Some s'
    ∧ files s' = files untitledTwice ++ [folder]
    ∧ name folder = folderCandidate j
    ∧ (∀ f, f ∈ files untitledTwice -> parentId f = Some "root" ->
         name f ≠ folderCandidate j)
    ∧ (∀ i, (i < j)%nat ->
         ∃ f, f ∈ files untitledTwice ∧ parentId f = Some "root"
              ∧ name f = folderCandidate i)
    ∧ id folder = "uuid-0" ∧ parentId folder = Some "root" ∧ type folder = FOLDER.
Proof.
  apply (proj2 (new_folder_name_first_free 8 sampleUuid 5 untitledTwice
                  {| userId := "u_user"; role := USER |}
                  ltac:(discriminate) eq_refl eq_refl eq_refl ltac:(vm_compute; lia))).
Defined.

(** The name Untitled Folder 2 is taken inside the first folder, not on
    the desktop: the new folder of the desktop gets it all the same. *)
Example new_folder_ignores_names_elsewhere :
  (λ s, (λ f, (parentId f, name f)) <$> files s)
    <$> handleNewFolderAction 8 sampleUuid 5 untitledTwice
  = Some [(Some "root", "Untitled Folder"); (Some "x", "Untitled Folder 2");
          (Some "root", "Untitled Folder 2")].
Proof. by vm_compute. Qed.

(** ** Paste *)

Lemma findById_Some (i : string) (fs : list FileSystemItem) (f : FileSystemItem) :
  findById i fs = Some f -> f ∈ fs ∧ id f = i.
Proof.
  unfold findById. intros [Hin Hid]%find_some. split.
  - by apply list_elem_of_In.
  - by apply bool_decide_eq_true in Hid.
Qed.









(** A paste of report.txt alone names the clone report copy.txt although
    an item of that name lies in Documents. *)
Example paste_ignores_names_elsewhere :
  (λ s, (λ f, (parentId f, name f)) <$> files s)
    <$> handlePaste 8 sampleUuid 5 (setClipboard (Some ["r"]) twoReports)
  = Some [(Some "root", "report.txt"); (Some "docs", "report copy.txt");
          (Some "root", "report copy.txt")].
Proof. by vm_compute. Qed.

(** ** Undo and redo *)

(** *** Collections alike up to modification dates *)

Lemma stripTo_id (d : bool) (f : FileSystemItem) : id (stripTo d f) = id f.
Proof. by destruct d. Qed.

Lemma snapshotTo_snapshot (d : bool) (F G : list FileSystemItem) :
  snapshot F = snapshot G -> snapshotTo d F = snapshotTo d G.
Proof.
  intros H. unfold snapshotTo.
  assert (Hd : ∀ L, stripTo d <$> L = (if d then λ f, f else unstamp) <$> snapshot L).
  { intros L. unfold snapshot. rewrite <- list_fmap_compose.
    apply list_fmap_ext. intros _ f _. by destruct d. }
  by rewrite !Hd, H.
Qed.

Lemma snapshotTo_loosen (d : bool) (F : list FileSystemItem) :
  snapshotTo d F = (if d then λ f, f else unstamp) <$> snapshotTo true F.
Proof.
  unfold snapshotTo. rewrite <- list_fmap_compose.
  apply list_fmap_ext. intros _ f _. by destruct d.
Qed.

Lemma snapshotTo_ids (d : bool) (fs : list FileSystemItem) :
  id <$> snapshotTo d fs = id <$> fs.
Proof.
  unfold snapshotTo. rewrite <- list_fmap_compose.
  apply list_fmap_ext. intros _ f _. apply stripTo_id.
Qed.

Lemma snapshotTo_app (d : bool) (fs gs : list FileSystemItem) :
  snapshotTo d (fs ++ gs) = snapshotTo d fs ++ snapshotTo d gs.
Proof. apply fmap_app. Qed.

Lemma snapshotTo_fmap (d : bool) (u : FileSystemItem -> FileSystemItem)
    (fs : list FileSystemItem) :
  respectful u ->
  snapshotTo d (u <$> fs) = (stripTo d ∘ u) <$> snapshotTo d fs.
Proof.
  intros Hu. unfold snapshotTo. rewrite <- !list_fmap_compose.
  apply list_fmap_ext. intros _ f _. simpl. apply Hu.
  destruct d; by destruct f as [? ? ? ? ? ? ? ? ? ? ? ? ? ? [[]|]].
Qed.

Lemma snapshotTo_filter (d : bool) (P : FileSystemItem -> Prop) `{!∀ f, Decision (P f)}
    (fs : list FileSystemItem) :
  (∀ f g, id f = id g -> P f ↔ P g) ->
  snapshotTo d (filter P fs) = filter P (snapshotTo d fs).
Proof.
  intros HP. induction fs as [|f fs IH]; [done|].
  unfold snapshotTo in *. rewrite fmap_cons, !filter_cons.
  pose proof (HP (stripTo d f) f (stripTo_id d f)) as Hf'.
  destruct (decide (P f)) as [Hf|Hf].
  - rewrite decide_True by (by apply Hf'). by rewrite fmap_cons, IH.
  - rewrite decide_False by (intros Hs; by apply Hf, Hf'). done.
Qed.

Lemma alike_refl (exact dated : bool) (F : list FileSystemItem) : alike exact dated F F.
Proof. destruct exact; simpl; done. Qed.

Lemma alike_of_eq (exact dated : bool) (F G : list FileSystemItem) :
  snapshotTo dated F = snapshotTo dated G -> alike exact dated F G.
Proof. destruct exact; simpl; [done|]. by intros ->. Qed.

Lemma alike_trans (exact dated : bool) (F G H : list FileSystemItem) :
  alike exact dated F G -> alike exact dated G H -> alike exact dated F H.
Proof. destruct exact; simpl; by intros -> ->. Qed.

Lemma alike_sym (exact dated : bool) (F G : list FileSystemItem) :
  alike exact dated F G -> alike exact dated G F.
Proof. destruct exact; simpl; by intros ->. Qed.

(** Collections alike with their trash dates are alike without them. *)
Lemma alike_loosen (exact dated : bool) (F G : list FileSystemItem) :
  alike exact true F G -> alike exact dated F G.
Proof.
  unfold alike. rewrite (snapshotTo_loosen dated F), (snapshotTo_loosen dated G).
  destruct exact; by intros ->.
Qed.

Lemma alike_ids (exact dated : bool) (F G : list FileSystemItem) :
  alike exact dated F G -> id <$> F ≡ₚ id <$> G.
Proof.
  intros H. rewrite <- (snapshotTo_ids dated F), <- (snapshotTo_ids dated G).
  destruct exact; simpl in H; by rewrite H.
Qed.

Lemma alike_NoDup (exact dated : bool) (F G : list FileSystemItem) :
  alike exact dated F G -> NoDup (id <$> F) -> NoDup (id <$> G).
Proof. intros H%alike_ids. by rewrite H. Qed.

Lemma alike_fmap (exact dated : bool) (u : FileSystemItem -> FileSystemItem)
    (F G : list FileSystemItem) :
  respectful u ->
  alike exact dated F G -> alike exact dated (u <$> F) (u <$> G).
Proof.
  intros Hu H. unfold alike in *. rewrite !snapshotTo_fmap by done.
  destruct exact; by rewrite H.
Qed.

Lemma alike_filter (exact dated : bool) (P : FileSystemItem -> Prop)
    `{!∀ f, Decision (P f)} (F G : list FileSystemItem) :
  (∀ f g, id f = id g -> P f ↔ P g) ->
  alike exact dated F G -> alike exact dated (filter P F) (filter P G).
Proof.
  intros HP Hal. unfold alike in *. rewrite !snapshotTo_filter by done.
  destruct exact; by rewrite Hal.
Qed.

Lemma alike_app (exact dated : bool) (F G X Y : list FileSystemItem) :
  alike exact dated F G -> alike exact dated X Y -> alike exact dated (F ++ X) (G ++ Y).
Proof.
  intros H1 H2. unfold alike in *. rewrite !snapshotTo_app.
  destruct exact; by rewrite H1, H2.
Qed.

(** *** Replaying a list of invertible actions *)

Lemma replays_app (exact dated : bool) (acts1 acts2 : list HistoryAction)
    (F Fm F1 : list FileSystemItem) :
  replays exact dated acts1 F Fm -> replays exact dated acts2 Fm F1 ->
  replays exact dated (acts1 ++ acts2) F F1.
Proof.
  induction 1 as [F|a acts F Fa Fm Hinv Hrest IH]; intros H2; [done|].
  simpl. eapply replays_cons; [done|]. by apply IH.
Qed.

Lemma replays_snoc_inv (exact dated : bool) (acts : list HistoryAction) (a : HistoryAction)
    (F F1 : list FileSystemItem) :
  replays exact dated (acts ++ [a]) F F1 ->
  ∃ Fm, replays exact dated acts F Fm ∧ inverts exact dated (payload a) Fm F1.
Proof.
  revert F. induction acts as [|b acts IH]; intros F H; simpl in H.
  - inversion H as [|? ? ? Fm ? Hinv Hrest]; subst. inversion Hrest; subst.
    exists F. split; [constructor|done].
  - inversion H as [|? ? ? Fb ? Hinv Hrest]; subst.
    destruct (IH Fb Hrest) as (Fm & Hacts & Ha).
    exists Fm. split; [|done]. by eapply replays_cons.
Qed.

Lemma performUndo_top (t : Z) (s : AppState) (below : list HistoryAction)
    (a : HistoryAction) :
  undoStack s = below ++ [a] ->
  files (performUndo t s) = undoFiles t (payload a) (files s)
  ∧ undoStack (performUndo t s) = below
  ∧ redoStack (performUndo t s) = redoStack s ++ [a].
Proof.
  intros H. unfold performUndo. rewrite H, last_snoc. simpl.
  by rewrite removelast_last.
Qed.

Lemma performRedo_top (t : Z) (s : AppState) (below : list HistoryAction)
    (a : HistoryAction) :
  redoStack s = below ++ [a] ->
  files (performRedo t s) = redoFiles t (payload a) (files s)
  ∧ redoStack (performRedo t s) = below
  ∧ undoStack (performRedo t s) = undoStack s ++ [a].
Proof.
  intros H. unfold performRedo. rewrite H, last_snoc. simpl.
  by rewrite removelast_last.
Qed.

(** Undoing the actions on top of the stack, latest first. *)
Lemma undoAll_replays (exact dated : bool) (acts : list HistoryAction) :
  ∀ (F F1 : list FileSystemItem) (s1 : AppState) (us : list Z)
    (below : list HistoryAction),
    replays exact dated acts F F1 ->
    undoStack s1 = below ++ acts ->
    alike exact true (files s1) F1 ->
    length us = length acts ->
    alike exact true (files (undoAll us s1)) F
    ∧ undoStack (undoAll us s1) = below
    ∧ redoStack (undoAll us s1) = redoStack s1 ++ rev acts.
Proof.
  induction acts as [|a acts IH] using rev_ind; intros F F1 s1 us below Hrep Hstack Hal Hlen.
  - destruct us; [|done]. inversion Hrep; subst. simpl.
    by rewrite app_nil_r in *.
  - rewrite length_app in Hlen. simpl in Hlen.
    destruct us as [|t us]; simpl in Hlen; [lia|]. simpl.
    apply replays_snoc_inv in Hrep as (Fm & Hacts & [Hundo _]).
    rewrite app_assoc in Hstack.
    destruct (performUndo_top t s1 _ _ Hstack) as (Hf & Hu & Hr).
    destruct (IH F Fm (performUndo t s1) us below Hacts Hu) as (H1 & H2 & H3).
    + rewrite Hf. by apply Hundo.
    + lia.
    + split; [done|]. split; [done|]. by rewrite H3, Hr, rev_app_distr, <- app_assoc.
Qed.

(** Redoing them again, earliest first. *)
Lemma redoAll_replays (exact dated : bool) (acts : list HistoryAction)
    (F F1 : list FileSystemItem) :
  replays exact dated acts F F1 ->
  ∀ (s0 : AppState) (rs : list Z) (below : list HistoryAction),
    redoStack s0 = below ++ rev acts ->
    alike exact dated (files s0) F ->
    length rs = length acts ->
    alike exact dated (files (redoAll rs s0)) F1
    ∧ redoStack (redoAll rs s0) = below
    ∧ undoStack (redoAll rs s0) = undoStack s0 ++ acts.
Proof.
  induction 1 as [F|a acts F Fm F1 [_ Hredo] Hrest IH]; intros s0 rs below Hstack Hal Hlen.
  - destruct rs; [|done]. simpl in *. by rewrite !app_nil_r in *.
  - destruct rs as [|t rs]; simpl in Hlen; [lia|]. simpl in *.
    rewrite app_assoc in Hstack.
    destruct (performRedo_top t s0 _ _ Hstack) as (Hf & Hr & Hu).
    destruct (IH (performRedo t s0) rs below Hr) as (H1 & H2 & H3).
    + rewrite Hf. by apply Hredo.
    + lia.
    + split; [done|]. split; [done|]. by rewrite H3, Hu, <- app_assoc.
Qed.

(** *** Each kind of action inverts the handler that commits it *)

(** The updates made by undo and redo are all of that kind. *)
Ltac respectful_tac :=
  unfold respectful; intros [] [] [] ?; unfold stripTo, unstamp, strip in *;
  repeat match goal with td : option TrashData |- _ => destruct td as [[]|] end;
  simpl in *; simplify_eq; repeat case_match; simplify_eq; reflexivity.

Lemma inverts_intro (exact dated : bool) (a : ActionPayload) (F F1 : list FileSystemItem) :
  (∀ d t G, alike exact d G F1 -> alike exact d (undoFiles t a G) (undoFiles t a F1)) ->
  (∀ t, snapshot (undoFiles t a F1) = snapshot F) ->
  (∀ d t G, alike exact d G F -> alike exact d (redoFiles t a G) (redoFiles t a F)) ->
  (∀ t, snapshot (redoFiles t a F) = snapshot F1) ->
  inverts exact dated a F F1.
Proof.
  intros Hu Hub Hr Hrb. split; intros t G HG.
  - eapply alike_trans; [by apply Hu|]. by apply alike_of_eq, snapshotTo_snapshot.
  - eapply alike_trans; [by apply Hr|]. by apply alike_of_eq, snapshotTo_snapshot.
Qed.

Lemma snapshot_fmap_ext (u v : FileSystemItem -> FileSystemItem)
    (F : list FileSystemItem) :
  (∀ f, f ∈ F -> strip (u f) = strip (v f)) -> snapshot (u <$> F) = snapshot (v <$> F).
Proof.
  intros H. unfold snapshot. rewrite <- !list_fmap_compose.
  apply list_fmap_ext. intros k f Hk. simpl. apply H. by eapply list_elem_of_lookup_2.
Qed.

Lemma snapshot_fmap_id (u : FileSystemItem -> FileSystemItem) (F : list FileSystemItem) :
  (∀ f, f ∈ F -> strip (u f) = strip f) -> snapshot (u <$> F) = snapshot F.
Proof.
  intros H. rewrite <- (list_fmap_id F) at 2. by apply snapshot_fmap_ext.
Qed.

Lemma findById_unique (F : list FileSystemItem) (f : FileSystemItem) :
  NoDup (id <$> F) -> f ∈ F -> findById (id f) F = Some f.
Proof.
  induction F as [|g F IH]; intros Hnd Hin; [by apply elem_of_nil in Hin|].
  rewrite fmap_cons in Hnd. apply NoDup_cons in Hnd as [Hg Hnd].
  unfold findById. simpl. apply elem_of_cons in Hin as [->|Hin].
  - by rewrite bool_decide_eq_true_2.
  - rewrite bool_decide_eq_false_2; [by apply IH|].
    intros Heq. apply Hg. rewrite Heq. by apply list_elem_of_fmap_2.
Qed.

Lemma findById_same (F : list FileSystemItem) (f file : FileSystemItem) :
  NoDup (id <$> F) -> f ∈ F -> findById (id f) F = Some file -> f = file.
Proof. intros Hnd Hin Hfind. rewrite findById_unique in Hfind by done. by simplify_eq. Qed.

Lemma inverts_rename (exact dated : bool) (F : list FileSystemItem) (i cleanName : string)
    (now : Z) (file : FileSystemItem) :
  NoDup (id <$> F) -> findById i F = Some file ->
  inverts exact dated (RENAME i (name file) cleanName) F
    ((λ f, if decide (id f = i) then withDateModified now (withName cleanName f) else f)
       <$> F).
Proof.
  intros Hnd Hfile. apply inverts_intro; simpl.
  - intros d _ G. apply alike_fmap. respectful_tac.
  - intros _. rewrite <- list_fmap_compose. apply snapshot_fmap_id.
    intros f Hf. simpl. destruct (decide (id f = i)) as [<-|Hne]; simpl.
    + rewrite decide_True by done. rewrite (findById_same F f file) by done. by destruct file.
    + by rewrite decide_False.
  - intros d _ G. apply alike_fmap. respectful_tac.
  - intros _. apply snapshot_fmap_ext. intros f _. by case_match.
Qed.

Lemma inverts_reposition (exact dated : bool) (F : list FileSystemItem) (i : string)
    (newPos : Position) (file : FileSystemItem) :
  NoDup (id <$> F) -> findById i F = Some file ->
  inverts exact dated (REPOSITION i (position file) (Some newPos)) F
    ((λ f, if decide (id f = i) then withPosition (Some newPos) f else f) <$> F).
Proof.
  intros Hnd Hfile. apply inverts_intro; simpl.
  - intros d _ G. apply alike_fmap. respectful_tac.
  - intros _. rewrite <- list_fmap_compose. apply snapshot_fmap_id.
    intros f Hf. simpl. destruct (decide (id f = i)) as [<-|Hne]; simpl.
    + rewrite decide_True by done. rewrite (findById_same F f file) by done. by destruct file.
    + by rewrite decide_False.
  - intros d _ G. apply alike_fmap. respectful_tac.
  - done.
Qed.

(** With pairwise distinct identifiers, updating the first item of a given
    identifier is updating every item of that identifier. *)
Lemma setOrderAt_fmap (i : string) (v : Z) (prev L : list FileSystemItem) :
  NoDup (id <$> L) -> id <$> L = id <$> prev ->
  setOrderAt (findIndexById i prev) v L
  = (λ f, if decide (id f = i) then withOrder v f else f) <$> L.
Proof.
  intros Hnd Hids. unfold findIndexById.
  assert (Hat : ∀ j z, L !! j = Some z -> ∃ w, prev !! j = Some w ∧ id w = id z).
  { intros j z Hj. assert (Hl : (id <$> prev) !! j = Some (id z)).
    { by rewrite <- Hids, list_lookup_fmap, Hj. }
    rewrite list_lookup_fmap in Hl. destruct (prev !! j) as [w|]; simplify_eq/=. eauto. }
  destruct (list_find _ prev) as [[k x]|] eqn:Hfind; simpl.
  - apply list_find_Some in Hfind as (Hk & Hx & _).
    apply list_eq. intros j. rewrite list_lookup_fmap.
    destruct (decide (j = k)) as [->|Hjk].
    + rewrite list_lookup_alter_eq. destruct (L !! k) as [z|] eqn:Hz; [|done]. simpl.
      destruct (Hat k z Hz) as (w & Hw & Hwz). simplify_eq.
      by rewrite decide_True.
    + rewrite list_lookup_alter_ne by done.
      destruct (L !! j) as [z|] eqn:Hz; [|done]. simpl.
      rewrite decide_False; [done|]. intros Hzi. apply Hjk.
      assert (Hlk : ∃ y, L !! k = Some y ∧ id y = id x).
      { assert (Hl : (id <$> L) !! k = Some (id x)).
        { by rewrite Hids, list_lookup_fmap, Hk. }
        rewrite list_lookup_fmap in Hl. destruct (L !! k) as [y|]; simplify_eq/=. eauto. }
      destruct Hlk as (y & Hy & Hyx).
      apply (NoDup_lookup (id <$> L) j k (id z)); [done|..].
      * by rewrite list_lookup_fmap, Hz.
      * rewrite list_lookup_fmap, Hy. simpl. congruence.
  - apply list_find_None in Hfind.
    rewrite <- (list_fmap_id L) at 1. apply list_fmap_ext. intros j z Hz.
    destruct (Hat j z Hz) as (w & Hw & Hwz).
    rewrite decide_False; [done|]. rewrite <- Hwz.
    rewrite Forall_forall in Hfind. apply Hfind. by eapply list_elem_of_lookup_2.
Qed.

Lemma swap_fmap (s t : string) (v1 v2 : Z) (G : list FileSystemItem) :
  NoDup (id <$> G) ->
  setOrderAt (findIndexById t G) v2 (setOrderAt (findIndexById s G) v1 G)
  = (λ f, if decide (id f = t) then withOrder v2 f else f)
      <$> ((λ f, if decide (id f = s) then withOrder v1 f else f) <$> G).
Proof.
  intros Hnd. rewrite (setOrderAt_fmap s v1 G G) by done.
  assert (Hids : id <$> ((λ f, if decide (id f = s) then withOrder v1 f else f) <$> G)
                 = id <$> G).
  { rewrite <- list_fmap_compose. apply list_fmap_ext. intros _ f _. simpl. by case_match. }
  apply setOrderAt_fmap; by rewrite Hids.
Qed.

Lemma fmap_keeps_ids (u : FileSystemItem -> FileSystemItem) (F : list FileSystemItem) :
  (∀ f, id (u f) = id f) -> id <$> (u <$> F) = id <$> F.
Proof. intros H. rewrite <- list_fmap_compose. apply list_fmap_ext. intros _ f _. apply H. Qed.

Lemma inverts_swap (exact dated : bool) (F : list FileSystemItem) (s t : string)
    (sourceFile targetFile : FileSystemItem) :
  NoDup (id <$> F) ->
  findById s F = Some sourceFile -> findById t F = Some targetFile ->
  inverts exact dated
    (SWAP s t (order sourceFile) (order targetFile) (order targetFile) (order sourceFile))
    F
    ((λ f, if decide (id f = s) then withOrder (order targetFile) f
           else if decide (id f = t) then withOrder (order sourceFile) f else f) <$> F).
Proof.
  intros Hnd Hs Ht.
  set (F1 := _ <$> F).
  assert (Hids1 : id <$> F1 = id <$> F).
  { apply fmap_keeps_ids. intros f. by repeat case_match. }
  apply inverts_intro; simpl.
  - intros d _ G HG. rewrite !swap_fmap.
    + do 2 (apply alike_fmap; [respectful_tac|]). done.
    + by rewrite Hids1.
    + eapply alike_NoDup; [by apply alike_sym|]. by rewrite Hids1.
  - intros _. rewrite swap_fmap by (by rewrite Hids1).
    unfold F1. rewrite <- !list_fmap_compose. apply snapshot_fmap_id.
    intros f Hf. simpl.
    destruct (decide (id f = s)) as [Hfs|Hfs]; simpl.
    + rewrite (decide_True (P := id f = s)) by done. simpl.
      assert (f = sourceFile) as -> by (apply (findById_same F); [done..|by rewrite Hfs]).
      destruct (decide (id sourceFile = t)) as [Hst|Hst]; simpl.
      * assert (sourceFile = targetFile) as ->
          by (apply (findById_same F); [done..|by rewrite Hst]).
        by destruct targetFile.
      * by destruct sourceFile.
    + destruct (decide (id f = t)) as [Hft|Hft]; simpl.
      * rewrite (decide_False (P := id f = s)) by done. simpl.
        rewrite (decide_True (P := id f = t)) by done.
        assert (f = targetFile) as -> by (apply (findById_same F); [done..|by rewrite Hft]).
        by destruct targetFile.
      * rewrite (decide_False (P := id f = s)) by done. simpl.
        by rewrite (decide_False (P := id f = t)).
  - intros d _ G HG. rewrite !swap_fmap.
    + do 2 (apply alike_fmap; [respectful_tac|]). done.
    + done.
    + eapply alike_NoDup; [by apply alike_sym|done].
  - intros _. rewrite swap_fmap by done.
    unfold F1. rewrite <- !list_fmap_compose. apply snapshot_fmap_ext.
    intros f Hf. simpl.
    destruct (decide (id f = s)) as [Hfs|Hfs]; simpl.
    + assert (f = sourceFile) as -> by (apply (findById_same F); [done..|by rewrite Hfs]).
      destruct (decide (id sourceFile = t)) as [Hst|Hst]; simpl; [|done].
      assert (sourceFile = targetFile) as ->
        by (apply (findById_same F); [done..|by rewrite Hst]).
      done.
    + by destruct (decide (id f = t)).
Qed.

Lemma findMoved_absent (i : string) (P : list MovedItem) :
  i ∉ movedId <$> P -> findMoved i P = None.
Proof.
  induction P as [|e P IH]; [done|]. rewrite fmap_cons, not_elem_of_cons.
  intros [Hne Hnin]. unfold findMoved. simpl.
  rewrite bool_decide_eq_false_2 by done. by apply IH.
Qed.

(** What the [prev.map] of a move produces: the same identifiers in the
    same order, a payload entry for each item it changes, and old and new
    values in the payload that undo and redo put back. *)
Lemma moveItems_spec (ids : list string) (tgt : string) (pos : option Position) (now : Z) :
  ∀ (F : list FileSystemItem) (m : Z) (F1 : list FileSystemItem) (P : list MovedItem),
    moveItems ids tgt pos now m F = (F1, P) ->
    NoDup (id <$> F) ->
    id <$> F1 = id <$> F
    ∧ (∀ i, i ∈ movedId <$> P -> i ∈ id <$> F)
    ∧ snapshot (undoFiles 0 (MOVE P) F1) = snapshot F
    ∧ snapshot (redoFiles 0 (MOVE P) F) = snapshot F1.
Proof.
  induction F as [|f F IH]; intros m F1 P Hmove Hnd.
  - simpl in Hmove. by simplify_eq.
  - rewrite fmap_cons in Hnd. apply NoDup_cons in Hnd as [Hf Hnd].
    assert (Hkeep : ∀ R1 P',
      moveItems ids tgt pos now m F = (R1, P') -> F1 = f :: R1 -> P = P' ->
      id <$> F1 = id <$> (f :: F)
      ∧ (∀ i, i ∈ movedId <$> P -> i ∈ id <$> (f :: F))
      ∧ snapshot (undoFiles 0 (MOVE P) F1) = snapshot (f :: F)
      ∧ snapshot (redoFiles 0 (MOVE P) (f :: F)) = snapshot F1).
    { intros R1 P' Hrest -> ->.
      destruct (IH m R1 P' Hrest Hnd) as (Hids & Hsub & Hundo & Hredo).
      assert (Hnone : findMoved (id f) P' = None).
      { apply findMoved_absent. intros Hin. by apply Hf, Hsub. }
      split; [by rewrite !fmap_cons, Hids|].
      split; [intros i Hi; rewrite fmap_cons; right; by apply Hsub|].
      cbn [undoFiles redoFiles] in *. unfold snapshot in *.
      rewrite !fmap_cons. cbn beta. rewrite Hnone.
      by rewrite Hundo, Hredo. }
    cbn [moveItems] in Hmove.
    destruct (bool_decide (id f ∈ ids)) eqn:Hin.
    + destruct (bool_decide (parentId f = Some tgt) && negb (bool_decide (is_Some pos)))
        eqn:Hstay.
      * destruct (moveItems ids tgt pos now m F) as [R1 P'] eqn:Hrest.
        simplify_eq. by eapply Hkeep.
      * destruct (moveItems ids tgt pos now (m + 1) F) as [R1 P'] eqn:Hrest.
        simplify_eq.
        destruct (IH (m + 1) R1 P' Hrest Hnd) as (Hids & Hsub & Hundo & Hredo).
        split; [by rewrite !fmap_cons, Hids|].
        split.
        { intros i. rewrite !fmap_cons, !elem_of_cons. intros [->|Hi]; [by left|].
          right. by apply Hsub. }
        set (e := {| movedId := id f; oldParentId := parentId f; oldOrder := order f;
                     oldPosition := position f; newParentId := tgt;
                     newOrder := m + 1; newPosition := pos |}).
        assert (Hhere : findMoved (id f) (e :: P') = Some e).
        { unfold findMoved. simpl. by rewrite bool_decide_eq_true_2. }
        assert (Hother : ∀ g, id g ≠ id f ->
                  findMoved (id g) (e :: P') = findMoved (id g) P').
        { intros g Hg. unfold findMoved. simpl.
          by rewrite bool_decide_eq_false_2 by congruence. }
        clear Hkeep IH.
        cbn [undoFiles redoFiles] in *. unfold snapshot in *.
        rewrite !fmap_cons. cbn beta.
        change (id (withPosition pos (withOrder (m + 1)
                  (withDateModified now (withParentId (Some tgt) f))))) with (id f).
        rewrite Hhere. split; f_equal.
        -- rewrite <- Hundo. apply snapshot_fmap_ext. intros g Hg.
           rewrite Hother; [done|].
           intros Hgf. apply Hf. rewrite <- Hgf, <- Hids. by apply list_elem_of_fmap_2.
        -- rewrite <- Hredo. apply snapshot_fmap_ext. intros g Hg.
           rewrite Hother; [done|].
           intros Hgf. apply Hf. rewrite <- Hgf. by apply list_elem_of_fmap_2.
    + destruct (moveItems ids tgt pos now m F) as [R1 P'] eqn:Hrest.
      simplify_eq. by eapply Hkeep.
Qed.

Lemma inverts_move (exact dated : bool) (ids : list string) (tgt : string)
    (pos : option Position) (now m : Z) (F F1 : list FileSystemItem) (P : list MovedItem) :
  NoDup (id <$> F) ->
  moveItems ids tgt pos now m F = (F1, P) ->
  inverts exact dated (MOVE P) F F1.
Proof.
  intros Hnd Hmove.
  destruct (moveItems_spec ids tgt pos now F m F1 P Hmove Hnd) as (_ & _ & Hundo & Hredo).
  apply inverts_intro; simpl.
  - intros d _ G. apply alike_fmap. respectful_tac.
  - done.
  - intros d _ G. apply alike_fmap. respectful_tac.
  - done.
Qed.

Lemma filter_all (P : FileSystemItem -> Prop) `{!∀ f, Decision (P f)}
    (F : list FileSystemItem) :
  (∀ f, f ∈ F -> P f) -> filter P F = F.
Proof.
  intros HP. induction F as [|f F IH]; [done|].
  rewrite filter_cons, decide_True by (apply HP; left).
  f_equal. apply IH. intros g Hg. apply HP. by right.
Qed.

Lemma filter_none (P : FileSystemItem -> Prop) `{!∀ f, Decision (P f)}
    (F : list FileSystemItem) :
  (∀ f, f ∈ F -> ¬ P f) -> filter P F = [].
Proof.
  intros HP. induction F as [|f F IH]; [done|].
  rewrite filter_cons, decide_False by (apply HP; left).
  apply IH. intros g Hg. apply HP. by right.
Qed.

Lemma filter_same (P Q : FileSystemItem -> Prop)
    `{!∀ f, Decision (P f)} `{!∀ f, Decision (Q f)} (F : list FileSystemItem) :
  (∀ f, f ∈ F -> P f ↔ Q f) -> filter P F = filter Q F.
Proof.
  intros HPQ. induction F as [|f F IH]; [done|].
  rewrite !filter_cons, IH by (intros g Hg; apply HPQ; by right).
  destruct (decide (P f)) as [Hp|Hp].
  - rewrite decide_True; [done|]. by apply (HPQ f); [left|].
  - rewrite decide_False; [done|]. intros Hq. apply Hp. by apply (HPQ f); [left|].
Qed.

Lemma inverts_paste (exact dated : bool) (F newItems : list FileSystemItem) :
  (∀ c, c ∈ newItems -> id c ∉ id <$> F) ->
  inverts exact dated (PASTE newItems) F (F ++ newItems).
Proof.
  intros Hfresh. apply inverts_intro; simpl.
  - intros d _ G. apply alike_filter. by intros f g ->.
  - intros _. rewrite filter_app, filter_all, filter_none.
    + by rewrite app_nil_r.
    + intros c Hc Hnot. apply Hnot. by apply list_elem_of_fmap_2.
    + intros f Hf (c & Hid & Hc)%list_elem_of_fmap.
      apply (Hfresh c Hc). rewrite <- Hid. by apply list_elem_of_fmap_2.
  - intros d _ G HG. apply alike_app; [done|apply alike_refl].
  - done.
Qed.

Lemma inverts_create (exact dated : bool) (F : list FileSystemItem) (item : FileSystemItem) :
  id item ∉ id <$> F ->
  inverts exact dated (CREATE (id item) item) F (F ++ [item]).
Proof.
  intros Hfresh. apply inverts_intro; simpl.
  - intros d _ G. apply alike_filter. by intros f g ->.
  - intros _. rewrite filter_app, filter_all.
    + rewrite filter_cons, decide_False by (by intros H). by rewrite app_nil_r.
    + intros f Hf Heq. apply Hfresh. rewrite <- Heq. by apply list_elem_of_fmap_2.
  - intros d _ G HG. apply alike_app; [done|apply alike_refl].
  - done.
Qed.

(** A permanent delete is undone by appending the removed items: the same
    items come back, at the end of the collection. *)
Lemma inverts_delete (dated : bool) (F : list FileSystemItem) (ids : list string) :
  inverts false dated (DELETE (filter (λ f, id f ∈ ids) F)) F (filter (λ f, id f ∉ ids) F).
Proof.
  split; intros t G HG; cbn [undoFiles redoFiles].
  - eapply alike_trans; [apply alike_app; [exact HG|apply alike_refl]|].
    unfold alike, snapshotTo. apply fmap_Permutation.
    rewrite Permutation_app_comm. apply filter_app_complement.
  - eapply alike_trans; [apply (alike_filter false); [by intros f g ->|exact HG]|].
    apply alike_of_eq. f_equal. apply filter_same. intros f Hf. split.
    + intros Hnot Hin. apply Hnot. apply list_elem_of_fmap_2.
      by apply list_elem_of_filter.
    + intros Hnot (g & Hid & [Hg _]%list_elem_of_filter)%list_elem_of_fmap.
      apply Hnot. by rewrite Hid.
Qed.

(** A move to the trash of items that have a parent and no position of
    their own: undo puts each of them back below its parent, and redo
    trashes it again, under the date of the redo. *)
Lemma inverts_trash (exact : bool) (ids : list string) (now : Z)
    (F : list FileSystemItem) :
  (∀ f, f ∈ F -> id f ∈ ids ->
     position f = None ∧ trashData f = None ∧ ∃ p, parentId f = Some p ∧ p ≠ "") ->
  inverts exact false (TRASH ids) F
    ((λ f, if bool_decide (id f ∈ ids) then trashItem now f else f) <$> F).
Proof.
  intros Hok. split; intros t G HG; cbn [undoFiles redoFiles].
  - eapply alike_trans; [apply alike_fmap; [respectful_tac|exact HG]|].
    apply alike_of_eq. unfold snapshotTo. rewrite <- !list_fmap_compose.
    rewrite <- (list_fmap_id F) at 2. rewrite <- list_fmap_compose.
    apply list_fmap_ext. intros k f Hk. cbn [compose stripTo].
    destruct (bool_decide (id f ∈ ids)) eqn:Hin; [|by rewrite Hin].
    change (id (trashItem now f)) with (id f). rewrite Hin.
    apply bool_decide_eq_true_1 in Hin.
    destruct (Hok f (list_elem_of_lookup_2 _ _ _ Hk) Hin) as (Hpos & Htd & p & Hp & Hne).
    destruct f. simpl in *. simplify_eq. unfold strip, trashItem, JS.orRoot. simpl.
    by rewrite decide_False.
  - eapply alike_trans; [apply alike_fmap; [respectful_tac|exact HG]|].
    apply alike_of_eq. unfold snapshotTo. rewrite <- !list_fmap_compose.
    apply list_fmap_ext. intros k f Hk. cbn [compose stripTo].
    destruct (bool_decide (id f ∈ ids)) eqn:Hin; [|done].
    apply bool_decide_eq_true_1 in Hin.
    destruct (Hok f (list_elem_of_lookup_2 _ _ _ Hk) Hin) as (Hpos & Htd & _).
    destruct f. simpl in *. by simplify_eq.
Qed.

(** *** The identifiers of pasted and uploaded items *)

Lemma drawn_app (uuid : nat -> string) (xs ys : list FileSystemItem) (n m k : nat) :
  drawn uuid xs n m -> drawn uuid ys m k -> drawn uuid (xs ++ ys) n k.
Proof.
  intros [Hnm Hxs] [Hmk Hys]. split; [lia|].
  rewrite fmap_app, Hxs, Hys.
  replace (k - n)%nat with ((m - n) + (k - m))%nat by lia.
  rewrite seq_app, fmap_app. do 3 f_equal. lia.
Qed.

Lemma copyEach_drawn (uuid : nat -> string)
    (copy : string -> nat -> option (list FileSystemItem * nat))
    (children : list string) :
  (∀ c m items m', copy c m = Some (items, m') -> drawn uuid items m m') ->
  ∀ created n all n',
    copyEach copy children created n = Some (all, n') ->
    ∃ more, all = created ++ more ∧ drawn uuid more n n'.
Proof.
  intros Hcopy. induction children as [|c children IH]; intros created n all n' H; simpl in H.
  - simplify_eq. exists []. rewrite app_nil_r. split; [done|].
    split; [done|]. by rewrite Nat.sub_diag.
  - destruct (copy c n) as [[items m]|] eqn:Hc; [|done].
    destruct (IH _ _ _ _ H) as (more & -> & Hmore).
    exists (items ++ more). rewrite app_assoc. split; [done|].
    eapply drawn_app; [by eapply Hcopy|done].
Qed.

Lemma copyItemRecursively_drawn (fs : list FileSystemItem) (uuid : nat -> string) (now : Z) :
  ∀ gas i parent isRoot n items n',
    copyItemRecursively gas fs uuid now i parent isRoot n = Some (items, n') ->
    drawn uuid items n n'.
Proof.
  induction gas as [|k IH]; intros i parent isRoot n items n' H; [done|].
  cbn [copyItemRecursively] in H.
  destruct (findById i fs) as [item|].
  - cbv zeta in H.
    destruct (if isRoot then _ else _) as [newName|]; [|done].
    assert (Hone : ∀ c : FileSystemItem, id c = uuid n -> drawn uuid [c] n (S n)).
    { intros c Hc. split; [lia|]. replace (S n - n)%nat with 1%nat by lia.
      simpl. by rewrite Hc. }
    destruct (decide (type item = FOLDER)).
    + apply copyEach_drawn with (uuid := uuid) in H as (more & -> & Hmore).
      * eapply drawn_app; [|done]. by apply Hone.
      * intros c m its m' Hc. by eapply IH.
    + simplify_eq. by apply Hone.
  - simplify_eq. split; [done|]. by rewrite Nat.sub_diag.
Qed.

Lemma drawn_fresh (uuid : nat -> string) (items F : list FileSystemItem) (n n' : nat) :
  (∀ j k, uuid j = uuid k -> j = k) ->
  (∀ k, uuid k ∉ id <$> F) ->
  NoDup (id <$> F) ->
  drawn uuid items n n' ->
  (∀ c, c ∈ items -> id c ∉ id <$> F) ∧ NoDup (id <$> (F ++ items)).
Proof.
  intros Hinj Hfresh Hnd [_ Hids].
  assert (Hout : ∀ c, c ∈ items -> id c ∉ id <$> F).
  { intros c Hc. assert (Hin : id c ∈ id <$> items) by (by apply list_elem_of_fmap_2).
    rewrite Hids in Hin. apply list_elem_of_fmap in Hin as (k & -> & _). apply Hfresh. }
  split; [done|]. rewrite fmap_app. apply NoDup_app. split; [done|]. split.
  - intros i Hi (c & -> & Hc)%list_elem_of_fmap. by apply (Hout c Hc).
  - rewrite Hids. apply NoDup_fmap_2_strong; [|apply NoDup_seq].
    intros j k _ _. apply Hinj.
Qed.

Lemma uploadedItems_drawn (uuid : nat -> string) (now : Z) (tgt : string) (mo : Z)
    (owner : string) (fl : list UploadedFile) :
  ∀ k, drawn uuid (uploadedItems uuid now tgt mo owner k fl) k (k + length fl).
Proof.
  induction fl as [|f fl IH]; intros k; simpl.
  - split; [lia|]. by replace (k + 0 - k)%nat with 0%nat by lia.
  - replace (k + S (length fl))%nat with (S k + length fl)%nat by lia.
    apply (drawn_app uuid [_] _ k (S k)); [|apply IH].
    split; [lia|]. by replace (S k - k)%nat with 1%nat by lia.
Qed.

(** One CREATE action per uploaded item. *)
Lemma replays_creates (exact dated : bool) (t : Z) (items : list FileSystemItem) :
  ∀ F, NoDup (id <$> (F ++ items)) ->
    replays exact dated
      ((λ f, {| payload := CREATE (id f) f; description := "Upload"; timestamp := t |})
         <$> items)
      F (F ++ items).
Proof.
  induction items as [|x items IH]; intros F Hnd.
  - rewrite app_nil_r. constructor.
  - rewrite fmap_cons. eapply replays_cons.
    + apply inverts_create. rewrite fmap_app, fmap_cons in Hnd.
      apply NoDup_app in Hnd as (_ & Hdisj & _). intros Hin.
      apply (Hdisj _ Hin). by left.
    + replace (F ++ x :: items) with ((F ++ [x]) ++ items) by (by rewrite <- app_assoc).
      apply IH. by rewrite <- app_assoc.
Qed.

(** *** Every reversible command leaves an invertible trace *)

Lemma traced_idle (exact dated : bool) (s s1 : AppState) :
  NoDup (id <$> files s) ->
  files s1 = files s -> undoStack s1 = undoStack s -> traced exact dated s s1.
Proof.
  intros Hnd Hf Hu. exists []. rewrite Hf, Hu, app_nil_r. split; [done|].
  split; [constructor|done].
Qed.

Lemma traced_one (exact dated : bool) (s s1 : AppState) (a : HistoryAction) :
  undoStack s1 = undoStack s ++ [a] ->
  inverts exact dated (payload a) (files s) (files s1) ->
  NoDup (id <$> files s1) ->
  traced exact dated s s1.
Proof.
  intros Hu Hinv Hnd. exists [a]. split; [done|]. split; [|done].
  eapply replays_cons; [done|constructor].
Qed.

Lemma moveItems_nil (ids : list string) (tgt : string) (pos : option Position) (now : Z) :
  ∀ F m F1, moveItems ids tgt pos now m F = (F1, []) -> F1 = F.
Proof.
  induction F as [|f F IH]; intros m F1 H; simpl in H; [by simplify_eq|].
  repeat case_match; simplify_eq; f_equal; by eapply IH.
Qed.

Lemma handleRenameConfirm_traced (exact dated : bool) (i n : string) (t : Z) (s : AppState) :
  NoDup (id <$> files s) -> traced exact dated s (handleRenameConfirm i n t s).
Proof.
  intros Hnd. unfold handleRenameConfirm.
  destruct (findById i (files s)) as [file|] eqn:Hfile; [|by apply traced_idle].
  repeat case_match; try by apply traced_idle.
  eapply traced_one; [done|..]; simpl.
  - by apply inverts_rename.
  - rewrite fmap_keeps_ids; [done|]. intros f. by case_match.
Qed.

Lemma handleReposition_traced (exact dated : bool) (i : string) (p : Position) (t : Z)
    (s : AppState) :
  NoDup (id <$> files s) -> traced exact dated s (handleReposition i p t s).
Proof.
  intros Hnd. unfold handleReposition.
  destruct (findById i (files s)) as [file|] eqn:Hfile; [|by apply traced_idle].
  case_match; [by apply traced_idle|].
  eapply traced_one; [done|..]; simpl.
  - by apply inverts_reposition.
  - rewrite fmap_keeps_ids; [done|]. intros f. by case_match.
Qed.

Lemma handleSwapFile_traced (exact dated : bool) (a b : string) (t : Z) (s : AppState) :
  NoDup (id <$> files s) -> traced exact dated s (handleSwapFile a b t s).
Proof.
  intros Hnd. unfold handleSwapFile.
  destruct (findById a (files s)) as [sourceFile|] eqn:Ha; [|by apply traced_idle].
  destruct (findById b (files s)) as [targetFile|] eqn:Hb; [|by apply traced_idle].
  case_match; [by apply traced_idle|].
  eapply traced_one; [done|..]; simpl.
  - by apply inverts_swap.
  - rewrite fmap_keeps_ids; [done|]. intros f. by repeat case_match.
Qed.

Lemma handleMoveToTrash_traced (exact : bool) (ids : list string) (t : Z) (s : AppState) :
  trashable ids s -> NoDup (id <$> files s) ->
  traced exact false s (handleMoveToTrash ids t s).
Proof.
  intros Hok Hnd. unfold handleMoveToTrash.
  case_match; [by apply traced_idle|].
  eapply traced_one; [done|..]; simpl.
  - by apply inverts_trash.
  - rewrite fmap_keeps_ids; [done|]. intros f. by case_match.
Qed.

Lemma handleMoveFile_traced (exact dated : bool) (k : nat) (src tgt : string)
    (p : option Position) (t : Z) (s s1 : AppState) :
  tgt ≠ TRASH_ID -> NoDup (id <$> files s) ->
  handleMoveFile true k src tgt p t s = Some s1 -> traced exact dated s s1.
Proof.
  intros Htr Hnd. unfold handleMoveFile.
  destruct (decide (src = tgt)); [intros; simplify_eq; by apply traced_idle|].
  destruct (itemDenied s src); [intros; simplify_eq; by apply traced_idle|].
  rewrite (decide_False (P := tgt = TRASH_ID)) by done.
  destruct (targetDenied s tgt); [intros; simplify_eq; by apply traced_idle|].
  destruct (reachesSource _ _ _ _) as [[|]|]; [intros; simplify_eq; by apply traced_idle| |done].
  destruct (moveItems _ _ _ _ _ _) as [newFiles movedItemsPayload] eqn:Hmove.
  destruct (moveItems_spec _ _ _ _ _ _ _ _ Hmove Hnd) as (Hids & _).
  destruct movedItemsPayload as [|m ms]; intros; simplify_eq.
  - apply moveItems_nil in Hmove as ->. by apply traced_idle.
  - eapply traced_one; [done|..]; simpl.
    + by eapply inverts_move.
    + by rewrite Hids.
Qed.

Lemma handleNewFolderAction_traced (exact dated : bool) (k : nat) (u : nat -> string) (t : Z)
    (s s1 : AppState) :
  NoDup (id <$> files s) -> (∀ j, u j ∉ id <$> files s) ->
  handleNewFolderAction k u t s = Some s1 -> traced exact dated s s1.
Proof.
  intros Hnd Hfresh. unfold handleNewFolderAction.
  repeat (case_match; try (intros; simplify_eq; by apply traced_idle)); try done.
  all: intros; simplify_eq.
  all: eapply traced_one; [done|..]; simpl.
  all: try (apply (inverts_create exact dated (files s)); simpl; apply Hfresh).
  all: rewrite fmap_app; apply NoDup_app; split; [done|]; split; [|apply NoDup_singleton].
  all: intros i Hi ->%list_elem_of_singleton; by apply (Hfresh O).
Qed.

Lemma handleUpload_traced (exact dated : bool) (fl : list UploadedFile) (tgt : string)
    (u : nat -> string) (t : Z) (s : AppState) :
  NoDup (id <$> files s) ->
  (∀ j k, u j = u k -> j = k) -> (∀ j, u j ∉ id <$> files s) ->
  traced exact dated s (handleUpload fl tgt u t s).
Proof.
  intros Hnd Hinj Hfresh. unfold handleUpload.
  repeat (case_match; try (by apply traced_idle)). subst.
  match goal with
  | |- traced _ _ _ (commitUploads _ (uploadedItems _ _ _ ?mo ?ow O ?fl0) ?s0) =>
      destruct (commitUploads_stacks t (uploadedItems u t tgt mo ow O fl0) s0)
        as (Hf & Hu & _);
      destruct (drawn_fresh u (uploadedItems u t tgt mo ow O fl0) (files s)
                  O (O + length fl0) Hinj Hfresh Hnd
                  (uploadedItems_drawn u t tgt mo ow fl0 O)) as [_ Hnd']
  end.
  eexists. split; [exact Hu|]. rewrite Hf. split; [|exact Hnd'].
  by apply (replays_creates exact dated t _ (files s)).
Qed.

Lemma handlePaste_traced (exact dated : bool) (k : nat) (u : nat -> string) (t : Z)
    (s s1 : AppState) :
  NoDup (id <$> files s) ->
  (∀ j k, u j = u k -> j = k) -> (∀ j, u j ∉ id <$> files s) ->
  handlePaste k u t s = Some s1 -> traced exact dated s s1.
Proof.
  intros Hnd Hinj Hfresh. unfold handlePaste.
  destruct (clipboard s) as [[|i ids]|]; [intros; simplify_eq; by apply traced_idle| |
    intros; simplify_eq; by apply traced_idle].
  repeat (case_match; try (intros; simplify_eq; by apply traced_idle)); try done.
  intros; simplify_eq.
  match goal with H : copyEach _ _ _ _ = Some _ |- _ =>
    apply copyEach_drawn with (uuid := u) in H as (more & Hall & Hdrawn);
      [|intros ? ? ? ? Hc; by eapply copyItemRecursively_drawn] end.
  simpl in Hall. subst.
  destruct (drawn_fresh u _ (files s) _ _ Hinj Hfresh Hnd Hdrawn) as [Hout Hnd'].
  eapply traced_one; [done|..]; simpl.
  - by apply inverts_paste.
  - done.
Qed.

Lemma handlePermanentDelete_traced (dated : bool) (ids : list string) (t : Z)
    (s : AppState) :
  NoDup (id <$> files s) -> traced false dated s (handlePermanentDelete ids t s).
Proof.
  intros Hnd. eapply traced_one; [done|..]; simpl.
  - apply inverts_delete.
  - apply (sublist_NoDup _ (id <$> files s)); [done|].
    apply fmap_sublist, sublist_filter.
Qed.

Lemma run_traced (exact dated : bool) (e : Env) (c : Command) (s s1 : AppState) :
  reversible exact dated e c s ->
  NoDup (id <$> files s) ->
  (∀ j k, uuid e j = uuid e k -> j = k) ->
  (∀ k, uuid e k ∉ id <$> files s) ->
  run e c s = Some s1 ->
  traced exact dated s s1.
Proof.
  intros Hrev Hnd Hinj Hfresh Hrun.
  destruct c; simpl in Hrev, Hrun; try done; simplify_eq.
  - by apply handleRenameConfirm_traced.
  - destruct (decide (targetFolderId = TRASH_ID)) as [->|Htr].
    + destruct Hrev as [-> Hok]. unfold handleMoveFile in Hrun.
      rewrite (decide_True (P := TRASH_ID = TRASH_ID)) in Hrun by done.
      repeat case_match; simplify_eq; try (by apply traced_idle).
      by apply handleMoveToTrash_traced.
    + rewrite Hrev in Hrun. by eapply handleMoveFile_traced.
  - by apply handleReposition_traced.
  - by apply handleSwapFile_traced.
  - destruct Hrev as [-> Hok]. by apply handleMoveToTrash_traced.
  - by apply handlePermanentDelete_traced.
  - unfold handleEmptyTrash.
    destruct (childrenOf TRASH_ID (files s)) as [|f l] eqn:E; [by apply traced_idle|].
    destruct (handlePermanentDelete_traced dated (id <$> f :: l) (now e) s Hnd)
      as (acts & Hu & Hrep & Hnd').
    exists acts. split; [exact Hu|]. split; [exact Hrep|exact Hnd'].
  - by eapply handleNewFolderAction_traced.
  - by apply handleUpload_traced.
  - unfold handleCopy. case_match; by apply traced_idle.
  - by eapply handlePaste_traced.
Qed.

(** *** The inverse law *)

Lemma traced_trans (exact dated : bool) (s s1 s2 : AppState) :
  traced exact dated s s1 -> traced exact dated s1 s2 -> traced exact dated s s2.
Proof.
  intros (a1 & Hu1 & Hr1 & _) (a2 & Hu2 & Hr2 & Hnd).
  exists (a1 ++ a2). split; [by rewrite Hu2, Hu1, app_assoc|].
  split; [by eapply replays_app|done].
Qed.

Lemma runAll_traced (exact dated : bool) (cs : list (Env * Command)) :
  ∀ s s', reversibleRun exact dated cs s ->
    NoDup (id <$> files s) -> freshRun cs s ->
    runAll cs s = Some s' -> traced exact dated s s'.
Proof.
  induction cs as [|[e c] cs IH]; intros s s' Hrev Hnd Hfresh Hrun; simpl in *.
  - simplify_eq. by apply traced_idle.
  - destruct Hrev as [Hc Hrev]. destruct Hfresh as (Hinj & Hnew & Hrest).
    destruct (run e c s) as [s1|] eqn:Hstep; [|done].
    assert (Hs1 : traced exact dated s s1) by (by eapply run_traced).
    eapply traced_trans; [done|]. apply IH; try done.
    by destruct Hs1 as (_ & _ & _ & ?).
Qed.

(** The claim C1 as written fails.  After a rename and a move to the trash
    two undos give back the old name and the old parent but neither the
    modification date nor the position on the desktop, and two redos after
    them stamp the trash date anew.  An item without a parent that is moved
    to the trash comes back, on undo, as a child of the desktop; and an
    item of the trash that is moved to the trash again comes back without
    its trash data. *)
Lemma undo_loses_date_and_position :
  (∃ s', runAll renameThenTrash (sampleState [placedFile]) = Some s'
         ∧ length (undoStack s') = 2%nat
         ∧ files (undoAll [7; 8] s') = [withPosition None (withDateModified 5 placedFile)]
         ∧ files (undoAll [7; 8] s') ≠ [placedFile]
         ∧ files (redoAll [9; 10] (undoAll [7; 8] s')) ≠ files s')
  ∧ (let s' := handleMoveToTrash ["root"] 5 (sampleState [systemRoot]) in
     length (undoStack s') = 1%nat
     ∧ parentId <$> files (sampleState [systemRoot]) = [None]
     ∧ parentId <$> files (performUndo 6 s') = [Some "root"])
  ∧ (let s' := handleMoveToTrash ["n"] 5 (sampleState [trashedNote]) in
     length (undoStack s') = 1%nat
     ∧ (λ f, trashData f ≫= originalParentId) <$> files (sampleState [trashedNote])
       = [Some "docs"]
     ∧ trashData <$> files (performUndo 6 s') = [None]).
Proof.
  split; [|by split].
  eexists. split; [reflexivity|]. split; [reflexivity|]. split; [reflexivity|].
  split; vm_compute; discriminate.
Qed.

(** C1, amended.  Take a collection whose identifiers are pairwise distinct
    and run any sequence of renames, moves into folders whose action is
    committed, repositions, swaps, new folders, uploads, copies and pastes;
    when [dated] is false, also moves to the trash of items that have a
    parent and no position of their own; when [exact] is false, also
    permanent deletes; the identifiers drawn on the way being new.  Then as
    many undos as actions were committed restore the undo stack and a
    collection alike to the one before the sequence, every field of every
    item but [dateModified] being equal; and as many redos after them
    restore both stacks and a collection alike to the one after the
    sequence, every field but [dateModified] being equal and, when [dated]
    is false, but the date of the move to the trash, which redo stamps
    anew.  With [exact] the items are also in the same order. *)
Theorem undo_redo_inverse_up_to_dates (exact dated : bool) (cs : list (Env * Command))
    (s s' : AppState) :
  reversibleRun exact dated cs s ->
  NoDup (id <$> files s) ->
  freshRun cs s ->
  runAll cs s = Some s' ->
  ∃ acts,
    undoStack s' = undoStack s ++ acts
    ∧ ∀ us rs, length us = length acts -> length rs = length acts ->
        (alike exact true (files (undoAll us s')) (files s)
         ∧ undoStack (undoAll us s') = undoStack s)
        ∧ (alike exact dated (files (redoAll rs (undoAll us s'))) (files s')
           ∧ undoStack (redoAll rs (undoAll us s')) = undoStack s'
           ∧ redoStack (redoAll rs (undoAll us s')) = redoStack s').
Proof.
  intros Hrev Hnd Hfresh Hrun.
  destruct (runAll_traced exact dated cs s s' Hrev Hnd Hfresh Hrun)
    as (acts & Hu & Hrep & _).
  exists acts. split; [done|]. intros us rs Hus Hrs.
  destruct (undoAll_replays exact dated acts (files s) (files s') s' us (undoStack s)
              Hrep Hu (alike_refl _ _ _) Hus) as (Hf1 & Hu1 & Hr1).
  split; [done|].
  destruct (redoAll_replays exact dated acts (files s) (files s') Hrep
              (undoAll us s') rs (redoStack s') Hr1 (alike_loosen _ _ _ _ Hf1) Hrs)
    as (Hf2 & Hr2 & Hu2).
  split; [done|]. split; [|done]. by rewrite Hu2, Hu1.
Qed.

Lemma reversibleRun_cons (exact dated : bool) (e : Env) (c : Command)
    (rest : list (Env * Command)) (s s1 : AppState) :
  run e c s = Some s1 ->
  reversible exact dated e c s ->
  reversibleRun exact dated rest s1 ->
  reversibleRun exact dated ((e, c) :: rest) s.
Proof. intros Hrun Hc Hrest. simpl. by rewrite Hrun. Qed.

Lemma freshRun_cons (e : Env) (c : Command) (rest : list (Env * Command))
    (s s1 : AppState) :
  run e c s = Some s1 ->
  (∀ j k, uuid e j = uuid e k -> j = k) ->
  (∀ k, uuid e k ∉ id <$> files s) ->
  freshRun rest s1 ->
  freshRun ((e, c) :: rest) s.
Proof. intros Hrun Hinj Hnew Hrest. simpl. by rewrite Hrun. Qed.

Lemma sampleUuidFrom_inj (base j k : nat) :
  sampleUuidFrom base j = sampleUuidFrom base k -> j = k.
Proof. unfold sampleUuidFrom. intros H%String.app_inj%ofNat_inj. lia. Qed.

Lemma sampleUuidFrom_above (base k j : nat) :
  (j < base)%nat -> sampleUuidFrom base k ≠ "uuid-" +:+ JS.ofNat j.
Proof. unfold sampleUuidFrom. intros Hj H%String.app_inj%ofNat_inj. lia. Qed.

Lemma sampleUuidFrom_not_a (base k : nat) : sampleUuidFrom base k ≠ "a".
Proof. unfold sampleUuidFrom. discriminate. Qed.

Lemma undo_redo_inverse_up_to_dates_witness :
  ∃ acts,
    undoStack afterRenameMoveTrash = undoStack (sampleState [placedFile]) ++ acts
    ∧ ∀ us rs, length us = length acts -> length rs = length acts ->
        (alike true true (files (undoAll us afterRenameMoveTrash)) [placedFile]
         ∧ undoStack (undoAll us afterRenameMoveTrash) = [])
        ∧ (alike true false (files (redoAll rs (undoAll us afterRenameMoveTrash)))
             (files afterRenameMoveTrash)
           ∧ undoStack (redoAll rs (undoAll us afterRenameMoveTrash))
             = undoStack afterRenameMoveTrash
           ∧ redoStack (redoAll rs (undoAll us afterRenameMoveTrash))
             = redoStack afterRenameMoveTrash).
Proof.
  apply (undo_redo_inverse_up_to_dates true false renameMoveTrash
           (sampleState [placedFile]) afterRenameMoveTrash).
  - unfold renameMoveTrash.
    eapply reversibleRun_cons; [vm_compute; reflexivity|done|].
    eapply reversibleRun_cons; [vm_compute; reflexivity|done|].
    eapply reversibleRun_cons; [vm_compute; reflexivity|reflexivity|].
    eapply reversibleRun_cons; [vm_compute; reflexivity| |done].
    split; [done|]. intros f Hf Hin. apply list_elem_of_singleton in Hin.
    cbn [files] in Hf. apply elem_of_cons in Hf as [->|Hf].
    + repeat split; try done. by exists "uuid-0".
    + apply list_elem_of_singleton in Hf as ->. done.
  - apply NoDup_singleton.
  - unfold renameMoveTrash.
    eapply freshRun_cons; [vm_compute; reflexivity|apply sampleUuidFrom_inj| |].
    { intros k Hin. change (sampleUuidFrom 0 k ∈ ["a"]) in Hin.
      apply list_elem_of_singleton in Hin. by apply sampleUuidFrom_not_a in Hin. }
    eapply freshRun_cons; [vm_compute; reflexivity|apply sampleUuidFrom_inj| |].
    { intros k Hin. change (sampleUuidFrom 0 k ∈ ["a"]) in Hin.
      apply list_elem_of_singleton in Hin. by apply sampleUuidFrom_not_a in Hin. }
    eapply freshRun_cons; [vm_compute; reflexivity|apply sampleUuidFrom_inj| |].
    { intros k Hin. change (sampleUuidFrom 1 k ∈ ["a"; "uuid-" +:+ JS.ofNat 0]) in Hin.
      apply elem_of_cons in Hin as [Hin|Hin%list_elem_of_singleton].
      + by apply sampleUuidFrom_not_a in Hin.
      + apply (sampleUuidFrom_above 1 k 0) in Hin; [done|lia]. }
    eapply freshRun_cons; [vm_compute; reflexivity|apply sampleUuidFrom_inj| |done].
    intros k Hin. change (sampleUuidFrom 1 k ∈ ["a"; "uuid-" +:+ JS.ofNat 0]) in Hin.
    apply elem_of_cons in Hin as [Hin|Hin%list_elem_of_singleton].
    + by apply sampleUuidFrom_not_a in Hin.
    + apply (sampleUuidFrom_above 1 k 0) in Hin; [done|lia].
  - vm_compute. reflexivity.
Defined.

(** A move whose update React defers rewrites the item and commits
    nothing, so that an undo finds nothing to revert. *)
Example deferred_move_is_not_recorded :
  let s := sampleState [placedFile; sampleItem "d" (Some "root") "Docs" FOLDER 2] in
  ∃ s', handleMoveFile false 8 "a" "d" None 5 s = Some s'
        ∧ parentId <$> files s' = [Some "d"; Some "root"]
        ∧ undoStack s' = []
        ∧ files (performUndo 6 s') = files s'.
Proof. eexists. by repeat split. Qed.

(** Undo of a restore sends the item back to the trash without its origin:
    the payload of the action holds identifiers only, so a second restore
    lands on the desktop and not in Documents. *)
Example undo_of_restore_forgets_origin :
  let s1 := performUndo 6 (handleRestoreFile ["n"] 5 (sampleState [trashedNote])) in
  (λ f, (parentId f, trashData f ≫= originalParentId)) <$> files s1
  = [(Some "trash", None)]
  ∧ parentId <$> files (handleRestoreFile ["n"] 7 s1) = [Some "root"].
Proof. split; reflexivity. Qed.

(** An undone permanent delete puts the item back at the end of the
    collection, which is why deletes are compared as multisets. *)
Example undo_delete_reorders :
  let s := sampleState [sampleItem "a" (Some "trash") "a.txt" TEXT 1;
                        sampleItem "b" (Some "root") "b.txt" TEXT 2] in
  id <$> files (performUndo 6 (handlePermanentDelete ["a"] 5 s)) = ["b"; "a"]
  ∧ alike false true (files (performUndo 6 (handlePermanentDelete ["a"] 5 s))) (files s)
  ∧ ¬ alike true true (files (performUndo 6 (handlePermanentDelete ["a"] 5 s))) (files s).
Proof.
  split; [reflexivity|]. split.
  - apply Permutation_swap.
  - intros H. vm_compute in H. discriminate.
Qed.

(** The three actions of that run, undone: the file is back on the desktop
    under its old name, and keeps the date of the move. *)
Example undo_rename_create_move :
  length (undoStack afterRenameCreateMove) = 3%nat
  ∧ files (undoAll [8; 9; 10] afterRenameCreateMove) = [withDateModified 7 placedFile].
Proof. split; vm_compute; reflexivity. Qed.

(** * Further properties

    Properties of the functions of App.tsx and of the components that call
    them which the statements above do not reach. *)

(** ** Paths *)

Lemma linked_cons (fs : list FileSystemItem) (c : FileSystemItem)
    (acc : list FileSystemItem) :
  linked fs acc ->
  match acc with
  | b :: _ => ∃ p, parentId b = Some p ∧ findById p fs = Some c
  | [] => True
  end ->
  linked fs (c :: acc).
Proof.
  destruct acc as [|b acc]; [done|]. intros Hl (p & Hp & Hfind). simpl.
  destruct (findById_Some _ _ _ Hfind) as [_ Hid]. subst p. by rewrite Hp.
Qed.

Lemma climbPath_sound (fs : list FileSystemItem) :
  ∀ (k : nat) (cur : option FileSystemItem) (acc r : list FileSystemItem),
    climbPath k fs cur acc = Some r ->
    linked fs acc ->
    match acc with
    | b :: _ => ∃ p, parentId b = Some p ∧ findById p fs = cur
    | [] => True
    end ->
    ∃ chain,
      r = chain ++ acc
      ∧ linked fs r
      ∧ rooted fs cur (length chain)
      ∧ (∀ c, cur = Some c -> ∃ above, chain = above ++ [c])
      ∧ (∀ h, head chain = Some h ->
           parentId h = None ∨ parentId h = Some "" ∨ parentId h = Some TRASH_ID
           ∨ ∃ p, parentId h = Some p ∧ findById p fs = None).
Proof.
  induction k as [|k IH]; intros cur acc r Hrun Hl Hj; [done|]. simpl in Hrun.
  destruct cur as [c|]; [|simplify_eq; exists []; repeat split; [done|constructor|done..]].
  assert (Hlc : linked fs (c :: acc)) by (apply linked_cons; [done|by destruct acc]).
  assert (Hstop : parentId c = None ∨ parentId c = Some "" ∨ parentId c = Some TRASH_ID ->
                  r = c :: acc ->
                  ∃ chain, r = chain ++ acc ∧ linked fs r ∧ rooted fs (Some c) (length chain)
                    ∧ (∀ c0, Some c = Some c0 -> ∃ above, chain = above ++ [c0])
                    ∧ (∀ h, head chain = Some h ->
                         parentId h = None ∨ parentId h = Some "" ∨ parentId h = Some TRASH_ID
                         ∨ ∃ p, parentId h = Some p ∧ findById p fs = None)).
  { intros Hp ->. exists [c]. split; [done|]. split; [done|].
    split; [by constructor|]. split.
    - intros c0 [= <-]. by exists [].
    - intros h [= <-]. destruct Hp as [?|[?|?]]; auto. }
  destruct (parentId c) as [p|] eqn:Hp; [|simplify_eq; apply Hstop; auto].
  destruct (decide (p = "")) as [->|Hp0]; [simplify_eq; apply Hstop; auto|].
  destruct (decide (p = TRASH_ID)) as [->|Hpt]; [simplify_eq; apply Hstop; auto|].
  destruct (IH _ _ _ Hrun Hlc) as (chain & -> & Hlr & Hroot & Hlast & Hhead); [by eauto|].
  exists (chain ++ [c]). rewrite <- app_assoc. split; [done|]. split; [done|].
  split; [|split].
  - rewrite length_app, Nat.add_comm. simpl. by eapply rooted_up.
  - intros c0 [= <-]. by exists chain.
  - destruct chain as [|h chain]; simpl.
    + intros h [= <-]. inversion Hroot as [Hnone| |]. right. right. right. eauto.
    + intros h0 [= <-]. by apply Hhead.
Qed.

Lemma climbPath_complete (fs : list FileSystemItem) (cur : option FileSystemItem) (n : nat) :
  rooted fs cur n ->
  ∀ k acc, (n < k)%nat -> ∃ chain, climbPath k fs cur acc = Some (chain ++ acc)
                                   ∧ length chain = n.
Proof.
  induction 1 as [|c Hp|c p n Hp Hp0 Hpt _ IH]; intros [|k] acc Hk; try lia; simpl.
  - by exists [].
  - exists [c]. split; [|done]. destruct Hp as [->|[->| ->]]; by repeat case_match.
  - rewrite Hp, decide_False, decide_False by done.
    destruct (IH k (c :: acc)) as (chain & -> & Hlen); [lia|].
    exists (chain ++ [c]). rewrite <- app_assoc. split; [done|].
    rewrite length_app. simpl. lia.
Qed.

(** What [getPath] returns for a real folder is the chain of its ancestors
    from the top down to the folder itself: every item is the parent of the
    next, the last one is the folder, the first one has no parent that the
    collection holds outside the trash.  The walk ends whenever that chain
    is finite, and the path is empty for an unknown folder. *)
Theorem getPath_is_the_ancestor_chain (k : nat) (t : Z) (fs : list FileSystemItem)
    (folder : string) :
  JS.startsWith "tag:" folder = false -> folder ≠ TRASH_ID ->
  (∀ path, getPath k t fs folder = Some path ->
     linked fs path
     ∧ (∀ f, f ∈ path -> f ∈ fs)
     ∧ (findById folder fs = None -> path = [])
     ∧ (∀ c, findById folder fs = Some c -> last path = Some c)
     ∧ (∀ h, head path = Some h ->
          parentId h = None ∨ parentId h = Some "" ∨ parentId h = Some TRASH_ID
          ∨ ∃ p, parentId h = Some p ∧ findById p fs = None))
  ∧ (∀ n, rooted fs (findById folder fs) n -> (n < k)%nat ->
       ∃ path, getPath k t fs folder = Some path ∧ length path = n).
Proof.
  intros Htag Htr. unfold getPath. rewrite Htag, decide_False by done. split.
  - intros path Hrun.
    destruct (climbPath_sound fs k _ [] path Hrun I I)
      as (chain & -> & Hl & Hroot & Hlast & Hhead).
    rewrite app_nil_r in *. split; [done|]. split; [|split; [|split]].
    + assert (Hall : ∀ l, linked fs l ->
                (∀ c, last l = Some c -> c ∈ fs) -> ∀ f, f ∈ l -> f ∈ fs).
      { induction l as [|a [|b l] IH]; intros Hlk Hlastl f Hf.
        - by apply elem_of_nil in Hf.
        - apply list_elem_of_singleton in Hf as ->. by apply Hlastl.
        - destruct Hlk as (_ & Hfind & Hrest).
          apply elem_of_cons in Hf as [->|Hf]; [by apply findById_Some in Hfind as [? _]|].
          apply IH; [done| |done]. intros c Hc. by apply Hlastl. }
      apply Hall; [done|]. intros c Hc.
      destruct (findById folder fs) as [c0|] eqn:Hf.
      * destruct (Hlast c0 eq_refl) as (above & ->). rewrite last_snoc in Hc.
        simplify_eq. by apply findById_Some in Hf as [? _].
      * inversion Hroot as [Hlen| |]. by destruct chain.
    + intros Hnone. rewrite Hnone in Hroot. inversion Hroot. by destruct chain.
    + intros c Hc. destruct (Hlast c Hc) as (above & ->). by rewrite last_snoc.
    + done.
  - intros n Hroot Hn. destruct (climbPath_complete fs _ n Hroot k [] Hn) as (chain & Hrun & Hlen).
    exists chain. by rewrite app_nil_r in Hrun.
Qed.

Lemma getPath_is_the_ancestor_chain_witness :
  ∃ path, getPath 8 0 sampleTree "proj" = Some path ∧ length path = 3%nat.
Proof.
  apply (proj2 (getPath_is_the_ancestor_chain 8 0 sampleTree "proj"
                  eq_refl ltac:(discriminate)) 3%nat); [|lia].
  change (findById "proj" sampleTree)
    with (Some (sampleItem "proj" (Some "docs") "Project Alpha" FOLDER 0)).
  eapply rooted_up; [reflexivity|discriminate|discriminate|].
  change (findById "docs" sampleTree)
    with (Some (sampleItem "docs" (Some "root") "Documents" FOLDER 1)).
  eapply rooted_up; [reflexivity|discriminate|discriminate|].
  change (findById "root" sampleTree) with (Some systemRoot).
  apply rooted_top. by left.
Defined.

Example getPath_of_project :
  (λ p : list FileSystemItem, id <$> p) <$> getPath 8 0 sampleTree "proj"
    = Some ["root"; "docs"; "proj"]
  ∧ getPath 8 0 sampleTree "tag:red" = Some []
  ∧ (λ p : list FileSystemItem, name <$> p) <$> getPath 8 0 sampleTree "trash"
    = Some ["Trash"].
Proof. repeat split. Qed.

Lemma self_parent_not_rooted (fs : list FileSystemItem) (c : FileSystemItem) (n : nat) :
  findById (id c) fs = Some c -> parentId c = Some (id c) ->
  id c ≠ "" -> id c ≠ TRASH_ID ->
  ¬ rooted fs (Some c) n.
Proof.
  intros Hfind Hp H0 Ht. induction n as [|n IH]; intros Hr.
  - inversion Hr.
  - inversion Hr as [|? [?|[?|?]]|? p ? Hp' _ _ Hup]; simplify_eq.
    rewrite Hfind in Hup. by apply IH.
Qed.

Lemma two_cycle_not_rooted (fs : list FileSystemItem) (c d : FileSystemItem) (n : nat) :
  findById (id c) fs = Some c -> findById (id d) fs = Some d ->
  parentId c = Some (id d) -> parentId d = Some (id c) ->
  id c ≠ "" -> id c ≠ TRASH_ID -> id d ≠ "" -> id d ≠ TRASH_ID ->
  ¬ rooted fs (Some c) n ∧ ¬ rooted fs (Some d) n.
Proof.
  intros Hc Hd Hpc Hpd ? ? ? ?. induction n as [|n [IHc IHd]]; split; intros Hr.
  - inversion Hr.
  - inversion Hr.
  - inversion Hr as [|? [?|[?|?]]|? p ? Hp' _ _ Hup]; simplify_eq.
    rewrite Hd in Hup. by apply IHd.
  - inversion Hr as [|? [?|[?|?]]|? p ? Hp' _ _ Hup]; simplify_eq.
    rewrite Hc in Hup. by apply IHc.
Qed.

(** [getPath] returns only when the chain of parents of the folder is
    finite.  For a folder that is its own parent, or one of two folders
    that are each other's parent, the loop never ends whatever the bound:
    this is what a Finder window meets after the move of claim C2. *)
Theorem getPath_loops_on_a_parent_cycle (k : nat) (t : Z) (fs : list FileSystemItem)
    (c : FileSystemItem) :
  JS.startsWith "tag:" (id c) = false -> id c ≠ TRASH_ID -> id c ≠ "" ->
  findById (id c) fs = Some c ->
  (∀ path, getPath k t fs (id c) = Some path -> rooted fs (Some c) (length path))
  ∧ (parentId c = Some (id c) -> getPath k t fs (id c) = None)
  ∧ (∀ d, findById (id d) fs = Some d -> id d ≠ "" -> id d ≠ TRASH_ID ->
       parentId c = Some (id d) -> parentId d = Some (id c) ->
       getPath k t fs (id c) = None).
Proof.
  intros Htag Htr H0 Hfind.
  assert (Hret : ∀ path, getPath k t fs (id c) = Some path ->
                   rooted fs (Some c) (length path)).
  { intros path. unfold getPath. rewrite Htag, decide_False, Hfind by done. intros Hrun.
    destruct (climbPath_sound fs k _ [] path Hrun I I) as (chain & -> & _ & Hroot & _).
    by rewrite app_nil_r. }
  split; [done|]. split.
  - intros Hp. destruct (getPath k t fs (id c)) as [path|]; [|done].
    specialize (Hret path eq_refl). by apply self_parent_not_rooted in Hret.
  - intros d Hd Hd0 Hdt Hpc Hpd.
    destruct (getPath k t fs (id c)) as [path|]; [|done].
    specialize (Hret path eq_refl).
    by destruct (two_cycle_not_rooted fs c d (length path)).
Qed.

Lemma getPath_loops_on_a_parent_cycle_witness :
  getPath 1000 0 (files folderInsideItself) "A" = None.
Proof.
  apply (proj1 (proj2 (getPath_loops_on_a_parent_cycle 1000 0 (files folderInsideItself)
                         (withDateModified 5
                            (withOrder 1
                               (withParentId (Some "A")
                                  (sampleItem "A" (Some "root") "A" FOLDER 1))))
                         eq_refl ltac:(discriminate) ltac:(discriminate) eq_refl))).
  reflexivity.
Defined.

(** ** The icons of the desktop *)

Lemma insertBy_perm {A : Type} (cmp : A -> A -> Z) (a : A) (l : list A) :
  insertBy cmp a l ≡ₚ a :: l.
Proof.
  induction l as [|b r IH]; simpl; [done|].
  destruct (cmp a b <=? 0); [done|]. rewrite IH. apply Permutation_swap.
Qed.

Lemma sortBy_perm {A : Type} (cmp : A -> A -> Z) (l : list A) :
  sortBy cmp l ≡ₚ l.
Proof.
  induction l as [|a l IH]; simpl; [done|].
  unfold sortBy in *. simpl. by rewrite insertBy_perm, IH.
Qed.

Lemma insertBy_sorted (a : FileSystemItem) (l : list FileSystemItem) :
  StronglySorted orderLe l -> StronglySorted orderLe (insertBy byOrder a l).
Proof.
  induction l as [|b r IH]; simpl; intros Hs.
  - repeat constructor.
  - inversion Hs as [|? ? Hr Hall]; subst.
    change (byOrder a b) with (order a - order b).
    destruct (Z.leb_spec (order a - order b) 0) as [Hle|Hgt].
    + constructor; [done|]. constructor; [unfold orderLe; lia|].
      eapply Forall_impl; [exact Hall|]. unfold orderLe. intros; lia.
    + constructor; [by apply IH|].
      rewrite (insertBy_perm byOrder a r). constructor; [unfold orderLe; lia|done].
Qed.

Lemma sortBy_sorted (l : list FileSystemItem) :
  StronglySorted orderLe (sortBy byOrder l).
Proof.
  induction l as [|a l IH]; [constructor|]. by apply insertBy_sorted.
Qed.

Lemma insertBy_stable (k : Z) (a : FileSystemItem) (l : list FileSystemItem) :
  filter (λ f, order f = k) (insertBy byOrder a l)
  = filter (λ f, order f = k) (a :: l).
Proof.
  induction l as [|b r IH]; simpl; [done|].
  change (byOrder a b) with (order a - order b).
  destruct (Z.leb_spec (order a - order b) 0) as [Hle|Hgt]; [done|].
  rewrite !filter_cons, IH, filter_cons.
  repeat case_decide; try done; lia.
Qed.

Lemma sortBy_stable (k : Z) (l : list FileSystemItem) :
  filter (λ f, order f = k) (sortBy byOrder l) = filter (λ f, order f = k) l.
Proof.
  induction l as [|a l IH]; [done|].
  change (sortBy byOrder (a :: l)) with (insertBy byOrder a (sortBy byOrder l)).
  by rewrite insertBy_stable, !filter_cons, IH.
Qed.

(** The icons drawn on the desktop are exactly the items of the collection
    that sit directly on ['root'], are not the root entry itself and are
    visible to the current user; they come by ascending [order], and items
    of equal order keep the relative order they have in the collection.
    Nobody logged in means no icon; an administrator gets every child of
    the root whatever its [visibleTo]. *)
Theorem desktopIcons_sorted_visible_children (s : AppState) :
  desktopIcons s
    ≡ₚ filter (λ f, isFileVisible (currentUser s) f = true
                    ∧ parentId f = Some "root" ∧ id f ≠ "root") (files s)
  ∧ StronglySorted orderLe (desktopIcons s)
  ∧ (∀ k, filter (λ f, order f = k) (desktopIcons s)
          = filter (λ f, order f = k ∧ isFileVisible (currentUser s) f = true
                         ∧ parentId f = Some "root" ∧ id f ≠ "root") (files s))
  ∧ (currentUser s = None -> desktopIcons s = [])
  ∧ (∀ u, currentUser s = Some u -> role u = ADMIN ->
       desktopIcons s
         ≡ₚ filter (λ f, parentId f = Some "root" ∧ id f ≠ "root") (files s)).
Proof.
  assert (Hfil : filter (λ f, parentId f = Some "root" ∧ id f ≠ "root") (visibleFiles s)
                 = filter (λ f, isFileVisible (currentUser s) f = true
                                ∧ parentId f = Some "root" ∧ id f ≠ "root") (files s)).
  { unfold visibleFiles. rewrite list_filter_filter.
    apply list_filter_iff. intros f. tauto. }
  unfold desktopIcons. rewrite Hfil. split; [apply sortBy_perm|].
  split; [apply sortBy_sorted|]. split.
  { intros k. rewrite sortBy_stable, list_filter_filter.
    apply list_filter_iff. intros f. tauto. }
  split.
  - intros Hnone. rewrite Hnone.
    assert (Hempty : filter (λ f, isFileVisible None f = true
                            ∧ parentId f = Some "root" ∧ id f ≠ "root") (files s) = []).
    { generalize (files s). intros l. induction l as [|f l IH]; [done|].
      rewrite filter_cons. case_decide as Hd; [by destruct Hd|done]. }
    by rewrite Hempty.
  - intros u Hu Hadmin. rewrite sortBy_perm, Hu.
    erewrite list_filter_iff; [done|].
    intros f. unfold isFileVisible. rewrite decide_True by done. tauto.
Qed.

Lemma desktopIcons_sorted_visible_children_witness :
  desktopIcons oneFileAdmin
    ≡ₚ filter (λ f, parentId f = Some "root" ∧ id f ≠ "root") (files oneFileAdmin).
Proof.
  apply (proj2 (proj2 (proj2 (proj2 (desktopIcons_sorted_visible_children oneFileAdmin))))
           {| userId := "u_admin"; role := ADMIN |}); reflexivity.
Defined.

Lemma grid_index (n a b q r : nat) :
  (0 < n)%nat -> (a `div` n = q)%nat -> (a `mod` n = r)%nat ->
  (b `div` n = q)%nat -> (b `mod` n = r)%nat -> a = b.
Proof.
  intros Hn Hqa Hra Hqb Hrb.
  rewrite (Nat.div_mod_eq a n), (Nat.div_mod_eq b n). congruence.
Qed.

(** An icon with a stored position is drawn there whatever its index.  The
    icons without one are laid out on a grid on which two different
    indices never get the same place, in the narrow layout (four columns
    from the top left) and in the wide one (columns of six from the right
    edge); in the narrow layout no coordinate is negative. *)
Theorem getIconPosition_grid (w : Z) (f g : FileSystemItem) (i j : nat) :
  (∀ p, position f = Some p -> getIconPosition w f i = p)
  ∧ (position f = None -> position g = None ->
     getIconPosition w f i = getIconPosition w g j -> i = j)
  ∧ (position f = None -> w < 768 ->
     20 <= x (getIconPosition w f i) <= 260 ∧ 60 <= y (getIconPosition w f i)).
Proof.
  unfold getIconPosition. split; [by intros p ->|]. split.
  - intros -> ->. destruct (w <? 768); intros Heq;
      pose proof (f_equal x Heq) as Hx; pose proof (f_equal y Heq) as Hy;
      cbn [x y] in Hx, Hy.
    + apply (grid_index 4 i j (j `div` 4) (j `mod` 4))%nat; lia.
    + apply (grid_index 6 i j (j `div` 6) (j `mod` 6))%nat; lia.
  - intros -> Hw. destruct (Z.ltb_spec w 768); [|lia]. cbn [x y].
    pose proof (Nat.mod_upper_bound i 4). lia.
Qed.

Lemma getIconPosition_grid_witness :
  getIconPosition 1280
    (withPosition (Some {| x := 300; y := 200 |})
       (sampleItem "a" (Some "root") "a" TEXT 0)) 7
  = {| x := 300; y := 200 |}.
Proof.
  apply (proj1 (getIconPosition_grid 1280
                  (withPosition (Some {| x := 300; y := 200 |})
                     (sampleItem "a" (Some "root") "a" TEXT 0))
                  (sampleItem "a" (Some "root") "a" TEXT 0) 7 7)).
  reflexivity.
Defined.

(** ** Moving into a folder *)

Lemma elem_of_uniq (x : string) (l seen : list string) :
  x ∈ JS.uniq seen l ↔ x ∈ l ∧ x ∉ seen.
Proof.
  revert seen. induction l as [|a l IH]; intros seen; simpl.
  - rewrite elem_of_nil. tauto.
  - case_bool_decide as Ha.
    + rewrite IH, elem_of_cons. split; [tauto|]. intros [[->|?] ?]; tauto.
    + rewrite !elem_of_cons, IH, not_elem_of_cons.
      destruct (decide (x = a)) as [->|Hne]; tauto.
Qed.

Lemma elem_of_dragSet (i src : string) (s : AppState) :
  i ∈ dragSet src s ↔ i = src ∨ (src ∈ selectedFileIds s ∧ i ∈ selectedFileIds s).
Proof.
  unfold dragSet. case_bool_decide as Hsel.
  - rewrite elem_of_uniq, elem_of_app, list_elem_of_singleton, elem_of_nil.
    split; [tauto|]. intros [->|[_ ?]]; tauto.
  - rewrite list_elem_of_singleton. tauto.
Qed.

Lemma fold_left_max_ge (r : list Z) (a : Z) :
  a <= fold_left Z.max r a ∧ ∀ x, x ∈ r -> x <= fold_left Z.max r a.
Proof.
  revert a. induction r as [|b r IH]; intros a; simpl.
  - split; [lia|]. intros x Hx. by apply elem_of_nil in Hx.
  - destruct (IH (Z.max a b)) as [Hge Hall]. split; [lia|].
    intros x [->|Hx]%elem_of_cons; [lia|by apply Hall].
Qed.

Lemma maxOr0_ge (l : list Z) (x : Z) : x ∈ l -> x <= JS.maxOr0 l.
Proof.
  destruct l as [|a r]; [by intros ?%elem_of_nil|].
  destruct (fold_left_max_ge r a) as [Hge Hall].
  intros [->|Hx]%elem_of_cons; simpl; [done|by apply Hall].
Qed.

(** The [prev.map] of a move, item by item: the [n]-th item is rewritten
    exactly when it is [shifted], and then gets the order [m + 1] plus the
    number of items rewritten before it. *)
Lemma moveItems_orders (ids : list string) (tgt : string) (pos : option Position) (t : Z) :
  ∀ (F : list FileSystemItem) (m : Z) (F1 : list FileSystemItem) (P : list MovedItem),
    moveItems ids tgt pos t m F = (F1, P) ->
    length P = length (filter (λ g, shifted ids tgt pos g = true) F)
    ∧ length F1 = length F
    ∧ ∀ n f, F !! n = Some f ->
        F1 !! n = Some (if shifted ids tgt pos f
                        then placed tgt pos t
                               (m + 1 + Z.of_nat (length (filter (λ g, shifted ids tgt pos g = true)
                                                            (take n F)))) f
                        else f).
Proof.
  induction F as [|f F IH]; intros m F1 P Hmove.
  - simpl in Hmove. simplify_eq. by repeat split.
  - cbn [moveItems] in Hmove. rewrite filter_cons.
    destruct (shifted ids tgt pos f) eqn:Hsh; pose proof Hsh as Hsh'; unfold shifted in Hsh'.
    + apply andb_true_iff in Hsh' as [Hin Hstay]. rewrite Hin in Hmove.
      apply negb_true_iff in Hstay. rewrite Hstay in Hmove.
      destruct (moveItems ids tgt pos t (m + 1) F) as [R1 P'] eqn:Hrest.
      simplify_eq. destruct (IH _ _ _ Hrest) as (HP & Hlen & Hnth).
      rewrite decide_True by done. simpl. split; [by rewrite HP|]. split; [by rewrite Hlen|].
      intros [|n] g Hg; simpl in *.
      * simplify_eq. rewrite Hsh. unfold placed. do 2 f_equal. f_equal. lia.
      * rewrite (Hnth n g Hg). rewrite filter_cons, decide_True by done.
        destruct (shifted ids tgt pos g); [|done]. simpl. do 2 f_equal. lia.
    + assert (Hkeep : ∃ R1, moveItems ids tgt pos t m F = (R1, P) ∧ F1 = f :: R1).
      { destruct (bool_decide (id f ∈ ids)); simpl in Hsh'.
        - apply negb_false_iff in Hsh'. rewrite Hsh' in Hmove.
          destruct (moveItems ids tgt pos t m F) as [R1 P']. simplify_eq. eauto.
        - destruct (moveItems ids tgt pos t m F) as [R1 P']. simplify_eq. eauto. }
      destruct Hkeep as (R1 & Hrest & ->).
      destruct (IH _ _ _ Hrest) as (HP & Hlen & Hnth).
      rewrite decide_False by done.
      split; [done|]. split; [simpl; by rewrite Hlen|].
      intros [|n] g Hg; simpl in *.
      * simplify_eq. by rewrite Hsh.
      * rewrite (Hnth n g Hg). rewrite filter_cons.
        by rewrite decide_False by (by rewrite Hsh).
Qed.

(** Take a move in which source and target differ, the target is not the
    trash, no permission is missing and the walk from the target upwards
    ends within the fuel without meeting the source.  It moves the dragged
    item, or the whole selection when the dragged item belongs to it; items
    already in the target stay as they are unless a position comes with
    the drop.  The moved items become children of the target, take the
    position of the drop and the time of the move, and are numbered from
    one above the largest order among the children the target had (from 1
    when it had none), in the order of the collection; every other item is
    left as it was.  When no item is rewritten the state is as it was.
    When some are, one MOVE is committed and the redo stack emptied if
    React runs the update at once; if it defers the update, both stacks
    stay as they were. *)
Theorem move_appends_after_target_children (eg : bool) (k : nat) (src tgt : string)
    (pos : option Position) (t : Z) (s : AppState) :
  src ≠ tgt -> tgt ≠ TRASH_ID ->
  itemDenied s src = false -> targetDenied s tgt = false ->
  reachesSource k (files s) src (findById tgt (files s)) = Some false ->
  let ids := dragSet src s in
  let top := JS.maxOr0 (order <$> childrenOf tgt (files s)) in
  let count := length (filter (λ g, shifted ids tgt pos g = true) (files s)) in
  ∃ s', handleMoveFile eg k src tgt pos t s = Some s'
    ∧ (∀ i, i ∈ ids ↔ i = src ∨ (src ∈ selectedFileIds s ∧ i ∈ selectedFileIds s))
    ∧ (∀ c, c ∈ childrenOf tgt (files s) -> order c <= top)
    ∧ length (files s') = length (files s)
    ∧ (∀ n f, files s !! n = Some f ->
         files s' !! n
         = Some (if shifted ids tgt pos f
                 then placed tgt pos t
                        (top + 1 + Z.of_nat (length (filter (λ g, shifted ids tgt pos g = true)
                                                       (take n (files s))))) f
                 else f))
    ∧ (count = 0%nat -> s' = s)
    ∧ (count ≠ 0%nat -> eg = true ->
       ∃ P, length P = count
         ∧ undoStack s' = undoStack s
             ++ [{| payload := MOVE P;
                    description := "Move " +:+ JS.ofNat count +:+ " item"
                                     +:+ (if (1 <? count)%nat then "s" else "");
                    timestamp := t |}]
         ∧ redoStack s' = [])
    ∧ (eg = false -> undoStack s' = undoStack s ∧ redoStack s' = redoStack s).
Proof.
  intros Hne Htr Hsrc Htgt Hwalk ids top count.
  unfold handleMoveFile.
  rewrite decide_False, Hsrc, (decide_False (P := tgt = TRASH_ID)), Htgt, Hwalk by done.
  fold (dragSet src s). fold ids. fold top.
  destruct (moveItems ids tgt pos t top (files s)) as [F1 P] eqn:Hmove.
  destruct (moveItems_orders ids tgt pos t _ _ _ _ Hmove) as (HP & Hlen & Hnth).
  fold count in HP.
  assert (Hids : ∀ i, i ∈ ids ↔ i = src ∨ (src ∈ selectedFileIds s ∧ i ∈ selectedFileIds s))
    by (intros; apply elem_of_dragSet).
  assert (Htop : ∀ c, c ∈ childrenOf tgt (files s) -> order c <= top)
    by (intros c Hc; apply maxOr0_ge; by apply list_elem_of_fmap_2).
  destruct P as [|e P].
  - eexists. split; [done|]. simpl in *. repeat (split; [done|]). split.
    + intros _. rewrite <- (setFiles_same s) at 2. f_equal.
      apply list_eq. intros n. destruct (files s !! n) as [f|] eqn:Hf.
      * rewrite (Hnth n f Hf). destruct (shifted ids tgt pos f) eqn:Hsh; [|done].
        exfalso. apply list_elem_of_lookup_2 in Hf.
        assert (Hin : f ∈ filter (λ g, shifted ids tgt pos g = true) (files s))
          by (by apply list_elem_of_filter).
        fold count in HP. destruct (filter _ (files s)); [by apply elem_of_nil in Hin|done].
      * apply lookup_ge_None. apply lookup_ge_None in Hf. lia.
    + split; [|done]. intros Hc. by rewrite <- HP in Hc.
  - destruct eg.
    + eexists. split; [done|]. simpl files. repeat (split; [done|]). split.
      * intros Hc. rewrite <- HP in Hc. done.
      * split; [|done]. intros _ _. exists (e :: P). rewrite <- HP. by repeat split.
    + eexists. split; [done|]. simpl files. repeat (split; [done|]). split.
      * intros Hc. rewrite <- HP in Hc. done.
      * split; [done|]. by intros _.
Qed.

Lemma move_appends_after_target_children_witness :
  ∃ s', handleMoveFile false 8 "script1" "docs" None 9 (sampleState sampleTree) = Some s'
        ∧ files s' !! 3%nat
          = Some (placed "docs" None 9 1 (sampleItem "script1" (Some "proj") "main.tsx" CODE 0)).
Proof.
  destruct (move_appends_after_target_children false 8 "script1" "docs" None 9
              (sampleState sampleTree)
              ltac:(discriminate) ltac:(discriminate) eq_refl eq_refl eq_refl)
    as (s' & Hrun & _ & _ & _ & Hnth & _).
  exists s'. split; [exact Hrun|].
  exact (Hnth 3%nat (sampleItem "script1" (Some "proj") "main.tsx" CODE 0) eq_refl).
Defined.

(** ** Dropping on the desktop *)

(** [find] through a rewriting of the items that keeps identifiers. *)
Lemma findById_pointwise (i : string) :
  ∀ (F F1 : list FileSystemItem) (h : nat -> FileSystemItem -> FileSystemItem),
    (∀ n f, F !! n = Some f -> F1 !! n = Some (h n f)) ->
    (∀ n f, id (h n f) = id f) ->
    ∀ f, findById i F = Some f ->
      ∃ n, F !! n = Some f ∧ findById i F1 = Some (h n f).
Proof.
  induction F as [|g F IH]; intros F1 h Hnth Hid f Hfind; [done|].
  destruct F1 as [|g1 R1]; [by specialize (Hnth 0%nat g eq_refl)|].
  pose proof (Hnth 0%nat g eq_refl) as H0. simpl in H0. simplify_eq.
  unfold findById in *. simpl in *. rewrite Hid.
  destruct (bool_decide (id g = i)).
  - simplify_eq. by exists 0%nat.
  - destruct (IH R1 (λ n, h (S n)) (λ n f', Hnth (S n) f') (λ n, Hid (S n)) f Hfind)
      as (n & Hn & Hf).
    by exists (S n).
Qed.



(** ** The permission guard *)

(** A command that names an item the current user may not see changes
    nothing but the notification.  The item may be named as the item to
    rename, to drag, to reposition, to swap (on either side) or among the
    items to move to the trash; or as the folder to drop into (when it is
    neither ['root'] nor the trash), to upload into, or, being the active
    folder, to paste or create a folder into (when it is not ['root'], for
    which the handlers make no test).  Such a command leaves the
    collection, the history, the selection and the clipboard as they were,
    and either returns silently or raises an error notification.  The
    guard looks at the items a command names and at no other: a hidden
    item that is selected together with the dragged item, itself visible,
    is moved with it into the target folder. *)
Theorem hidden_item_is_guarded_when_named (e : Env) (c : Command) (s : AppState)
    (i : string) (f : FileSystemItem) :
  findById i (files s) = Some f ->
  hasPermission (currentUser s) f = false ->
  (aims s i c ->
   ∃ s', run e c s = Some s'
     ∧ (s' = s ∨ ∃ m, s' = showNotification m true s)
     ∧ files s' = files s ∧ historyUntouched s s'
     ∧ selectedFileIds s' = selectedFileIds s ∧ clipboard s' = clipboard s)
  ∧ (∀ src tgt pos n,
       files s !! n = Some f ->
       src ≠ tgt -> tgt ≠ TRASH_ID ->
       itemDenied s src = false -> targetDenied s tgt = false ->
       reachesSource (fuel e) (files s) src (findById tgt (files s)) = Some false ->
       src ∈ selectedFileIds s -> i ∈ selectedFileIds s ->
       parentId f ≠ Some tgt ->
       ∃ s' f', run e (Move src tgt pos) s = Some s'
         ∧ files s' !! n = Some f'
         ∧ id f' = i ∧ parentId f' = Some tgt ∧ visibleTo f' = visibleTo f).
Proof.
  intros Hfind Hperm. split.
  - intros Haims.
    assert (Hden : itemDenied s i = true) by (unfold itemDenied; by rewrite Hfind, Hperm).
    assert (Hstep : ∃ s', run e c s = Some s'
                          ∧ (s' = s ∨ ∃ m, s' = showNotification m true s)).
    { destruct Haims as [n|tgt p|src p Hr Ht|p|j|j|l Hl|fl Hr|Ha Hr|Ha Hr]; simpl.
      - unfold handleRenameConfirm. rewrite Hfind, Hperm. simpl.
        case_decide; eauto.
      - unfold handleMoveFile. rewrite Hden. case_decide; eauto.
      - unfold handleMoveFile, targetDenied.
        rewrite (decide_False (P := i = TRASH_ID)), (decide_False (P := i = "root")), Hden
          by done.
        repeat case_match; eauto.
      - unfold handleReposition. rewrite Hfind, Hperm. eauto.
      - unfold handleSwapFile. rewrite Hfind, Hperm. simpl. case_match; eauto.
      - unfold handleSwapFile. rewrite Hfind, Hperm.
        destruct (findById j (files s)); [|eauto]. rewrite orb_true_r. eauto.
      - unfold handleMoveToTrash.
        assert (Hex : existsb (λ g, negb (hasPermission (currentUser s) g))
                        (filter (λ g, id g ∈ l) (files s)) = true).
        { apply existsb_exists. exists f.
          destruct (findById_Some _ _ _ Hfind) as [Hin Hid].
          split; [|by rewrite Hperm].
          apply list_elem_of_In, list_elem_of_filter. by rewrite Hid. }
        rewrite Hex. eauto.
      - unfold handleUpload, targetDenied.
        rewrite (decide_False (P := i = "root")), Hden by done. case_decide; eauto.
      - unfold handlePaste, targetDenied. rewrite Ha.
        rewrite (decide_False (P := i = "root")), Hden by done.
        repeat case_match; eauto.
      - unfold handleNewFolderAction, targetDenied. rewrite Ha.
        rewrite (decide_False (P := i = "root")), Hden by done.
        repeat case_match; eauto. }
    destruct Hstep as (s' & Hrun & Hs'). exists s'. split; [done|]. split; [done|].
    by destruct Hs' as [->|[m ->]].
  - intros src tgt pos n Hn Hne Htr Hsrc Htgt Hwalk Hsel Hi Hp.
    destruct (findById_Some _ _ _ Hfind) as [_ Hid].
    cbn [run]. unfold handleMoveFile.
    rewrite (decide_False (P := src = tgt)), Hsrc, (decide_False (P := tgt = TRASH_ID)),
      Htgt, Hwalk by done.
    fold (dragSet src s). set (ids := dragSet src s).
    set (top := JS.maxOr0 (order <$> childrenOf tgt (files s))).
    destruct (moveItems ids tgt pos (now e) top (files s)) as [F1 P] eqn:Hmove.
    destruct (moveItems_orders ids tgt pos (now e) _ _ _ _ Hmove) as (_ & _ & Hnth).
    assert (Hsh : shifted ids tgt pos f = true).
    { unfold shifted. rewrite bool_decide_eq_true_2.
      - by rewrite (bool_decide_eq_false_2 (parentId f = Some tgt)).
      - apply elem_of_dragSet. right. by rewrite Hid. }
    specialize (Hnth n f Hn). rewrite Hsh in Hnth.
    destruct P as [|m P]; [|destruct (eager e)]; eexists _, _;
      (split; [done|split; [exact Hnth|done]]).
Qed.

Lemma hidden_item_is_guarded_when_named_witness :
  (∃ s', run (sampleEnv 5) (MoveToTrash ["h"]) guardedSelection = Some s'
         ∧ files s' = files guardedSelection)
  ∧ (∃ s' f', run (sampleEnv 5) (Move "v" "d" None) guardedSelection = Some s'
       ∧ files s' !! 1%nat = Some f'
       ∧ id f' = "h" ∧ parentId f' = Some "d" ∧ visibleTo f' = []).
Proof.
  pose proof (hidden_item_is_guarded_when_named (sampleEnv 5) (MoveToTrash ["h"])
                guardedSelection "h"
                (withVisibleTo [] (sampleItem "h" (Some "root") "secret.txt" TEXT 2))
                eq_refl eq_refl) as [Hnamed Halong].
  split.
  - destruct (Hnamed ltac:(constructor; by left)) as (s' & Hrun & _ & Hfiles & _).
    by exists s'.
  - apply (Halong "v" "d" None 1%nat); try done.
    + apply (bool_decide_unpack _). by vm_compute.
    + apply (bool_decide_unpack _). by vm_compute.
Defined.

(** ** The trash *)

Lemma same_id_same_item (F : list FileSystemItem) (f g : FileSystemItem) :
  NoDup (id <$> F) -> f ∈ F -> g ∈ F -> id f = id g -> f = g.
Proof.
  intros Hnd Hf Hg Hid. apply (findById_same F f g Hnd Hf).
  rewrite Hid. by apply findById_unique.
Qed.

(** Empty Trash removes exactly the items whose parent is the trash and
    nothing else: the items inside a trashed folder, whose parent is that
    folder, stay in the collection.  It asks for no permission, so items
    hidden from the current user go as well.  On an empty trash it does
    nothing at all; otherwise it commits one DELETE that holds the removed
    items, empties the redo stack and the selection, and one undo brings
    the items back at the end of the collection. *)
Theorem empty_trash_removes_the_trashed (t t' : Z) (s : AppState) :
  NoDup (id <$> files s) ->
  let trashed := childrenOf TRASH_ID (files s) in
  let s' := handleEmptyTrash t s in
  files s' = filter (λ f, parentId f ≠ Some TRASH_ID) (files s)
  ∧ (trashed = [] -> s' = s)
  ∧ (trashed ≠ [] ->
     payload <$> last (undoStack s') = Some (DELETE trashed)
     ∧ length (undoStack s') = S (length (undoStack s))
     ∧ redoStack s' = [] ∧ selectedFileIds s' = []
     ∧ files (performUndo t' s')
       = filter (λ f, parentId f ≠ Some TRASH_ID) (files s) ++ trashed
     ∧ files (performUndo t' s') ≡ₚ files s).
Proof.
  intros Hnd trashed s'.
  assert (Hids : filter (λ f, id f ∉ id <$> trashed) (files s)
                 = filter (λ f, parentId f ≠ Some TRASH_ID) (files s)).
  { apply filter_same. intros f Hf. split.
    - intros Hnot Hp. apply Hnot. apply list_elem_of_fmap_2.
      by apply list_elem_of_filter.
    - intros Hp (g & Hid & [Hg Hin]%list_elem_of_filter)%list_elem_of_fmap.
      apply Hp. by rewrite (same_id_same_item (files s) f g Hnd Hf Hin Hid). }
  assert (Hsame : filter (λ f, id f ∈ id <$> trashed) (files s) = trashed).
  { apply filter_same. intros f Hf. split.
    - intros (g & Hid & [Hg Hin]%list_elem_of_filter)%list_elem_of_fmap.
      by rewrite (same_id_same_item (files s) f g Hnd Hf Hin Hid).
    - intros Hp. apply list_elem_of_fmap_2. by apply list_elem_of_filter. }
  assert (Hrun : trashed ≠ [] ->
            s' = showNotification "Trash emptied" false
                   (handlePermanentDelete (id <$> trashed) t s)).
  { unfold s', handleEmptyTrash. fold trashed. by destruct trashed. }
  assert (Hidle : trashed = [] -> s' = s).
  { unfold s', handleEmptyTrash. fold trashed. by intros ->. }
  assert (Htr : trashed = childrenOf TRASH_ID (files s)) by done.
  clearbody trashed s'.
  destruct (decide (trashed = [])) as [He|Hne].
  - rewrite (Hidle He). split; [|by split].
    symmetry. apply filter_all. intros f Hf Hp.
    assert (Hin : f ∈ childrenOf TRASH_ID (files s)) by (by apply list_elem_of_filter).
    rewrite <- Htr, He in Hin. by apply elem_of_nil in Hin.
  - rewrite (Hrun Hne). unfold performUndo, handlePermanentDelete.
    cbn [showNotification setNotification setSelectedFileIds
         setFiles commitAction setRedoStack setUndoStack files undoStack redoStack
         selectedFileIds].
    rewrite Hsame, last_snoc, length_app. simpl. rewrite Hids.
    split; [done|]. split; [done|]. intros _.
    repeat split; try done; [lia|].
    rewrite Htr. unfold childrenOf.
    rewrite Permutation_app_comm. apply filter_app_complement.
Qed.

Lemma empty_trash_removes_the_trashed_witness :
  id <$> files (handleEmptyTrash 7 fullTrash) = ["k"].
Proof.
  rewrite (proj1 (empty_trash_removes_the_trashed 7 8 fullTrash
                    ltac:(apply (bool_decide_unpack _); by vm_compute))).
  reflexivity.
Defined.

(** ** Swapping two icons *)

Lemma findById_fmap (i : string) (u : FileSystemItem -> FileSystemItem)
    (F : list FileSystemItem) :
  (∀ f, id (u f) = id f) -> findById i (u <$> F) = u <$> findById i F.
Proof.
  intros Hu. unfold findById. induction F as [|f F IH]; [done|].
  rewrite fmap_cons. simpl. rewrite Hu. by destruct (bool_decide (id f = i)).
Qed.

Lemma withOrder_same (f : FileSystemItem) : withOrder (order f) f = f.
Proof. by destruct f. Qed.

Lemma withOrder_twice (v w : Z) (f : FileSystemItem) :
  withOrder v (withOrder w f) = withOrder v f.
Proof. done. Qed.

(** A permitted swap exchanges the [order] of the two items and touches
    nothing else: no other field of the two, no other item, also when the
    two sit in different folders.  Done twice, in either direction, it
    gives back the collection it started from. *)
Theorem swap_exchanges_orders_and_is_an_involution (a b : string) (t t' : Z)
    (s : AppState) (A B : FileSystemItem) :
  NoDup (id <$> files s) ->
  findById a (files s) = Some A -> findById b (files s) = Some B ->
  hasPermission (currentUser s) A = true -> hasPermission (currentUser s) B = true ->
  let s' := handleSwapFile a b t s in
  findById a (files s') = Some (withOrder (order B) A)
  ∧ findById b (files s') = Some (withOrder (order A) B)
  ∧ (∀ n f, files s !! n = Some f -> id f ≠ a -> id f ≠ b -> files s' !! n = Some f)
  ∧ length (files s') = length (files s)
  ∧ files (handleSwapFile a b t' s') = files s
  ∧ files (handleSwapFile b a t' s') = files s.
Proof.
  intros Hnd HA HB HpA HpB s'.
  destruct (findById_Some _ _ _ HA) as [HinA HidA].
  destruct (findById_Some _ _ _ HB) as [HinB HidB].
  set (h := λ f, if decide (id f = a) then withOrder (order B) f
                 else if decide (id f = b) then withOrder (order A) f else f).
  assert (Hh : ∀ f, id (h f) = id f) by (intros f; unfold h; by repeat case_decide).
  assert (Hfiles : files s' = h <$> files s).
  { unfold s', handleSwapFile. by rewrite HA, HB, HpA, HpB. }
  assert (Hperm : ∀ f, hasPermission (currentUser s') (h f) = hasPermission (currentUser s) f).
  { intros f. unfold s', handleSwapFile. rewrite HA, HB, HpA, HpB. simpl.
    unfold h. by repeat case_decide. }
  assert (HhA : h A = withOrder (order B) A) by (unfold h; by rewrite decide_True).
  assert (HhB : h B = withOrder (order A) B).
  { unfold h. destruct (decide (id B = a)) as [Hba|Hba]; [|by rewrite decide_True].
    assert (B = A) as -> by (apply (same_id_same_item (files s)); [done..|congruence]).
    done. }
  assert (Hback : ∀ f, f ∈ files s ->
            (if decide (id f = a) then withOrder (order A) (h f)
             else if decide (id f = b) then withOrder (order B) (h f) else h f) = f).
  { intros f Hf. unfold h. destruct (decide (id f = a)) as [Hfa|Hfa].
    - assert (f = A) as -> by (apply (same_id_same_item (files s)); [done..|congruence]).
      rewrite withOrder_twice. apply withOrder_same.
    - destruct (decide (id f = b)) as [Hfb|Hfb]; [|done].
      assert (f = B) as -> by (apply (same_id_same_item (files s)); [done..|congruence]).
      rewrite withOrder_twice. apply withOrder_same. }
  assert (HfA : findById a (files s') = Some (h A))
    by (by rewrite Hfiles, findById_fmap, HA).
  assert (HfB : findById b (files s') = Some (h B))
    by (by rewrite Hfiles, findById_fmap, HB).
  split; [by rewrite HfA, HhA|]. split; [by rewrite HfB, HhB|]. split.
  { intros n f Hn Hna Hnb. rewrite Hfiles, list_lookup_fmap, Hn. simpl.
    unfold h. by rewrite !decide_False. }
  split; [by rewrite Hfiles, length_fmap|]. split.
  - unfold handleSwapFile. rewrite HfA, HfB, !Hperm, HpA, HpB. simpl.
    rewrite Hfiles, <- list_fmap_compose. rewrite <- (list_fmap_id (files s)) at 2.
    apply list_fmap_ext. intros n f Hn. simpl. rewrite !Hh, HhA, HhB. simpl.
    apply Hback. by eapply list_elem_of_lookup_2.
  - unfold handleSwapFile. rewrite HfA, HfB, !Hperm, HpA, HpB. simpl.
    rewrite Hfiles, <- list_fmap_compose. rewrite <- (list_fmap_id (files s)) at 2.
    apply list_fmap_ext. intros n f Hn. simpl. rewrite !Hh, HhA, HhB. simpl.
    assert (Hf : f ∈ files s) by (by eapply list_elem_of_lookup_2).
    specialize (Hback f Hf).
    destruct (decide (id f = b)) as [Hfb|Hfb]; [|exact Hback].
    destruct (decide (id f = a)) as [Hfa|Hfa]; [|exact Hback].
    assert (f = A) as -> by (apply (same_id_same_item (files s)); [done..|congruence]).
    assert (A = B) as -> by (apply (same_id_same_item (files s)); [done..|congruence]).
    exact Hback.
Qed.

Lemma swap_exchanges_orders_and_is_an_involution_witness :
  files (handleSwapFile "b" "a" 6 (handleSwapFile "a" "b" 5 twoFiles)) = files twoFiles.
Proof.
  apply (swap_exchanges_orders_and_is_an_involution "a" "b" 5 6 twoFiles
           (sampleItem "a" (Some "root") "a.txt" TEXT 1)
           (sampleItem "b" (Some "root") "b.txt" TEXT 2)
           ltac:(apply (bool_decide_unpack _); by vm_compute)
           eq_refl eq_refl eq_refl eq_refl).
Defined.

(** ** Uploads *)

Lemma uploadedItems_lookup (u : nat -> string) (t : Z) (tgt : string) (mo : Z)
    (owner : string) (fl : list UploadedFile) :
  ∀ k0 k f, fl !! k = Some f ->
    uploadedItems u t tgt mo owner k0 fl !! k
    = Some {| id := u (k0 + k)%nat; parentId := Some tgt; name := fileName f;
              type := uploadedType (mimeType f); size := Some (fileSize f);
              content := None; dateModified := t; dateCreated := Some t;
              colorTag := None; tags := [];
              order := mo + 1 + Z.of_nat (k0 + k); position := None;
              visibleTo := [USER; JUNIOR]; ownerId := Some owner; trashData := None |}.
Proof.
  induction fl as [|g fl IH]; intros k0 k f Hk; [done|].
  destruct k as [|k]; simpl in *.
  - simplify_eq. by rewrite Nat.add_0_r.
  - rewrite (IH (S k0) k f Hk). by replace (S k0 + k)%nat with (k0 + S k)%nat by lia.
Qed.

Lemma uploadedItems_length (u : nat -> string) (t : Z) (tgt : string) (mo : Z)
    (owner : string) (fl : list UploadedFile) (k0 : nat) :
  length (uploadedItems u t tgt mo owner k0 fl) = length fl.
Proof. revert k0. induction fl as [|g fl IH]; intros k0; simpl; [done|]. by rewrite IH. Qed.

Lemma uploadedItems_nth (u : nat -> string) (t : Z) (tgt : string) (mo : Z)
    (owner : string) (fl : list UploadedFile) (k : nat) (n : FileSystemItem) :
  uploadedItems u t tgt mo owner 0 fl !! k = Some n ->
  id n = u k ∧ order n = mo + 1 + Z.of_nat k.
Proof.
  intros Hn. destruct (fl !! k) as [f|] eqn:Hf.
  - rewrite (uploadedItems_lookup u t tgt mo owner fl 0 k f Hf) in Hn. by simplify_eq.
  - apply lookup_ge_None in Hf. apply lookup_lt_Some in Hn.
    rewrite uploadedItems_length in Hn. lia.
Qed.

(** An accepted upload (the target is not the trash and not a hidden
    folder, somebody is logged in, the list is not empty and its total size
    is not zero) appends one item per file, in the order of the list: the
    [k]-th takes the [k]-th fresh identifier, the name, size and type of
    the file, the target as parent, the uploader as owner, the roles USER
    and JUNIOR as audience and the order [k + 1] above the largest order
    among the children the target had.  One CREATE per item goes to the
    undo stack, so that a single undo takes back the last file only. *)
Theorem upload_appends_one_item_per_file (fl : list UploadedFile) (tgt : string)
    (u : nat -> string) (t t' : Z) (s : AppState) (usr : User) :
  tgt ≠ TRASH_ID -> targetDenied s tgt = false -> currentUser s = Some usr ->
  fl ≠ [] -> fold_left (λ acc f, acc + fileSize f) fl 0 ≠ 0 ->
  let s' := handleUpload fl tgt u t s in
  let top := JS.maxOr0 (order <$> childrenOf tgt (files s)) in
  ∃ new, files s' = files s ++ new ∧ length new = length fl
    ∧ (∀ k f, fl !! k = Some f ->
         new !! k
         = Some {| id := u k; parentId := Some tgt; name := fileName f;
                   type := uploadedType (mimeType f); size := Some (fileSize f);
                   content := None; dateModified := t; dateCreated := Some t;
                   colorTag := None; tags := [];
                   order := top + 1 + Z.of_nat k; position := None;
                   visibleTo := [USER; JUNIOR]; ownerId := Some (userId usr);
                   trashData := None |})
    ∧ (∀ c k n, c ∈ childrenOf tgt (files s) -> new !! k = Some n -> order c < order n)
    ∧ undoStack s'
      = undoStack s
        ++ ((λ f, {| payload := CREATE (id f) f; description := "Upload"; timestamp := t |})
              <$> new)
    ∧ redoStack s' = []
    ∧ ((∀ j k, u j = u k -> j = k) -> (∀ j, u j ∉ id <$> files s) ->
       files (performUndo t' s') = files s ++ removelast new).
Proof.
  intros Htr Hden Husr Hne Hsize s' top.
  set (new := uploadedItems u t tgt top (userId usr) 0 fl).
  assert (Hrun : s' = commitUploads t new (setFiles (files s ++ new) s)).
  { unfold s', handleUpload. rewrite decide_False, Hden, Husr by done.
    destruct fl as [|f fl]; [done|].
    destruct (Z.eqb_spec (fold_left (λ acc f, acc + fileSize f) (f :: fl) 0) 0); done. }
  destruct (commitUploads_stacks t new (setFiles (files s ++ new) s)) as (Hf & Hu & Hr).
  rewrite <- Hrun in Hf, Hu, Hr. simpl in Hf, Hu.
  assert (Hlen : length new = length fl) by apply uploadedItems_length.
  assert (Hnew : new ≠ []) by (intros E; rewrite E in Hlen; by destruct fl).
  exists new. split; [done|]. split; [done|]. split.
  { intros k f Hk. unfold new. by rewrite (uploadedItems_lookup _ _ _ _ _ _ 0 k f Hk). }
  split.
  { intros c k n Hc Hn. apply uploadedItems_nth in Hn as [_ ->].
    assert (order c <= top) by (apply maxOr0_ge; by apply list_elem_of_fmap_2). lia. }
  split; [done|]. split; [by apply Hr|].
  intros Hinj Hfresh.
  destruct (exists_last Hnew) as (init & l & Hsplit).
  unfold performUndo. rewrite Hu, Hsplit, fmap_app, app_assoc. simpl.
  rewrite last_snoc. simpl. rewrite Hf, Hsplit, removelast_last, app_assoc.
  rewrite filter_app, (filter_cons _ l), decide_False, filter_nil, app_nil_r by (by intros H).
  apply filter_all. intros g Hg Heq.
  assert (Hl : new !! length init = Some l).
  { rewrite Hsplit. by rewrite lookup_app_r, Nat.sub_diag by lia. }
  apply uploadedItems_nth in Hl as [Hlid _].
  apply elem_of_app in Hg as [Hg|Hg].
  - apply (Hfresh (length init)). rewrite <- Hlid, <- Heq. by apply list_elem_of_fmap_2.
  - apply list_elem_of_lookup in Hg as [k Hk].
    assert (Hk' : new !! k = Some g).
    { rewrite Hsplit. rewrite lookup_app_l; [done|]. by apply lookup_lt_Some in Hk. }
    apply lookup_lt_Some in Hk.
    apply uploadedItems_nth in Hk' as [Hgid _].
    assert (k = length init) by (apply Hinj; congruence). lia.
Qed.

Lemma upload_appends_one_item_per_file_witness :
  ∃ new, files (handleUpload pictureUpload "root" sampleUuid 5 oneFile)
         = files oneFile ++ new
         ∧ length new = 1%nat.
Proof.
  destruct (upload_appends_one_item_per_file pictureUpload "root" sampleUuid 5 6 oneFile
              {| userId := "u_user"; role := USER |}
              ltac:(discriminate) eq_refl eq_refl ltac:(discriminate) ltac:(discriminate))
    as (new & Hfiles & Hlen & _).
  by exists new.
Defined.

(** ** Toggling the audience of an item *)

Lemma toggleRole_flips (r : UserRole) (f : FileSystemItem) (r' : UserRole) :
  bool_decide (r' ∈ visibleTo (toggleRole r f))
  = if decide (r' = r) then negb (bool_decide (r' ∈ visibleTo f))
    else bool_decide (r' ∈ visibleTo f).
Proof.
  unfold toggleRole.
  destruct (bool_decide (r ∈ visibleTo f)) eqn:Hin; simpl;
    [apply bool_decide_eq_true in Hin|apply bool_decide_eq_false in Hin];
    destruct (decide (r' = r)) as [Heq|Hne].
  - rewrite Heq, (bool_decide_eq_true_2 (r ∈ visibleTo f)) by done.
    apply bool_decide_eq_false_2. rewrite list_elem_of_filter. tauto.
  - apply bool_decide_ext. rewrite list_elem_of_filter. tauto.
  - rewrite Heq, (bool_decide_eq_false_2 (r ∈ visibleTo f)) by done.
    apply bool_decide_eq_true_2. apply elem_of_app. right. by left.
  - apply bool_decide_ext. rewrite elem_of_app, list_elem_of_singleton. tauto.
Qed.

(** Only an administrator toggles visibility; anybody else gets the
    permission error and nothing changes.  For an administrator the
    toggle acts on the clicked item, or on the whole selection when the
    clicked item belongs to it, and on each of these items separately: a
    user of the toggled role who saw the item does not see it any more and
    one who did not see it now does, users of the other roles and
    administrators see what they saw before, and no field other than
    [visibleTo] changes.  Items outside the batch are left alone. *)
Theorem visibility_toggle_flips_access (i : string) (r : UserRole) (s : AppState) :
  let s' := handleVisibilityToggle i r s in
  let batch := if bool_decide (i ∈ selectedFileIds s) then selectedFileIds s else [i] in
  (notAdmin (currentUser s) = true -> s' = showPermissionError s)
  ∧ (notAdmin (currentUser s) = false ->
     length (files s') = length (files s)
     ∧ ∀ k f, files s !! k = Some f ->
         ∃ f', files s' !! k = Some f'
           ∧ f' = withVisibleTo (visibleTo f') f
           ∧ (id f ∉ batch -> f' = f)
           ∧ ∀ u, isFileVisible (Some u) f'
                  = if bool_decide (id f ∈ batch ∧ role u = r ∧ r ≠ ADMIN)
                    then negb (isFileVisible (Some u) f)
                    else isFileVisible (Some u) f).
Proof.
  intros s' batch. unfold s', handleVisibilityToggle. fold batch. split.
  - by intros ->.
  - intros ->. simpl. split; [by rewrite length_fmap|].
    intros k f Hk. rewrite list_lookup_fmap, Hk. simpl.
    eexists. split; [done|].
    case_bool_decide as Hin.
    + split; [unfold toggleRole; by case_bool_decide|].
      split; [done|]. intros u. unfold isFileVisible.
      destruct (decide (role u = ADMIN)) as [Hadm|Hadm].
      * rewrite (bool_decide_eq_false_2 (_ ∧ _)); [done|].
        intros (_ & Hr & Hne). congruence.
      * rewrite toggleRole_flips. destruct (decide (role u = r)) as [Hr|Hr].
        -- rewrite (bool_decide_eq_true_2 (_ ∧ _)); [done|]. repeat split; congruence.
        -- rewrite (bool_decide_eq_false_2 (_ ∧ _)); [done|]. tauto.
    + split; [by destruct f|]. split; [done|]. intros u.
      rewrite (bool_decide_eq_false_2 (_ ∧ _)); [done|]. tauto.
Qed.

Lemma visibility_toggle_flips_access_witness :
  length (files (handleVisibilityToggle "a" JUNIOR oneFileAdmin)) = 1%nat.
Proof.
  apply (proj2 (visibility_toggle_flips_access "a" JUNIOR oneFileAdmin) eq_refl).
Defined.

(** ** Windows *)

Lemma tidy_fmap (u : Win -> Win) (d : Desk) (z : Z) :
  tidy d -> topZIndex d <= z -> (∀ w, layer (u w) = layer w ∨ layer (u w) <= z) ->
  tidy {| wins := u <$> wins d; topZIndex := z |}.
Proof.
  intros Ht Hz Hu w (v & -> & Hv)%list_elem_of_fmap. simpl.
  destruct (Hu v) as [->|?]; [|done]. specialize (Ht v Hv). lia.
Qed.

(** Started from the initial desk, where it holds, every window handler
    keeps all windows at or below [topZIndex]: opening, focusing, closing,
    navigating, resizing, minimising and maximising. *)
Theorem window_layers_stay_below_top (d : Desk) :
  tidy initialDesk
  ∧ (tidy d ->
     (∀ i, tidy (focusWindow d i d))
     ∧ (∀ w i k g, tidy (openWindow d w i k g d))
     ∧ (∀ i, tidy (closeWindow d i d))
     ∧ (∀ i f, tidy (updateWindowData d i f d))
     ∧ (∀ i sz p, tidy (handleWindowResize i sz p d))
     ∧ (∀ i, tidy (onMinimize d i d))
     ∧ (∀ i, tidy (onMaximize d i d))).
Proof.
  split; [by intros w ?%elem_of_nil|]. intros Ht.
  assert (Hfocus : ∀ i, tidy (focusWindow d i d)).
  { intros i. apply tidy_fmap; [done|lia|]. intros w. case_decide; simpl; auto. right; lia. }
  split; [done|]. split.
  { intros w i k g. unfold openWindow.
    destruct (if decide (k = SETTINGS) then _ else _); [apply Hfocus|].
    intros v [Hv| ->%list_elem_of_singleton]%elem_of_app; simpl; [|lia].
    specialize (Ht v Hv). lia. }
  split.
  { intros i w [_ Hw]%list_elem_of_filter. by apply Ht. }
  repeat split; intros; (apply tidy_fmap; [done|lia|]); intros w; case_decide; auto.
Qed.

Lemma window_layers_stay_below_top_witness : tidy twoFinders.
Proof.
  apply (proj2 (window_layers_stay_below_top
                  (openWindow initialDesk 1280 "w1" FINDER (Some (folderData "docs"))
                     initialDesk))).
  apply (proj2 (window_layers_stay_below_top initialDesk)).
  apply (proj1 (window_layers_stay_below_top initialDesk)).
Defined.

Lemma topByZIndex_first_greatest (pre post : list WindowState) (v : WindowState) :
  (∀ u, u ∈ pre -> zIndex u < zIndex v) ->
  (∀ u, u ∈ post -> zIndex u <= zIndex v) ->
  topByZIndex (pre ++ v :: post) = Some v.
Proof.
  intros Hpre Hpost. induction pre as [|a pre IH]; simpl.
  - assert (Hin : ∀ l u, topByZIndex l = Some u -> u ∈ l).
    { induction l as [|b l IHl]; intros u; simpl; [done|].
      destruct (topByZIndex l) as [t|].
      - case_match; intros; simplify_eq; [right; by apply IHl|by left].
      - intros; simplify_eq. by left. }
    destruct (topByZIndex post) as [u|] eqn:Hu; [|done].
    apply Hin, Hpost in Hu. by destruct (Z.ltb_spec (zIndex v) (zIndex u)); [lia|].
  - rewrite IH by (intros u Hu; apply Hpre; by right).
    assert (zIndex a < zIndex v) by (apply Hpre; by left).
    by destruct (Z.ltb_spec (zIndex a) (zIndex v)); [|lia].
Qed.

Lemma activeFolderId_first_greatest (pre post : list Win) (v : Win) (f : string) :
  kind v = FINDER -> opened v = true -> minimized v = false ->
  folderShown (data v) = Some f ->
  (∀ u, u ∈ pre -> kind u = FINDER -> layer u < layer v) ->
  (∀ u, u ∈ post -> layer u <= layer v) ->
  activeFolderId (viewOf <$> (pre ++ v :: post)) = f.
Proof.
  intros Hk Ho Hm Hf Hpre Hpost. unfold activeFolderId, activeFinder.
  rewrite fmap_app, fmap_cons, filter_app, filter_cons, decide_True by (by simpl).
  rewrite topByZIndex_first_greatest; [by simpl; rewrite Hf|..].
  - intros u [[Hu _] (w & -> & Hw)%list_elem_of_fmap]%list_elem_of_filter.
    by apply Hpre.
  - intros u [_ (w & -> & Hw)%list_elem_of_fmap]%list_elem_of_filter.
    by apply Hpost.
Qed.

(** The Finder window that was opened or clicked last is the one paste and
    new folder act on: after [openWindow('FINDER', { currentFolderId })]
    the active folder is that folder, and after [focusWindow] on an open,
    not minimised Finder window it is the folder this window shows. *)
Theorem last_focused_finder_is_active (d : Desk) :
  tidy d ->
  (∀ iw newId f,
     activeFolderId (viewOf <$> wins (openWindow d iw newId FINDER (Some (folderData f)) d))
     = f)
  ∧ (∀ pre w post f,
       wins d = pre ++ w :: post ->
       (∀ u, u ∈ pre ++ post -> winId u ≠ winId w) ->
       kind w = FINDER -> opened w = true -> minimized w = false ->
       folderShown (data w) = Some f ->
       activeFolderId (viewOf <$> wins (focusWindow d (winId w) d)) = f).
Proof.
  intros Ht. split.
  - intros iw newId f. unfold openWindow. rewrite decide_False by done. simpl.
    apply activeFolderId_first_greatest; try done; simpl.
    + intros u Hu _. specialize (Ht u Hu). lia.
    + by intros u ?%elem_of_nil.
  - intros pre w post f Hsplit Huniq Hk Ho Hm Hf. unfold focusWindow. simpl.
    assert (Hother : ∀ l : list Win,
              (∀ u, u ∈ l -> winId u ≠ winId w ∧ layer u <= topZIndex d) ->
              (λ u, if decide (winId u = winId w) then withLayer (topZIndex d + 1) u else u)
                <$> l = l).
    { intros l Hl. rewrite <- (list_fmap_id l) at 2. apply list_fmap_ext.
      intros n u Hu. rewrite decide_False; [done|].
      by apply (Hl u), list_elem_of_lookup_2 with n. }
    assert (Hin : ∀ u, u ∈ pre ++ post -> winId u ≠ winId w ∧ layer u <= topZIndex d).
    { intros u Hu. split; [by apply Huniq|]. apply Ht. rewrite Hsplit.
      apply elem_of_app in Hu as [?|?]; apply elem_of_app; [by left|right; by right]. }
    rewrite Hsplit, fmap_app, fmap_cons, decide_True by done.
    rewrite !Hother by (intros u Hu; apply Hin, elem_of_app; auto).
    apply activeFolderId_first_greatest; try done; simpl.
    + intros u Hu _. destruct (Hin u) as [_ ?]; [apply elem_of_app; by left|lia].
    + intros u Hu. destruct (Hin u) as [_ ?]; [apply elem_of_app; by right|lia].
Qed.

Lemma last_focused_finder_is_active_witness :
  activeFolderId (viewOf <$> wins (focusWindow twoFinders "w1" twoFinders)) = "docs".
Proof.
  refine (proj2 (last_focused_finder_is_active twoFinders _) [] _ _ "docs"
            eq_refl _ eq_refl eq_refl eq_refl eq_refl).
  - intros w Hw. vm_compute in Hw.
    apply elem_of_cons in Hw as [->|Hw]; [vm_compute; discriminate|].
    apply list_elem_of_singleton in Hw as ->. vm_compute; discriminate.
  - intros u Hu. simpl in Hu. apply list_elem_of_singleton in Hu as ->. discriminate.
Defined.

Lemma getInfoEach_last (seen : Shell) (iw : Z) (uuid : nat -> string) :
  ∀ (ids : list string) (cur : Shell) (n : nat) (l : string) (item : FileSystemItem),
    (∀ i, i ∈ ids -> ∃ it, findById i (files (app seen)) = Some it
                          ∧ hasPermission (currentUser (app seen)) it = true) ->
    last ids = Some l -> findById l (files (app seen)) = Some item ->
    getInfoEach seen iw uuid ids cur n
    = ({| app := app cur;
          desk := {| wins := wins (desk seen)
                             ++ [infoWindow (desk seen) iw (uuid (n + length ids - 1)%nat) item];
                     topZIndex := topZIndex (desk cur) + Z.of_nat (length ids) |} |},
       (n + length ids)%nat).
Proof.
  induction ids as [|i ids IH]; intros cur n l item Hall Hlast Hitem; [done|].
  destruct (Hall i) as (it & Hit & Hperm); [by left|].
  cbn [getInfoEach]. unfold handleGetInfo. rewrite Hit, Hperm. cbn [negb].
  destruct ids as [|j ids].
  - simpl in Hlast. simplify_eq.
    replace (n + length [l] - 1)%nat with n by (cbn [length]; lia).
    replace (n + length [l])%nat with (S n) by (cbn [length]; lia).
    done.
  - erewrite IH; [|intros k Hk; apply Hall; by right|exact Hlast|exact Hitem].
    replace (n + length (i :: j :: ids) - 1)%nat with (S n + length (j :: ids) - 1)%nat
      by (cbn [length]; lia).
    replace (n + length (i :: j :: ids))%nat with (S n + length (j :: ids))%nat
      by (cbn [length]; lia).
    replace (topZIndex (desk cur) + Z.of_nat (length (i :: j :: ids)))
      with (topZIndex (desk cur) + 1 + Z.of_nat (length (j :: ids)))
      by (cbn [length]; lia).
    done.
Qed.

(** Get Info from the menu with several items selected opens a single
    window, that of the last selected item: each call of [openWindow]
    replaces the list of windows by the list of the render plus its own
    window.  [topZIndex] nevertheless advances once per selected item. *)
Theorem menu_get_info_opens_the_last_item_only (seen : Shell) (iw : Z)
    (uuid : nat -> string) (l : string) (item : FileSystemItem) :
  (∀ i, i ∈ selectedFileIds (app seen) ->
     ∃ it, findById i (files (app seen)) = Some it
           ∧ hasPermission (currentUser (app seen)) it = true) ->
  last (selectedFileIds (app seen)) = Some l ->
  findById l (files (app seen)) = Some item ->
  let count := length (selectedFileIds (app seen)) in
  let after := handleMenuGetInfo seen iw uuid seen in
  app after = app seen
  ∧ wins (desk after)
    = wins (desk seen) ++ [infoWindow (desk seen) iw (uuid (count - 1)%nat) item]
  ∧ topZIndex (desk after) = topZIndex (desk seen) + Z.of_nat count.
Proof.
  intros Hall Hlast Hitem count after. unfold after, handleMenuGetInfo.
  destruct (selectedFileIds (app seen)) as [|i ids] eqn:Hsel; [done|].
  by rewrite (getInfoEach_last seen iw uuid (i :: ids) seen 0 l item Hall Hlast Hitem).
Qed.

Lemma menu_get_info_opens_the_last_item_only_witness :
  (λ w, (winId w, title w)) <$> wins (desk (handleMenuGetInfo twoSelected 1280 sampleUuid twoSelected))
  = [("uuid-1", "b.txt Info")]
  ∧ topZIndex (desk (handleMenuGetInfo twoSelected 1280 sampleUuid twoSelected)) = 12.
Proof.
  destruct (menu_get_info_opens_the_last_item_only twoSelected 1280 sampleUuid "b"
              (sampleItem "b" (Some "root") "b.txt" TEXT 2)) as (_ & Hw & Hz).
  - intros i Hi. simpl in Hi.
    apply elem_of_cons in Hi as [->|Hi]; [by eexists|].
    apply list_elem_of_singleton in Hi as ->. by eexists.
  - reflexivity.
  - reflexivity.
  - by rewrite Hw, Hz.
Defined.

Lemma find_split {A : Type} (P : A -> bool) (l : list A) (a : A) :
  List.find P l = Some a ->
  ∃ pre post, l = pre ++ a :: post ∧ P a = true ∧ ∀ u, u ∈ pre -> P u = false.
Proof.
  induction l as [|b l IH]; simpl; [done|]. destruct (P b) eqn:Hb.
  - intros [= ->]. exists [], l. repeat split; [done|]. by intros u ?%elem_of_nil.
  - intros (pre & post & -> & Ha & Hpre)%IH. exists (b :: pre), post.
    repeat split; [done|]. intros u [->|Hu]%elem_of_cons; [done|by apply Hpre].
Qed.

Lemma filter_fmap_same {A B : Type} (P : B -> Prop) `{!∀ x, Decision (P x)}
    (g h : A -> B) (l : list A) :
  (∀ x, x ∈ l -> g x = h x ∨ (¬ P (g x) ∧ ¬ P (h x))) ->
  filter P (g <$> l) = filter P (h <$> l).
Proof.
  induction l as [|x l IH]; intros Hl; [done|].
  rewrite !fmap_cons, !filter_cons, IH by (intros y Hy; apply Hl; by right).
  destruct (Hl x (list_elem_of_here _ _)) as [->|[Hg Hh]]; [done|].
  by rewrite !decide_False.
Qed.

(** Opening a folder the user may see sends the first Finder window of the
    top layer to the folder, if there is such a window, and adds no
    window.  The handler does not ask whether that window is open and not
    minimised.  If it is, the folder becomes the active folder, the one
    paste and new folder act on.  If it is not, as right after the window
    was minimised, it is the hidden window that is sent to the folder and
    the active folder stays what it was, the identifiers of the windows
    being distinct.  When no Finder window lies on the top layer a new one
    on the folder is put on top and the folder becomes the active folder.
    The file system part of the state is not touched. *)
Theorem opened_folder_goes_to_the_top_finder (seen : Shell) (iw : Z) (newId : string)
    (item : FileSystemItem) :
  tidy (desk seen) ->
  hasPermission (currentUser (app seen)) item = true ->
  type item = FOLDER ->
  let after := handleOpenFile seen iw newId item seen in
  let onTop := λ w, bool_decide (layer w = topZIndex (desk seen))
                    && bool_decide (kind w = FINDER) in
  app after = app seen
  ∧ (∀ a, List.find onTop (wins (desk seen)) = Some a ->
       length (wins (desk after)) = length (wins (desk seen))
       ∧ topZIndex (desk after) = topZIndex (desk seen)
       ∧ (∀ n w, wins (desk seen) !! n = Some w ->
            ∃ w', wins (desk after) !! n = Some w'
              ∧ (winId w = winId a ->
                 folderShown (data w') = Some (id item)
                 ∧ opened w' = opened w ∧ minimized w' = minimized w
                 ∧ layer w' = layer w ∧ kind w' = kind w)
              ∧ (winId w ≠ winId a -> w' = w))
       ∧ (opened a = true -> minimized a = false ->
          activeFolderId (viewOf <$> wins (desk after)) = id item)
       ∧ (opened a = false ∨ minimized a = true ->
          (∀ w, w ∈ wins (desk seen) -> winId w = winId a -> w = a) ->
          activeFolderId (viewOf <$> wins (desk after))
          = activeFolderId (viewOf <$> wins (desk seen))))
  ∧ (List.find onTop (wins (desk seen)) = None ->
       length (wins (desk after)) = S (length (wins (desk seen)))
       ∧ topZIndex (desk after) = topZIndex (desk seen) + 1
       ∧ activeFolderId (viewOf <$> wins (desk after)) = id item).
Proof.
  intros Ht Hperm Hfolder after onTop. unfold after, handleOpenFile.
  rewrite Hperm, Hfolder, (bool_decide_eq_true_2 (FOLDER = FOLDER)) by done.
  rewrite andb_false_r, decide_True by done. cbn [negb]. fold onTop.
  destruct (List.find onTop (wins (desk seen))) as [a|] eqn:Hfind.
  - split; [done|]. split; [|done]. intros a' [= <-].
    apply find_split in Hfind as (pre & post & Hsplit & Ha & Hpre).
    apply andb_true_iff in Ha as [Hla%bool_decide_eq_true Hka%bool_decide_eq_true].
    cbn [onDesk updateWindowData desk wins topZIndex].
    split; [by rewrite length_fmap|]. split; [done|]. split; [|split].
    + intros n w Hw. rewrite list_lookup_fmap, Hw. cbn [fmap option_fmap option_map].
      eexists. split; [done|]. case_decide; split; done.
    + intros Ho Hm.
      rewrite Hsplit, fmap_app, fmap_cons, decide_True by done.
      apply activeFolderId_first_greatest; try done.
      * intros u (v & -> & Hv)%list_elem_of_fmap Hk.
        assert (Hkv : kind v = FINDER) by (by destruct (decide (winId v = winId a))).
        assert (Hlv : layer (if decide (winId v = winId a)
                             then withFolder (id item) v else v)
                      = layer v) by (by case_decide).
        rewrite Hlv. simpl.
        assert (layer v <= topZIndex (desk seen))
          by (apply Ht; rewrite Hsplit; apply elem_of_app; by left).
        specialize (Hpre v Hv). apply andb_false_iff in Hpre as [Hne|Hne].
        -- apply bool_decide_eq_false in Hne. lia.
        -- by apply bool_decide_eq_false in Hne.
      * intros u (v & -> & Hv)%list_elem_of_fmap.
        assert (Hlv : layer (if decide (winId v = winId a)
                             then withFolder (id item) v else v)
                      = layer v) by (by case_decide).
        rewrite Hlv. simpl. rewrite Hla. apply Ht. rewrite Hsplit.
        apply elem_of_app; right; by right.
    + intros Hhidden Huniq. unfold activeFolderId, activeFinder.
      rewrite <- list_fmap_compose.
      rewrite (filter_fmap_same _ _ viewOf (wins (desk seen))); [done|].
      intros w Hw. simpl. destruct (decide (winId w = winId a)) as [Hwa|Hwa]; [|by left].
      right. rewrite (Huniq w Hw Hwa). simpl.
      destruct Hhidden as [Ho|Hm]; rewrite ?Ho, ?Hm; split; intros (_ & ? & ?); done.
  - split; [done|]. split; [done|]. intros _.
    unfold openWindow. rewrite decide_False by done. simpl.
    split; [rewrite length_app; simpl; lia|]. split; [done|].
    apply activeFolderId_first_greatest; try done; simpl.
    + intros u Hu _. specialize (Ht u Hu). lia.
    + by intros u ?%elem_of_nil.
Qed.

Lemma opened_folder_goes_to_the_top_finder_witness :
  activeFolderId
    (viewOf <$> wins (desk (handleOpenFile projectFinder 1280 "w2"
                              (sampleItem "docs" (Some "root") "Documents" FOLDER 1)
                              projectFinder)))
  = "docs"
  ∧ activeFolderId
      (viewOf <$> wins (desk (handleOpenFile minimisedFinder 1280 "w2"
                                (sampleItem "docs" (Some "root") "Documents" FOLDER 1)
                                minimisedFinder)))
    = activeFolderId (viewOf <$> wins (desk minimisedFinder)).
Proof.
  split.
  - refine (proj1 (proj2 (proj2 (proj2 (proj1 (proj2
              (opened_folder_goes_to_the_top_finder projectFinder 1280 "w2"
                 (sampleItem "docs" (Some "root") "Documents" FOLDER 1)
                 _ eq_refl eq_refl)) _ eq_refl)))) eq_refl eq_refl).
    intros w Hw. simpl in Hw. apply list_elem_of_singleton in Hw as ->. by vm_compute.
  - refine (proj2 (proj2 (proj2 (proj2 (proj1 (proj2
              (opened_folder_goes_to_the_top_finder minimisedFinder 1280 "w2"
                 (sampleItem "docs" (Some "root") "Documents" FOLDER 1)
                 _ eq_refl eq_refl)) _ eq_refl)))) (or_intror eq_refl) _).
    + intros w Hw. simpl in Hw. apply list_elem_of_singleton in Hw as ->. by vm_compute.
    + intros w Hw _. simpl in Hw. by apply list_elem_of_singleton in Hw as ->.
Defined.

(** The hidden window has been sent to Documents and the desktop is still
    the active folder. *)
Example minimised_finder_is_navigated :
  let after := handleOpenFile minimisedFinder 1280 "w2"
                 (sampleItem "docs" (Some "root") "Documents" FOLDER 1) minimisedFinder in
  (λ w, (winId w, minimized w, folderShown (data w))) <$> wins (desk after)
  = [("w1", true, Some "docs")]
  ∧ activeFolderId (viewOf <$> wins (desk after)) = "root".
Proof. by vm_compute. Qed.


Lemma climbPath_acc (fs : list FileSystemItem) :
  ∀ (k : nat) (cur : option FileSystemItem) (acc : list FileSystemItem),
    climbPath k fs cur acc = (λ chain, chain ++ acc) <$> climbPath k fs cur [].
Proof.
  induction k as [|k IH]; intros cur acc; [done|]. simpl.
  destruct cur as [c|]; [|done].
  destruct (parentId c) as [p|]; [|done].
  repeat case_decide; try done.
  rewrite (IH _ (c :: acc)), (IH _ [c]).
  destruct (climbPath k fs (findById p fs) []) as [chain|]; [|done].
  simpl. by rewrite <- app_assoc.
Qed.

(** Back in a Finder window leads from a tag view or the trash to the
    desktop, and from a folder to its parent: the window then shows the
    parent, and the path drawn above the list is the former path without
    its last entry.  Back asks for no permission, so it also leads into a
    parent that [onNavigate] refuses to enter. *)
Theorem go_back_shows_the_parent (seen : Shell) (i : string) :
  (∀ v, JS.startsWith "tag:" v = true ∨ v = TRASH_ID ->
     onGoBack seen i v seen = onDesk (updateWindowData (desk seen) i "root") seen)
  ∧ (∀ shown c p,
       JS.startsWith "tag:" shown = false -> shown ≠ TRASH_ID ->
       findById shown (files (app seen)) = Some c -> parentId c = Some p -> p ≠ "" ->
       let after := onGoBack seen i shown seen in
       app after = app seen
       ∧ topZIndex (desk after) = topZIndex (desk seen)
       ∧ wins (desk after)
         = (λ w, if decide (winId w = i) then withFolder p w else w) <$> wins (desk seen)
       ∧ (∀ w, w ∈ wins (desk after) -> winId w = i -> folderShown (data w) = Some p)
       ∧ (p ≠ TRASH_ID -> JS.startsWith "tag:" p = false ->
          ∀ k t path, getPath (S k) t (files (app seen)) shown = Some path ->
            getPath k t (files (app seen)) p = Some (removelast path)
            ∧ last path = Some c)
       ∧ (∀ folder, findById p (files (app seen)) = Some folder ->
            hasPermission (currentUser (app seen)) folder = false ->
            p ≠ "root" -> p ≠ TRASH_ID -> JS.startsWith "tag:" p = false ->
            onNavigate seen i p seen
            = notify "Permission Denied: Access Restricted" true seen)).
Proof.
  split.
  - intros v Hv. unfold onGoBack.
    destruct Hv as [->| ->]; [done|]. by rewrite bool_decide_eq_true_2, orb_true_r.
  - intros shown c p Htag Htr Hc Hp Hp0 after.
    assert (Hrun : after = onDesk (updateWindowData (desk seen) i p) seen).
    { unfold after, onGoBack. rewrite Htag, bool_decide_eq_false_2, Hc by done.
      simpl. by rewrite Hp, decide_False. }
    rewrite Hrun. simpl. repeat (split; [done|]). split.
    { intros w (v & -> & Hv)%list_elem_of_fmap. by case_decide. }
    split.
    + intros Hpt Hptag k t path. unfold getPath.
      rewrite Htag, Hptag, !decide_False, Hc by done. simpl.
      rewrite Hp, !decide_False by done. rewrite climbPath_acc.
      destruct (climbPath k (files (app seen)) (findById p (files (app seen))) [])
        as [chain|]; [|done].
      simpl. intros [= <-]. by rewrite removelast_last, last_snoc.
    + intros folder Hf Hperm Hr Hpt Hptag. unfold onNavigate.
      by rewrite !bool_decide_eq_false_2, Hptag, Hf, Hperm.
Qed.

Lemma go_back_shows_the_parent_witness :
  (λ w, folderShown (data w)) <$> wins (desk (onGoBack projectFinder "w1" "proj" projectFinder))
  = [Some "docs"].
Proof.
  destruct (proj2 (go_back_shows_the_parent projectFinder "w1") "proj"
              (sampleItem "proj" (Some "docs") "Project Alpha" FOLDER 0) "docs"
              eq_refl ltac:(discriminate) eq_refl eq_refl ltac:(discriminate))
    as (_ & _ & Hw & _).
  by rewrite Hw.
Defined.

(** ** The Finder window *)

Lemma reordered_refl (F : list FileSystemItem) : reordered F F.
Proof.
  apply Forall2_same_length_lookup_2; [done|].
  intros n f g Hf Hg. rewrite Hf in Hg. injection Hg as <-. by destruct f.
Qed.

Lemma reordered_swap (a b : string) (t : Z) (s : AppState) :
  reordered (files s) (files (handleSwapFile a b t s)).
Proof.
  unfold handleSwapFile.
  destruct (findById a (files s)) as [A|]; [|apply reordered_refl].
  destruct (findById b (files s)) as [B|]; [|apply reordered_refl].
  destruct (_ || _); [apply reordered_refl|]. simpl.
  apply Forall2_fmap_r, Forall2_same_length_lookup_2; [done|].
  intros n f g Hf Hg. rewrite Hf in Hg. injection Hg as <-. simpl.
  repeat case_decide; by destruct f.
Qed.

(** What an accepted move does to the dragged item. *)
Lemma handleMoveFile_places (eg : bool) (k : nat) (src tgt : string)
    (pos : option Position) (t : Z) (s : AppState) (f : FileSystemItem) :
  src ≠ tgt -> tgt ≠ TRASH_ID ->
  findById src (files s) = Some f ->
  hasPermission (currentUser s) f = true -> targetDenied s tgt = false ->
  reachesSource k (files s) src (findById tgt (files s)) = Some false ->
  parentId f ≠ Some tgt ∨ is_Some pos ->
  ∃ s' o, handleMoveFile eg k src tgt pos t s = Some s'
    ∧ findById src (files s') = Some (placed tgt pos t o f).
Proof.
  intros Hne Htr Hfind Hperm Htgt Hwalk Hmoves.
  destruct (findById_Some _ _ _ Hfind) as [Hin Hid].
  unfold handleMoveFile. rewrite (decide_False (P := src = tgt)) by done.
  unfold itemDenied. rewrite Hfind, Hperm. cbn [negb].
  rewrite (decide_False (P := tgt = TRASH_ID)), Htgt, Hwalk by done.
  fold (dragSet src s). set (ids := dragSet src s).
  set (top := JS.maxOr0 (order <$> childrenOf tgt (files s))).
  destruct (moveItems ids tgt pos t top (files s)) as [F1 P] eqn:Hmove.
  destruct (moveItems_orders ids tgt pos t _ _ _ _ Hmove) as (HP & Hlen & Hnth).
  assert (Hsh : shifted ids tgt pos f = true).
  { unfold shifted. rewrite bool_decide_eq_true_2 by (apply elem_of_dragSet; by left).
    destruct Hmoves as [Hp|Hpos].
    - by rewrite (bool_decide_eq_false_2 (parentId f = Some tgt)).
    - rewrite (bool_decide_eq_true_2 (is_Some pos)) by done. by rewrite andb_false_r. }
  set (h := λ (n : nat) (g : FileSystemItem),
              if shifted ids tgt pos g
              then placed tgt pos t
                     (top + 1 + Z.of_nat (length (filter (λ g, shifted ids tgt pos g = true)
                                                    (take n (files s))))) g
              else g).
  destruct (findById_pointwise src (files s) F1 h) with (f := f) as (n & Hn & Hf).
  { exact Hnth. }
  { intros n g. unfold h. by destruct (shifted _ _ _ g). }
  { done. }
  unfold h in Hf. rewrite Hsh in Hf.
  destruct P as [|m P]; [|destruct eg]; eexists _, _; (split; [done|exact Hf]).
Qed.

(** In the window of the trash a drop on the background, on an icon of the
    grid or on a row of the list moves nothing: every item keeps its
    parent, its trash data and all its other fields except possibly
    [order] (a drop on the icon of a file in the grid still swaps the two
    orders), and dropped files are not uploaded.  In a tag view a drop on
    the background does nothing at all.  The entries of the sidebar make
    no such test: they hand every dragged icon to [handleMoveFile], so an
    item of the trash dropped on one of them leaves the trash, its trash
    data still on it. *)
Theorem trash_view_drops_move_through_the_sidebar_only (eg : bool) (k : nat)
    (e : FinderDrag) (u : nat -> string) (t : Z) (s : AppState) :
  (finderHandleDrop eg k TRASH_ID e u t s = Some s)
  ∧ (∀ item, ∃ s', iconHandleDrop eg k TRASH_ID item e t s = Some s'
                    ∧ reordered (files s) (files s'))
  ∧ (∀ item, listItemHandleDrop eg k TRASH_ID item e u t s = Some s)
  ∧ (∀ tag, JS.startsWith "tag:" tag = true -> finderHandleDrop eg k tag e u t s = Some s)
  ∧ (∀ tgt, tgt ≠ "" -> source e ≠ "" ->
       sidebarHandleDrop eg k tgt e t s = handleMoveFile eg k (source e) tgt None t s)
  ∧ (∀ tgt f,
       tgt ≠ "" -> tgt ≠ TRASH_ID -> source e ≠ "" -> source e ≠ tgt ->
       findById (source e) (files s) = Some f ->
       parentId f = Some TRASH_ID ->
       hasPermission (currentUser s) f = true -> targetDenied s tgt = false ->
       reachesSource k (files s) (source e) (findById tgt (files s)) = Some false ->
       ∃ s' f', sidebarHandleDrop eg k tgt e t s = Some s'
         ∧ findById (source e) (files s') = Some f'
         ∧ parentId f' = Some tgt ∧ trashData f' = trashData f).
Proof.
  assert (Hbg : finderHandleDrop eg k TRASH_ID e u t s = Some s).
  { unfold finderHandleDrop. simpl. repeat case_match; done. }
  assert (Hside : ∀ tgt, tgt ≠ "" -> source e ≠ "" ->
            sidebarHandleDrop eg k tgt e t s
            = handleMoveFile eg k (source e) tgt None t s).
  { intros tgt Ht Hs. unfold sidebarHandleDrop. by rewrite !decide_False. }
  split; [done|]. split; [|split; [|split; [|split; [done|]]]].
  - intros item. unfold iconHandleDrop. simpl.
    repeat case_decide; eauto using reordered_refl, reordered_swap.
  - intros item. unfold listItemHandleDrop. simpl. by rewrite andb_false_r.
  - intros tag Htag. unfold finderHandleDrop. rewrite Htag. simpl.
    repeat case_match; done.
  - intros tgt f Ht Htr Hs Hne Hfind Hp Hperm Htgt Hwalk.
    destruct (handleMoveFile_places eg k (source e) tgt None t s f)
      as (s' & o & Hrun & Hf); try done.
    { left. rewrite Hp. intros [= Heq]. by apply Htr. }
    exists s', (placed tgt None t o f). by rewrite Hside.
Qed.

Lemma trash_view_drops_move_through_the_sidebar_only_witness :
  finderHandleDrop true 8 "tag:red" {| source := "n"; osFiles := pictureUpload |}
    sampleUuid 5 fullTrash
  = Some fullTrash
  ∧ ∃ s' f', sidebarHandleDrop true 8 "docs" {| source := "n"; osFiles := [] |} 5 fullTrash
             = Some s'
      ∧ findById "n" (files s') = Some f'
      ∧ parentId f' = Some "docs" ∧ trashData f' = trashData trashedNote.
Proof.
  pose proof (trash_view_drops_move_through_the_sidebar_only true 8
                {| source := "n"; osFiles := pictureUpload |} sampleUuid 5 fullTrash)
    as (_ & _ & _ & Htag & _).
  pose proof (trash_view_drops_move_through_the_sidebar_only true 8
                {| source := "n"; osFiles := [] |} sampleUuid 5 fullTrash)
    as (_ & _ & _ & _ & _ & Hside).
  split.
  - apply (Htag "tag:red"). reflexivity.
  - apply (Hside "docs" trashedNote); try done.
Defined.

Section Listed.

Variable localeCompare : string -> string -> Z.
Variable toLowerCase : string -> string.

Lemma sortBy_sorted_for (cmp : FileSystemItem -> FileSystemItem -> Z)
    (R : FileSystemItem -> FileSystemItem -> Prop) (l : list FileSystemItem) :
  (∀ a b, cmp a b <= 0 -> R a b) -> (∀ a b, 0 < cmp a b -> R b a) ->
  (∀ a b c, R a b -> R b c -> R a c) ->
  StronglySorted R (sortBy cmp l).
Proof.
  intros Hle Hgt Htrans.
  assert (Hins : ∀ a m, StronglySorted R m -> StronglySorted R (insertBy cmp a m)).
  { intros a m. induction m as [|b r IH]; simpl; intros Hs; [repeat constructor|].
    inversion Hs as [|? ? Hr Hall]; subst.
    destruct (Z.leb_spec (cmp a b) 0) as [Hab|Hab].
    - constructor; [done|]. constructor; [by apply Hle|].
      eapply Forall_impl; [exact Hall|]. intros c Hc. eapply Htrans; [by apply Hle|done].
    - constructor; [by apply IH|].
      rewrite (insertBy_perm cmp a r). constructor; [by apply Hgt|done]. }
  induction l as [|a l IH]; [constructor|]. by apply Hins.
Qed.

(** What a Finder window lists, for every sort option and search text:
    the items it was given that belong to the folder (in a tag view, that
    carry the tag, wherever they are, the trash included) and whose name
    contains the search text, each exactly once.  The sort option changes
    the order only: by ascending [order] when none is chosen, newest first
    by date, largest first by size, an item without size counting as
    empty. *)
Theorem finder_lists_the_folder_sorted (items : list FileSystemItem) (folder query : string)
    (sortOption : SortOption) :
  let listed := currentFolderItems localeCompare toLowerCase items folder query sortOption in
  let belongs := λ f,
    inFolder folder f
    ∧ (query = "" ∨ includes (toLowerCase query) (toLowerCase (name f)) = true) in
  listed ≡ₚ filter belongs items
  ∧ (∀ f, f ∈ listed ↔ f ∈ items ∧ belongs f)
  ∧ (sortOption = SortNone -> StronglySorted (λ a b, order a <= order b) listed)
  ∧ (sortOption = SortDate ->
     StronglySorted (λ a b, dateModified b <= dateModified a) listed)
  ∧ (sortOption = SortSize ->
     StronglySorted (λ a b, default 0 (size b) <= default 0 (size a)) listed).
Proof.
  intros listed belongs.
  assert (Hperm : listed ≡ₚ filter belongs items).
  { unfold listed, currentFolderItems. rewrite sortBy_perm.
    assert (Hin : ∀ f, inFolder folder f ↔
              if JS.startsWith "tag:" folder then JS.substringFrom 4 folder ∈ tags f
              else parentId f = Some folder) by done.
    assert (Heq : ∀ (l : list FileSystemItem), l = filter belongs items ->
              l ≡ₚ filter belongs items) by (by intros l ->).
    destruct (JS.startsWith "tag:" folder); case_decide as Hq;
      rewrite ?list_filter_filter; apply Heq, list_filter_iff;
      intros f; unfold belongs; rewrite Hin; intuition done. }
  split; [done|]. split.
  { intros f. rewrite Hperm, list_elem_of_filter. tauto. }
  repeat split; intros ->; unfold listed, currentFolderItems;
    apply sortBy_sorted_for; simpl; intros; lia.
Qed.

End Listed.

Lemma finder_lists_the_folder_sorted_witness :
  StronglySorted (λ a b, order a <= order b)
    (currentFolderItems (λ _ _, 0) (λ n, n) sampleTree "root" "" SortNone).
Proof.
  apply (proj1 (proj2 (proj2 (finder_lists_the_folder_sorted (λ _ _, 0) (λ n, n)
                                sampleTree "root" "" SortNone)))).
  reflexivity.
Defined.

(** In the grid of a Finder window two different indices never get the
    same place, whatever the width of the window, and no icon is placed
    left of 20 or above 20. *)
Theorem getItemPosition_grid (w : option Z) (i j : nat) :
  (getItemPosition w i = getItemPosition w j -> i = j)
  ∧ 20 <= x (getItemPosition w i) ∧ 20 <= y (getItemPosition w i).
Proof.
  unfold getItemPosition.
  set (cols := Z.max 2 _). assert (Hc : 0 < cols) by lia. clearbody cols.
  split.
  - intros Heq. pose proof (f_equal x Heq) as Hx. pose proof (f_equal y Heq) as Hy.
    cbn [x y] in Hx, Hy.
    assert (Z.of_nat i = Z.of_nat j); [|lia].
    rewrite (Z.div_mod (Z.of_nat i) cols), (Z.div_mod (Z.of_nat j) cols) by lia.
    f_equal; [f_equal|]; lia.
  - cbn [x y]. pose proof (Z.mod_pos_bound (Z.of_nat i) cols Hc).
    pose proof (Z.div_pos (Z.of_nat i) cols). lia.
Qed.

Lemma getItemPosition_grid_witness : 20 <= x (getItemPosition (Some 640) 7).
Proof. apply (getItemPosition_grid (Some 640) 7 7). Defined.

(** ** Resizing a window *)

(** While a window is resized the edge opposite to the dragged one stays
    where it was: dragging the west or north edge moves the corner and
    keeps the east or south edge, any other drag keeps the corner.  A
    window that is at least 250 wide and 150 high never gets smaller than
    that, and a drag that involves no vertical edge leaves the width
    alone, one that involves no horizontal edge the height. *)
Theorem resize_keeps_the_opposite_edge (r : ResizeStart) (px py : Z) :
  let newSize := (handleMouseMove r px py).1 in
  let newPosition := (handleMouseMove r px py).2 in
  x newPosition + width newSize
    = (if includes "w" (direction r) then startLeft r + startWidth r
       else startLeft r + width newSize)
  ∧ y newPosition + height newSize
    = (if includes "n" (direction r) then startTop r + startHeight r
       else startTop r + height newSize)
  ∧ (MIN_WIDTH <= startWidth r -> MIN_WIDTH <= width newSize)
  ∧ (MIN_HEIGHT <= startHeight r -> MIN_HEIGHT <= height newSize)
  ∧ (includes "e" (direction r) = false -> includes "w" (direction r) = false ->
     width newSize = startWidth r)
  ∧ (includes "s" (direction r) = false -> includes "n" (direction r) = false ->
     height newSize = startHeight r).
Proof.
  unfold handleMouseMove, MIN_WIDTH, MIN_HEIGHT.
  destruct (includes "e" (direction r)), (includes "s" (direction r)),
    (includes "w" (direction r)), (includes "n" (direction r));
    repeat match goal with
           | |- context [?a <=? ?b] => destruct (Z.leb_spec a b)
           end; cbn [fst snd x y width height]; repeat split; intros; try done; lia.
Qed.

Lemma resize_keeps_the_opposite_edge_witness :
  250 <= width (handleMouseMove {| startX := 100; startY := 100; startWidth := 800;
                                   startHeight := 500; startLeft := 100; startTop := 100;
                                   direction := "nw" |} 900 900).1.
Proof.
  apply (proj1 (proj2 (proj2 (resize_keeps_the_opposite_edge
                                {| startX := 100; startY := 100; startWidth := 800;
                                   startHeight := 500; startLeft := 100; startTop := 100;
                                   direction := "nw" |} 900 900)))).
  unfold MIN_WIDTH. simpl. lia.
Defined.

(** ** The Info window *)

Lemma toggled_list {A : Type} `{EqDecision A} (a : A) (l : list A) :
  let l' := if bool_decide (a ∈ l) then filter (λ b, b ≠ a) l else l ++ [a] in
  (a ∈ l' ↔ a ∉ l) ∧ (∀ b, b ≠ a -> b ∈ l' ↔ b ∈ l) ∧ (NoDup l -> NoDup l').
Proof.
  simpl. case_bool_decide as Hin.
  - split; [|split].
    + rewrite list_elem_of_filter. tauto.
    + intros b Hb. rewrite list_elem_of_filter. tauto.
    + apply NoDup_filter.
  - split; [|split].
    + rewrite elem_of_app, list_elem_of_singleton. tauto.
    + intros b Hb. rewrite elem_of_app, list_elem_of_singleton. tauto.
    + intros Hnd. apply NoDup_app. repeat split; [done| |apply NoDup_singleton].
      intros b Hb ->%list_elem_of_singleton. done.
Qed.

(** A click on a tag in an Info window flips that tag in the window's own
    list and writes this list to the item: afterwards every item of the
    collection with the identifier of the window's item carries exactly
    the tags the window shows, whatever tags it had in the collection
    before, and all other items are as they were.  The other tags of the
    list are kept and the list stays free of duplicates.  A click on a
    role does the same to the audience for an administrator and nothing
    for anybody else. *)
Theorem info_window_writes_its_own_copy (item : FileSystemItem) (st : InfoState)
    (s : AppState) :
  (∀ tagId,
     let st' := (toggleTag item tagId st s).1 in
     let s' := (toggleTag item tagId st s).2 in
     (tagId ∈ shownTags st' ↔ tagId ∉ shownTags st)
     ∧ (∀ t, t ≠ tagId -> t ∈ shownTags st' ↔ t ∈ shownTags st)
     ∧ (NoDup (shownTags st) -> NoDup (shownTags st'))
     ∧ length (files s') = length (files s)
     ∧ (∀ n f, files s !! n = Some f ->
          files s' !! n
          = Some (if decide (id f = id item) then withTags (shownTags st') f else f)))
  ∧ (∀ r,
       let st' := (toggleGroup item r st s).1 in
       let s' := (toggleGroup item r st s).2 in
       (notAdmin (currentUser s) = true -> st' = st ∧ s' = s)
       ∧ (notAdmin (currentUser s) = false ->
          (r ∈ shownVisibleTo st' ↔ r ∉ shownVisibleTo st)
          ∧ (∀ r', r' ≠ r -> r' ∈ shownVisibleTo st' ↔ r' ∈ shownVisibleTo st)
          ∧ (∀ n f, files s !! n = Some f ->
               files s' !! n
               = Some (if decide (id f = id item)
                       then withVisibleTo (shownVisibleTo st') f else f)))).
Proof.
  split.
  - intros tagId. destruct (toggled_list tagId (shownTags st)) as (Hin & Hother & Hnd).
    simpl. repeat (split; [done|]). split; [by rewrite length_fmap|].
    intros n f Hf. by rewrite list_lookup_fmap, Hf.
  - intros r. unfold toggleGroup. split.
    + by intros ->.
    + intros Hadm. rewrite Hadm.
      destruct (toggled_list r (shownVisibleTo st)) as (Hin & Hother & _).
      simpl. repeat (split; [done|]).
      intros n f Hf. unfold updateVisibility. rewrite Hadm. simpl.
      by rewrite list_lookup_fmap, Hf.
Qed.

Lemma info_window_writes_its_own_copy_witness :
  files (toggleGroup (sampleItem "a" (Some "root") "a.txt" TEXT 1) JUNIOR
           (infoOpened (sampleItem "a" (Some "root") "a.txt" TEXT 1)) oneFileAdmin).2
    !! 0%nat
  = Some (withVisibleTo [USER] (sampleItem "a" (Some "root") "a.txt" TEXT 1)).
Proof.
  apply (proj2 (proj2 (proj2 (proj2 (info_window_writes_its_own_copy
                                       (sampleItem "a" (Some "root") "a.txt" TEXT 1)
                                       (infoOpened (sampleItem "a" (Some "root") "a.txt" TEXT 1))
                                       oneFileAdmin) JUNIOR) eq_refl))
           0%nat (sampleItem "a" (Some "root") "a.txt" TEXT 1) eq_refl).
Defined.

(** ** Renaming *)






(** White space beyond ASCII is trimmed as well. *)
Example trim_strips_wide_space : JS.trim paddedName = "notes.txt".
Proof. by vm_compute. Qed.



(** The copies an Info window keeps stay those of the collection: when
    the tags and the audience it shows are those of its item, they still
    are after any run of clicks on tags and roles. *)
Theorem info_window_stays_in_step (item : FileSystemItem) (clicks : list InfoClick) :
  ∀ st s, synced item st s ->
    synced item (infoClicks item clicks st s).1 (infoClicks item clicks st s).2.
Proof.
  induction clicks as [|c clicks IH]; intros st s Hs; [done|].
  destruct c as [tagId|r]; cbn [infoClicks].
  - destruct (toggleTag item tagId st s) as [st' s'] eqn:Hrun. apply IH.
    unfold toggleTag in Hrun. simplify_eq. simpl.
    intros f (g & -> & Hg)%list_elem_of_fmap Hid.
    case_decide as Hd; simpl in *; [|done]. split; [done|]. by apply Hs.
  - destruct (toggleGroup item r st s) as [st' s'] eqn:Hrun. apply IH.
    unfold toggleGroup, updateVisibility in Hrun.
    destruct (notAdmin (currentUser s)); simplify_eq; [done|]. simpl.
    intros f (g & -> & Hg)%list_elem_of_fmap Hid.
    case_decide as Hd; simpl in *; [|done]. split; [|done]. by apply Hs.
Qed.

Lemma info_window_stays_in_step_witness :
  synced (sampleItem "a" (Some "root") "a.txt" TEXT 1)
    (infoClicks (sampleItem "a" (Some "root") "a.txt" TEXT 1)
       [ClickTag "red"; ClickRole JUNIOR; ClickTag "red"]
       (infoOpened (sampleItem "a" (Some "root") "a.txt" TEXT 1)) oneFileAdmin).1
    (infoClicks (sampleItem "a" (Some "root") "a.txt" TEXT 1)
       [ClickTag "red"; ClickRole JUNIOR; ClickTag "red"]
       (infoOpened (sampleItem "a" (Some "root") "a.txt" TEXT 1)) oneFileAdmin).2.
Proof.
  apply info_window_stays_in_step.
  intros f Hf _. simpl in Hf. by apply list_elem_of_singleton in Hf as ->.
Defined.

(** ** Restore, again *)

(** Restore asks for no permission and does not look whether an item is in
    the trash: every targeted item goes to the parent its trash data
    records, or to the desktop when it has no trash data or the record is
    empty, and loses its trash data.  Undo puts it into the trash with an
    empty record, so that restoring it once more lands it on the desktop,
    wherever it came from. *)
Theorem restore_undo_restore_lands_on_the_desktop (ids ids' : list string)
    (t1 t2 t3 : Z) (s : AppState) (k : nat) (X : FileSystemItem) :
  files s !! k = Some X -> id X ∈ ids -> id X ∈ ids' ->
  let s1 := handleRestoreFile ids t1 s in
  let s2 := performUndo t2 s1 in
  let s3 := handleRestoreFile ids' t3 s2 in
  files s1 !! k
  = Some (withTrashData None
            (withParentId (Some (JS.orRoot (trashData X ≫= originalParentId))) X))
  ∧ (trashData X = None -> parentId <$> files s1 !! k = Some (Some "root"))
  ∧ selectedFileIds s1 = []
  ∧ files s2 !! k
    = Some (withTrashData (Some {| originalParentId := None; dateTrashed := t2 |})
              (withParentId (Some TRASH_ID) X))
  ∧ files s3 !! k = Some (withTrashData None (withParentId (Some "root") X)).
Proof.
  intros Hk Hin Hin' s1 s2 s3.
  assert (H1 : files s1 !! k = Some (restoreItem X)).
  { unfold s1. simpl. rewrite list_lookup_fmap, Hk. simpl.
    by rewrite bool_decide_eq_true_2. }
  assert (H2 : files s2 !! k
               = Some (withTrashData (Some {| originalParentId := None; dateTrashed := t2 |})
                         (withParentId (Some TRASH_ID) X))).
  { unfold s2, performUndo, s1, handleRestoreFile.
    cbn [undoStack showNotification setNotification setSelectedFileIds commitAction
         setRedoStack setUndoStack setFiles].
    rewrite last_snoc.
    cbn [files payload undoFiles showNotification setNotification setUndoStack
         setRedoStack setFiles setSelectedFileIds].
    cbn [files commitAction setRedoStack setUndoStack setFiles].
    rewrite !list_lookup_fmap, Hk. simpl.
    rewrite (bool_decide_eq_true_2 (id X ∈ ids)) by done. simpl.
    by rewrite (bool_decide_eq_true_2 (id X ∈ ids)) by done. }
  split; [done|]. split.
  { intros Hnone. rewrite H1. simpl. by rewrite Hnone. }
  split; [done|]. split; [done|].
  unfold s3. simpl. rewrite list_lookup_fmap, H2. simpl.
  by rewrite bool_decide_eq_true_2.
Qed.

Lemma restore_undo_restore_lands_on_the_desktop_witness :
  parentId <$> files (handleRestoreFile ["n"] 7
                        (performUndo 6 (handleRestoreFile ["n"] 5 (sampleState [trashedNote]))))
               !! 0%nat
  = Some (Some "root").
Proof.
  destruct (restore_undo_restore_lands_on_the_desktop ["n"] ["n"] 5 6 7
              (sampleState [trashedNote]) 0 trashedNote eq_refl
              ltac:(by left) ltac:(by left)) as (_ & _ & _ & _ & H3).
  by rewrite H3.
Defined.

(** ** Paste of items that are gone *)

Lemma copyEach_skips (copy : string -> nat -> option (list FileSystemItem * nat))
    (P : string -> Prop) `{!∀ i, Decision (P i)} (ids : list string) :
  (∀ i n, ¬ P i -> copy i n = Some ([], n)) ->
  ∀ created n, copyEach copy ids created n = copyEach copy (filter P ids) created n.
Proof.
  intros Hskip. induction ids as [|i ids IH]; intros created n; [done|].
  rewrite filter_cons. destruct (decide (P i)) as [Hp|Hp]; simpl.
  - destruct (copy i n) as [[items n']|]; [apply IH|done].
  - rewrite (Hskip i n Hp), app_nil_r. apply IH.
Qed.

Lemma handlePaste_files (k : nat) (u : nat -> string) (t : Z) (s : AppState)
    (l : list string) :
  clipboard s = Some l ->
  files <$> handlePaste k u t s
  = if bool_decide (activeFolderId (windows s) = TRASH_ID)
       || JS.startsWith "tag:" (activeFolderId (windows s))
       || targetDenied s (activeFolderId (windows s))
    then Some (files s)
    else (λ p, files s ++ p.1)
           <$> copyEach (λ i m, copyItemRecursively k (files s) u t i
                                  (activeFolderId (windows s)) true m) l [] 0.
Proof.
  intros Hclip. unfold handlePaste. rewrite Hclip.
  destruct l as [|i l].
  { destruct (_ || _); [done|]. simpl. by rewrite app_nil_r. }
  destruct (decide (activeFolderId (windows s) = TRASH_ID)) as [Htr|Htr].
  { by rewrite bool_decide_eq_true_2. }
  rewrite bool_decide_eq_false_2 by done. cbn [orb].
  destruct (JS.startsWith "tag:" (activeFolderId (windows s))); [done|]. cbn [orb].
  destruct (targetDenied s (activeFolderId (windows s))); [done|].
  destruct (copyEach _ (i :: l) [] 0) as [[[|c items] n]|]; [|done..].
  simpl. by rewrite app_nil_r.
Qed.

Lemma handlePaste_idle (k : nat) (u : nat -> string) (t : Z) (s : AppState)
    (l : list string) (n : nat) :
  clipboard s = Some l ->
  copyEach (λ i m, copyItemRecursively k (files s) u t i
                     (activeFolderId (windows s)) true m) l [] 0 = Some ([], n) ->
  ∃ s', handlePaste k u t s = Some s' ∧ files s' = files s ∧ historyUntouched s s'.
Proof.
  intros Hclip Hcopy. unfold handlePaste. rewrite Hclip.
  destruct l as [|i l]; [by eexists|]. rewrite Hcopy.
  repeat case_match; by eexists.
Qed.

(** Paste looks the identifiers of the clipboard up when it runs and skips
    those that no longer name an item: the collection it produces is the
    one it would produce from the identifiers that are left, and when none
    is left the collection and the history stay as they are. *)
Theorem paste_skips_vanished_items (k : nat) (u : nat -> string) (t : Z) (s : AppState)
    (ids : list string) :
  clipboard s = Some ids ->
  let present := filter (λ i, is_Some (findById i (files s))) ids in
  files <$> handlePaste (S k) u t s
  = files <$> handlePaste (S k) u t (setClipboard (Some present) s)
  ∧ (present = [] ->
     ∃ s', handlePaste (S k) u t s = Some s' ∧ files s' = files s
           ∧ historyUntouched s s').
Proof.
  intros Hclip present.
  set (copy := λ i m, copyItemRecursively (S k) (files s) u t i
                        (activeFolderId (windows s)) true m).
  assert (Heach : copyEach copy ids [] 0 = copyEach copy present [] 0).
  { apply copyEach_skips. intros i n Hnone. unfold copy. simpl.
    destruct (findById i (files s)); [|done]. exfalso. eauto. }
  split.
  - rewrite (handlePaste_files (S k) u t s ids Hclip).
    rewrite (handlePaste_files (S k) u t (setClipboard (Some present) s) present eq_refl).
    change (files (setClipboard (Some present) s)) with (files s).
    change (windows (setClipboard (Some present) s)) with (windows s).
    change (targetDenied (setClipboard (Some present) s)) with (targetDenied s).
    fold copy. by rewrite Heach.
  - intros He. apply (handlePaste_idle (S k) u t s ids 0 Hclip).
    fold copy. by rewrite Heach, He.
Qed.

Lemma paste_skips_vanished_items_witness :
  files <$> handlePaste 8 sampleUuid 5 staleClipboard
  = files <$> handlePaste 8 sampleUuid 5 (setClipboard (Some ["a"]) oneFile).
Proof.
  exact (proj1 (paste_skips_vanished_items 7 sampleUuid 5 staleClipboard
                  ["gone"; "a"] eq_refl)).
Defined.

(** ** Identifiers *)

Lemma handleMoveToTrash_ids (l : list string) (t : Z) (s : AppState) :
  id <$> files (handleMoveToTrash l t s) = id <$> files s.
Proof.
  unfold handleMoveToTrash. case_match; [done|]. simpl.
  apply fmap_keeps_ids. intros f. by case_bool_decide.
Qed.

Lemma handleMoveFile_ids (eg : bool) (k : nat) (src tgt : string)
    (pos : option Position) (t : Z) (s s' : AppState) :
  NoDup (id <$> files s) ->
  handleMoveFile eg k src tgt pos t s = Some s' -> id <$> files s' = id <$> files s.
Proof.
  intros Hnd. unfold handleMoveFile.
  destruct (decide (src = tgt)); [by intros; simplify_eq|].
  destruct (itemDenied s src); [by intros; simplify_eq|].
  destruct (decide (tgt = TRASH_ID)).
  { intros; simplify_eq. apply handleMoveToTrash_ids. }
  destruct (targetDenied s tgt); [by intros; simplify_eq|].
  destruct (reachesSource _ _ _ _) as [[|]|]; [by intros; simplify_eq| |done].
  destruct (moveItems _ _ _ _ _ _) as [newFiles movedItemsPayload] eqn:Hmove.
  destruct (moveItems_spec _ _ _ _ _ _ _ _ Hmove Hnd) as (Hids & _).
  destruct movedItemsPayload; [|destruct eg]; by intros; simplify_eq.
Qed.

Lemma run_keeps_ids (e : Env) (c : Command) (s s' : AppState) :
  match c with
  | Move _ _ _ | MoveToTrash _ | Restore _ | ToggleVisibility _ _
  | UpdateVisibility _ _ | UpdateTags _ _ => True
  | _ => False
  end ->
  NoDup (id <$> files s) ->
  run e c s = Some s' -> id <$> files s' = id <$> files s.
Proof.
  destruct c; try done; simpl; intros Hc Hnd Hrun; simplify_eq.
  - by eapply handleMoveFile_ids.
  - apply handleMoveToTrash_ids.
  - apply fmap_keeps_ids. intros f. by case_bool_decide.
  - unfold handleVisibilityToggle. case_match; [done|]. simpl.
    apply fmap_keeps_ids. intros f. unfold toggleRole. by repeat case_bool_decide.
  - unfold updateVisibility. case_match; [done|]. simpl.
    apply fmap_keeps_ids. intros f. by case_decide.
  - apply fmap_keeps_ids. intros f. by case_decide.
Qed.

(** Whatever the user does short of undo and redo, the identifiers of the
    collection stay pairwise distinct, provided the generated identifiers
    are new: the handlers rewrite items in place, remove items or append
    items under fresh identifiers. *)
Theorem identifiers_stay_distinct (cs : list (Env * Command)) :
  ∀ s s',
    Forall (λ ec, ec.2 ≠ Undo ∧ ec.2 ≠ Redo) cs ->
    NoDup (id <$> files s) ->
    freshRun cs s ->
    runAll cs s = Some s' ->
    NoDup (id <$> files s').
Proof.
  induction cs as [|[e c] cs IH]; intros s s' Hcs Hnd Hfresh Hrun.
  { simpl in Hrun. by simplify_eq. }
  apply Forall_cons in Hcs as [[Hu Hr] Hcs]. simpl in Hu, Hr.
  destruct Hfresh as (Hinj & Hnew & Hrest). cbn [runAll] in Hrun.
  destruct (run e c s) as [s1|] eqn:Hstep; [|done].
  apply (IH s1 s' Hcs); [|done..].
  assert (Hrev : reversible false true e c s ∨
            match c with
            | Move _ _ _ | MoveToTrash _ | Restore _ | ToggleVisibility _ _
            | UpdateVisibility _ _ | UpdateTags _ _ => True
            | _ => False
            end).
  { destruct c; simpl; auto. }
  destruct Hrev as [Hrev|Hkeep].
  - by destruct (run_traced false true e c s s1 Hrev Hnd Hinj Hnew Hstep) as (_ & _ & _ & ?).
  - by rewrite (run_keeps_ids e c s s1 Hkeep Hnd Hstep).
Qed.

Lemma identifiers_stay_distinct_witness :
  NoDup (id <$> files (default (sampleState []) (runAll renameThenTrash oneFile))).
Proof.
  apply (identifiers_stay_distinct renameThenTrash oneFile).
  - repeat constructor; discriminate.
  - apply (bool_decide_unpack _). by vm_compute.
  - repeat split; try (intros j k Hjk; by apply (sampleUuidFrom_inj 0));
      intros k Hin; simpl in Hin; apply list_elem_of_singleton in Hin;
      by apply (sampleUuidFrom_not_a 0 k).
  - reflexivity.
Defined.

(** ** What the cycle guard of move achieves *)

Lemma findById_pointwise_none (i : string) :
  ∀ (F F1 : list FileSystemItem) (h : nat -> FileSystemItem -> FileSystemItem),
    length F1 = length F ->
    (∀ n f, F !! n = Some f -> F1 !! n = Some (h n f)) ->
    (∀ n f, id (h n f) = id f) ->
    findById i F = None -> findById i F1 = None.
Proof.
  induction F as [|g F IH]; intros F1 h Hlen Hnth Hid Hnone.
  - by destruct F1.
  - destruct F1 as [|g1 R1]; [done|].
    pose proof (Hnth 0%nat g eq_refl) as H0. simpl in H0. simplify_eq.
    unfold findById in *. simpl in *. rewrite Hid.
    destruct (bool_decide (id g = i)); [done|].
    apply (IH R1 (λ n, h (S n))); [lia|exact (λ n f', Hnth (S n) f')|done|done].
Qed.

Lemma climbPath_off_the_walk (fs fs' : list FileSystemItem) (src : string) :
  (∀ p c, findById p fs = Some c -> id c ≠ src -> findById p fs' = Some c) ->
  (∀ p, findById p fs = None -> findById p fs' = None) ->
  ∀ k cur acc,
    reachesSource k fs src cur = Some false ->
    climbPath k fs' cur acc = climbPath k fs cur acc
    ∧ is_Some (climbPath k fs cur acc).
Proof.
  intros Hsome Hnone. induction k as [|k IH]; intros cur acc Hwalk; [done|].
  simpl in *. destruct cur as [c|]; [|by eauto].
  case_decide as Hc; [done|].
  destruct (parentId c) as [p|]; [|by eauto].
  case_decide; [by eauto|]. case_decide; [by eauto|].
  assert (Hnext : findById p fs' = findById p fs).
  { destruct (findById p fs) as [c'|] eqn:Hp; [|by apply Hnone].
    apply Hsome; [done|]. destruct k as [|k']; [done|]. simpl in Hwalk.
    by case_decide. }
  rewrite Hnext. by apply IH.
Qed.

(** The guard of move does for the dragged item what it is there for.
    When an item that is not part of the selection is dragged into a
    folder and the move is accepted, the walk that looked for the item
    above the target has ended, so the path of the target is finite; after
    the move the target has the path it had, and the path of the moved
    item is that path followed by the item itself. *)
Theorem moved_item_hangs_below_the_target (eg : bool) (k : nat) (src tgt : string)
    (pos : option Position) (t t' : Z) (s : AppState) (f : FileSystemItem) :
  src ∉ selectedFileIds s -> src ≠ tgt ->
  tgt ≠ TRASH_ID -> tgt ≠ "" -> JS.startsWith "tag:" tgt = false ->
  src ≠ TRASH_ID -> JS.startsWith "tag:" src = false ->
  findById src (files s) = Some f ->
  hasPermission (currentUser s) f = true -> targetDenied s tgt = false ->
  reachesSource k (files s) src (findById tgt (files s)) = Some false ->
  parentId f ≠ Some tgt ∨ is_Some pos ->
  ∃ s' f' path,
    handleMoveFile eg k src tgt pos t s = Some s'
    ∧ findById src (files s') = Some f' ∧ parentId f' = Some tgt ∧ name f' = name f
    ∧ getPath k t' (files s) tgt = Some path
    ∧ getPath k t' (files s') tgt = Some path
    ∧ getPath (S k) t' (files s') src = Some (path ++ [f']).
Proof.
  intros Hsel Hne Htr Ht0 Httag Hstr Hstag Hfind Hperm Hden Hwalk Hmoves.
  destruct (findById_Some _ _ _ Hfind) as [Hin Hid].
  unfold handleMoveFile. rewrite decide_False by done.
  unfold itemDenied. rewrite Hfind, Hperm. cbn [negb].
  rewrite (decide_False (P := tgt = TRASH_ID)), Hden, Hwalk by done.
  rewrite (bool_decide_eq_false_2 (src ∈ selectedFileIds s)) by done.
  set (top := JS.maxOr0 (order <$> childrenOf tgt (files s))).
  destruct (moveItems [src] tgt pos t top (files s)) as [F1 P] eqn:Hmove.
  destruct (moveItems_orders [src] tgt pos t _ _ _ _ Hmove) as (HP & Hlen & Hnth).
  set (h := λ (n : nat) (g : FileSystemItem),
              if shifted [src] tgt pos g
              then placed tgt pos t
                     (top + 1 + Z.of_nat (length (filter (λ g, shifted [src] tgt pos g = true)
                                                    (take n (files s))))) g
              else g) in Hnth.
  assert (Hh : ∀ n g, id (h n g) = id g).
  { intros n g. unfold h. by destruct (shifted _ _ _ g). }
  assert (Hoff : ∀ n g, id g ≠ src -> h n g = g).
  { intros n g Hg. unfold h, shifted.
    rewrite bool_decide_eq_false_2; [done|]. by rewrite list_elem_of_singleton. }
  assert (Hsh : shifted [src] tgt pos f = true).
  { unfold shifted. rewrite bool_decide_eq_true_2 by (rewrite Hid; by left). simpl.
    destruct Hmoves as [Hp|Hpos].
    - by rewrite (bool_decide_eq_false_2 (parentId f = Some tgt)).
    - by rewrite (bool_decide_eq_true_2 (is_Some pos)), andb_false_r. }
  destruct (findById_pointwise src (files s) F1 h Hnth Hh f Hfind) as (n & Hn & Hf1).
  assert (Hsome : ∀ p c, findById p (files s) = Some c -> id c ≠ src ->
                    findById p F1 = Some c).
  { intros p c Hp Hc.
    destruct (findById_pointwise p (files s) F1 h Hnth Hh c Hp) as (m & _ & Hm).
    by rewrite Hm, Hoff. }
  assert (Hnone : ∀ p, findById p (files s) = None -> findById p F1 = None).
  { intros p. by apply (findById_pointwise_none p (files s) F1 h). }
  destruct (climbPath_off_the_walk (files s) F1 src Hsome Hnone k _ [] Hwalk)
    as [Hsame [path Hpath]].
  match goal with |- ∃ s' f' path, ?X = Some s' ∧ _ =>
    assert (Hres : ∃ s', X = Some s' ∧ files s' = F1)
      by (destruct P; [|destruct eg]; eexists; by split) end.
  destruct Hres as (s' & Hres & Hs'). rewrite Hres.
  exists s', (h n f), path. rewrite Hs'. split; [done|]. split; [done|].
  assert (Hpar : parentId (h n f) = Some tgt) by (unfold h; by rewrite Hsh).
  split; [done|]. split; [unfold h; by rewrite Hsh|].
  assert (Htgt : findById tgt F1 = findById tgt (files s)).
  { destruct (findById tgt (files s)) as [c|] eqn:Hc; [|by apply Hnone].
    apply Hsome; [done|]. apply findById_Some in Hc as [_ ->]. done. }
  unfold getPath. rewrite Httag, Hstag, !decide_False by done.
  split; [done|]. split; [by rewrite Htgt, Hsame|].
  simpl. rewrite Hf1, Hpar, !decide_False by done.
  by rewrite Htgt, climbPath_acc, Hsame, Hpath.
Qed.

Lemma moved_item_hangs_below_the_target_witness :
  ∃ s' f' path,
    handleMoveFile false 8 "script1" "docs" None 9 (sampleState sampleTree) = Some s'
    ∧ getPath 8 0 (files (sampleState sampleTree)) "docs" = Some path
    ∧ getPath 9 0 (files s') "script1" = Some (path ++ [f']).
Proof.
  destruct (moved_item_hangs_below_the_target false 8 "script1" "docs" None 9 0
              (sampleState sampleTree)
              (sampleItem "script1" (Some "proj") "main.tsx" CODE 0))
    as (s' & f' & path & Hrun & _ & _ & _ & Hp & _ & Hpath);
    try done; try (by left).
  - simpl. by intros ?%elem_of_nil.
  - by exists s', f', path.
Defined.
